(** * ai-cybershield: the threat-detection pipeline, embedded and verified

    A shallow embedding of [src/utils/patterns.js], [behaviorAnalyzer.js],
    [threatScoring.js], [correlationEngine.js], [mlPreprocessor.js] and the
    module that exports [analyzeLogs], followed by the properties of the
    specification that concern them.

    Conventions of the embedding.
    - A JavaScript string is a [string] of code units below 256.
    - A timestamp value (an ISO string, as produced by
      [new Date().toISOString()]) is represented by the instant it denotes, in
      milliseconds since the epoch: [new Date(ts).getTime()] is the identity on
      it.  A time value that JavaScript computes as [NaN] is [None].
    - Integer-valued JavaScript numbers are [Z]; where the code divides, the
      quotient is the exact rational ([Q]).
    - [Date.now()] and [new Date()] read a clock that is part of the state. *)

From Stdlib Require Import ZArith QArith Qabs Qround Bool List Ascii String Lia.
From Stdlib Require Import Sorted Permutation.
From stdpp Require Import base gmap sets list strings.

Set Warnings "-clear-no-such-hyp".

Local Open Scope string_scope.
Local Open Scope list_scope.
Local Open Scope Z_scope.

(** ** JavaScript strings *)

Module JsString.

(** [s.includes(sub)] *)
Fixpoint includes (s sub : string) : bool :=
  String.prefix sub s ||
  match s with
  | EmptyString => false
  | String _ s' => includes s' sub
  end.

(** [s.substring(0, n)] *)
Definition substring0 (n : nat) (s : string) : string := String.substring 0 n s.

(** [s.split(sep)] for a one-character separator; never returns the
    empty array. *)
Fixpoint split (sep : ascii) (s : string) : list string :=
  match s with
  | EmptyString => [EmptyString]
  | String a s' =>
      if Ascii.eqb a sep then EmptyString :: split sep s'
      else match split sep s' with
           | [] => [String a EmptyString]
           | w :: ws => String a w :: ws
           end
  end.

(** [parts.join(sep)] *)
Fixpoint join (sep : string) (parts : list string) : string :=
  match parts with
  | [] => EmptyString
  | [p] => p
  | p :: ps => p ++ sep ++ join sep ps
  end.

Definition code (a : ascii) : N := N_of_ascii a.

Definition between (lo hi : N) (a : ascii) : bool :=
  (N.leb lo (code a) && N.leb (code a) hi)%bool.

Definition is_digit (a : ascii) : bool := between 48 57 a.

(** [\w] *)
Definition is_word (a : ascii) : bool :=
  (between 97 122 a || between 65 90 a || is_digit a || N.eqb (code a) 95)%bool.

(** [\s], and the characters [trim] strips: tab, LF, VT, FF, CR, space,
    no-break space. *)
Definition is_space (a : ascii) : bool :=
  (between 9 13 a || N.eqb (code a) 32 || N.eqb (code a) 160)%bool.

(** The lower-case form of a code unit below 256: the letters A to Z, and
    the accented capitals 192 to 222 without the multiplication sign 215. *)
Definition lower (a : ascii) : ascii :=
  if between 65 90 a || (between 192 222 a && negb (N.eqb (code a) 215))
  then ascii_of_N (code a + 32)
  else a.

(** [s.toLowerCase()] *)
Fixpoint toLowerCase (s : string) : string :=
  match s with
  | EmptyString => EmptyString
  | String a s' => String (lower a) (toLowerCase s')
  end.

Fixpoint trimStart (s : string) : string :=
  match s with
  | EmptyString => EmptyString
  | String a s' => if is_space a then trimStart s' else s
  end.

Fixpoint trimEnd (s : string) : string :=
  match s with
  | EmptyString => EmptyString
  | String a s' =>
      match trimEnd s' with
      | EmptyString => if is_space a then EmptyString else String a EmptyString
      | t => String a t
      end
  end.

(** [s.trim()] *)
Definition trim (s : string) : string := trimEnd (trimStart s).

(** The truth value of a text that may be [null]: neither [null] nor empty. *)
Definition truthy (o : option string) : bool :=
  match o with
  | Some s => negb (String.eqb s "")
  | None => false
  end.

(** [array.slice(start, stop)] within bounds. *)
Definition slice {A : Type} (start stop : nat) (l : list A) : list A :=
  firstn (stop - start) (skipn start l).

End JsString.

(** ** Regular expressions

    The fragment of the JavaScript regular expressions the repository uses:
    literals, [\d], [\s], concatenation, alternation, [x?], a greedy star on a
    character class, [\b], and the [i] flag.  Matching is the backtracking
    search of the language: alternatives left to right, greedy quantifiers
    longest first, start positions left to right. *)

Module RegExp.
Import JsString.

Inductive cls := CChar (c : ascii) | CDigit | CSpace.

Inductive regex :=
| Eps
| Cls (c : cls)
| Lit (s : string)
| Seq (r1 r2 : regex)
| Alt (r1 r2 : regex)
| Opt (r : regex)
| Star (c : cls)
| WordB.

Record t := { source : regex; ignoreCase : bool }.

Definition cls_matches (icase : bool) (c : cls) (a : ascii) : bool :=
  match c with
  | CChar x => if icase then Ascii.eqb (lower x) (lower a) else Ascii.eqb x a
  | CDigit => is_digit a
  | CSpace => is_space a
  end.

Definition K := option ascii -> string -> option string.

Fixpoint lit_match (icase : bool) (l : string) (prev : option ascii)
    (s : string) (k : K) : option string :=
  match l with
  | EmptyString => k prev s
  | String x l' =>
      match s with
      | EmptyString => None
      | String a s' =>
          if cls_matches icase (CChar x) a then lit_match icase l' (Some a) s' k
          else None
      end
  end.

Fixpoint star_match (icase : bool) (c : cls) (prev : option ascii)
    (s : string) (k : K) : option string :=
  match s with
  | EmptyString => k prev s
  | String a s' =>
      if cls_matches icase c a then
        match star_match icase c (Some a) s' k with
        | Some r => Some r
        | None => k prev s
        end
      else k prev s
  end.

Definition word_at (o : option ascii) : bool :=
  match o with Some a => is_word a | None => false end.

Definition head (s : string) : option ascii :=
  match s with EmptyString => None | String a _ => Some a end.

Fixpoint rmatch (icase : bool) (r : regex) (prev : option ascii)
    (s : string) (k : K) : option string :=
  match r with
  | Eps => k prev s
  | Cls c =>
      match s with
      | EmptyString => None
      | String a s' => if cls_matches icase c a then k (Some a) s' else None
      end
  | Lit l => lit_match icase l prev s k
  | Seq r1 r2 => rmatch icase r1 prev s (fun p' s' => rmatch icase r2 p' s' k)
  | Alt r1 r2 =>
      match rmatch icase r1 prev s k with
      | Some x => Some x
      | None => rmatch icase r2 prev s k
      end
  | Opt r1 =>
      match rmatch icase r1 prev s k with
      | Some x => Some x
      | None => k prev s
      end
  | Star c => star_match icase c prev s k
  | WordB => if xorb (word_at prev) (word_at (head s)) then k prev s else None
  end.

(** The leftmost match, as the matched text. *)
Fixpoint exec_from (re : t) (prev : option ascii) (s : string) : option string :=
  match rmatch (ignoreCase re) (source re) prev s (fun _ rest => Some rest) with
  | Some rest => Some (String.substring 0 (String.length s - String.length rest) s)
  | None =>
      match s with
      | EmptyString => None
      | String a s' => exec_from re (Some a) s'
      end
  end.

(** [s.match(re)] for a regular expression without the [g] flag: element 0. *)
Definition exec (re : t) (s : string) : option string := exec_from re None s.

(** [re.test(s)] *)
Definition test (re : t) (s : string) : bool :=
  match exec re s with Some _ => true | None => false end.

(** Surface syntax. *)
Definition alts (rs : list regex) : regex :=
  match rs with
  | [] => Eps
  | r :: rs' => fold_left Alt rs' r
  end.
Definition seqs (rs : list regex) : regex := fold_right Seq Eps rs.
Definition words (ws : list string) : regex := alts (map Lit ws).
Definition spaces : regex := Star CSpace.
Definition ci (r : regex) : t := {| source := r; ignoreCase := true |}.

End RegExp.

(** ** Maps

    A JavaScript [Map] with string keys: the entries in insertion order. *)

Module JsMap.

Definition t (V : Type) : Type := list (string * V).

(** [map.get(key)]; [None] is [undefined]. *)
Fixpoint get {V : Type} (m : t V) (key : string) : option V :=
  match m with
  | [] => None
  | (k, v) :: rest => if String.eqb k key then Some v else get rest key
  end.

(** [map.has(key)] *)
Definition has {V : Type} (m : t V) (key : string) : bool :=
  match get m key with Some _ => true | None => false end.

(** [map.set(key, value)]: an existing key keeps its place. *)
Fixpoint set {V : Type} (m : t V) (key : string) (value : V) : t V :=
  match m with
  | [] => [(key, value)]
  | (k, v) :: rest =>
      if String.eqb k key then (k, value) :: rest else (k, v) :: set rest key value
  end.

(** [Array.from(map.keys())] *)
Definition keys {V : Type} (m : t V) : list string := map fst m.

End JsMap.

(** ** Property names that every object inherits *)

Module JsObject.

(** The names of the properties of [Object.prototype].  Reading one of them
    from an object literal that does not define it gives a function of the
    prototype (for [__proto__], the prototype itself), not [undefined]. *)
Definition inheritedNames : list string :=
  [ "constructor"; "hasOwnProperty"; "isPrototypeOf"; "propertyIsEnumerable";
    "toLocaleString"; "toString"; "valueOf"; "__proto__";
    "__defineGetter__"; "__defineSetter__"; "__lookupGetter__"; "__lookupSetter__" ].

(** A key under which an object literal holds a value only if the literal
    itself defines it. *)
Definition plain (key : string) : bool :=
  negb (existsb (String.eqb key) inheritedNames).

End JsObject.

(** ** The host: local time and the clock *)

Module Host.

(** The time zone of the process: the offset of local time from UTC, in
    milliseconds, at each instant. *)
Record t := { utcOffsetMs : Z -> Z }.

Definition UTC : t := {| utcOffsetMs := fun _ => 0 |}.

Definition localMs (h : t) (ts : Z) : Z := ts + utcOffsetMs h ts.

(** [new Date(ts).getHours()] *)
Definition getHours (h : t) (ts : Z) : Z := (localMs h ts / 3600000) mod 24.

(** [new Date(ts).getMinutes()] *)
Definition getMinutes (h : t) (ts : Z) : Z := (localMs h ts / 60000) mod 60.

(** [new Date(ts).getDay()]; 1 January 1970 was a Thursday. *)
Definition getDay (h : t) (ts : Z) : Z := (localMs h ts / 86400000 + 4) mod 7.

End Host.

(** ** BehaviorAnalyzer ([behaviorAnalyzer.js]) *)

Module BehaviorAnalyzer.

Record Activity := { action : string; timestamp : Z }.

(** The state of the process: the clock ([clock w k] is what the [k]-th
    reading returns), the number of readings so far, and the [activityLog] map
    of the one [BehaviorAnalyzer] instance of the process. *)
Record World := {
  clock : nat -> Z;
  reads : nat;
  activityLog : JsMap.t (list Activity) }.

Definition M (A : Type) : Type := World -> A * World.

Definition ret {A} (x : A) : M A := fun w => (x, w).

Definition bind {A B} (m : M A) (f : A -> M B) : M B :=
  fun w => let (x, w') := m w in f x w'.

Notation "x <- c ;; k" := (bind c (fun x => k))
  (at level 200, c at level 99, right associativity).
Notation "c ;;; k" := (bind c (fun _ => k))
  (at level 200, right associativity).

(** [Date.now()], and [new Date()] read as an instant. *)
Definition Date_now : M Z :=
  fun w => (clock w (reads w),
            {| clock := clock w; reads := S (reads w); activityLog := activityLog w |}).

Definition getLog : M (JsMap.t (list Activity)) := fun w => (activityLog w, w).

Definition setLog (l : JsMap.t (list Activity)) : M unit :=
  fun w => (tt, {| clock := clock w; reads := reads w; activityLog := l |}).

Definition maxAttemptsPerMinute : Z := 30.
Definition maxFailedLogins : Z := 5.

Definition cleanup (ip : string) : M unit :=
  now <- Date_now ;;
  let oneHourAgo := now - 60 * 60 * 1000 in
  log <- getLog ;;
  match JsMap.get log ip with
  | Some activities =>
      setLog (JsMap.set log ip
                (List.filter (fun activity => oneHourAgo <? timestamp activity) activities))
  | None => ret tt
  end.

Definition trackActivity (ip action : string) (ts : Z) : M unit :=
  log <- getLog ;;
  let log := if JsMap.has log ip then log else JsMap.set log ip [] in
  let log :=
    JsMap.set log ip
      (default [] (JsMap.get log ip) ++ [{| action := action; timestamp := ts |}]) in
  setLog log ;;;
  cleanup ip.

Record Frequency := { rate : Z; isHighFrequency : bool }.

Definition calculateFrequency (activities : list Activity) : M Frequency :=
  if (length activities =? 0)%nat then ret {| rate := 0; isHighFrequency := false |}
  else
    now <- Date_now ;;
    let recentActivities :=
      List.filter (fun activity => now - timestamp activity <=? 60000) activities in
    ret {| rate := Z.of_nat (length recentActivities);
           isHighFrequency := maxAttemptsPerMinute <? Z.of_nat (length recentActivities) |}.

(** The loop [for (i = 1; i < timestamps.length; i++)] of
    [checkTimingPatterns]. *)
Fixpoint intervalsFrom (prev : Z) (timestamps : list Z) : list Z :=
  match timestamps with
  | [] => []
  | t :: rest => (t - prev) :: intervalsFrom t rest
  end.

Definition intervalsOf (timestamps : list Z) : list Z :=
  match timestamps with
  | [] => []
  | t :: rest => intervalsFrom t rest
  end.

Definition Qsum (l : list Q) : Q := fold_left Qplus l (0 : Q).

(** The average and the mean deviation are computed here as exact
    rationals, where the code computes them in double precision: the two
    answers agree unless the exact deviation is 100 or within a rounding
    error of 100. *)
Definition checkRegularIntervals (intervals : list Z) : bool :=
  if (length intervals <? 3)%nat then false
  else
    let n := inject_Z (Z.of_nat (length intervals)) in
    let avgInterval := (Qsum (map inject_Z intervals) / n)%Q in
    let deviation :=
      (fold_left (fun acc interval => acc + Qabs (inject_Z interval - avgInterval))
                 intervals (0 : Q) / n)%Q in
    negb (Qle_bool (100 : Q) deviation).

(** [regularPattern] and [unusualTiming] are absent ([None]) from the object
    returned for an empty activity list. *)
Record Timing := {
  t_suspicious : bool;
  t_regularPattern : option bool;
  t_unusualTiming : option bool }.

Definition checkTimingPatterns (h : Host.t) (activities : list Activity) : Timing :=
  if (length activities =? 0)%nat then
    {| t_suspicious := false; t_regularPattern := None; t_unusualTiming := None |}
  else
    let timestamps := map timestamp activities in
    let intervals := intervalsOf timestamps in
    let isRegularPattern := checkRegularIntervals intervals in
    let hasUnusualTiming :=
      existsb (fun activity =>
                 let hour := Host.getHours h (timestamp activity) in
                 (2 <=? hour) && (hour <=? 5)) activities in
    {| t_suspicious := isRegularPattern || hasUnusualTiming;
       t_regularPattern := Some isRegularPattern;
       t_unusualTiming := Some hasUnusualTiming |}.

(** What [new Date(v)] is given in [checkRapidSuccession]: a timestamp value,
    or an activity record itself. *)
Inductive DateArg :=
| OfTimestamp (ts : Z)
| OfRecord (a : Activity).

(** [new Date(v).getTime()].  A record is a plain object: its primitive value
    is the text [[object Object]], which is no date, and the time value is
    [NaN]. *)
Definition getTime (v : DateArg) : option Z :=
  match v with
  | OfTimestamp ts => Some ts
  | OfRecord _ => None
  end.

(** [a - b] on time values; [NaN] is absorbing. *)
Definition timeSub (a b : option Z) : option Z :=
  match a, b with
  | Some x, Some y => Some (x - y)
  | _, _ => None
  end.

(** [a < n]; every comparison with [NaN] is false. *)
Definition timeLt (a : option Z) (n : Z) : bool :=
  match a with
  | Some x => x <? n
  | None => false
  end.

(** The loop of [checkRapidSuccession], from index [i] on, with
    [prev = activities[i - 1]]. *)
Fixpoint rapidLoop (prev : Activity) (rest : list Activity) : bool :=
  match rest with
  | [] => false
  | cur :: rest' =>
      let timeDiff :=
        timeSub (getTime (OfTimestamp (timestamp cur))) (getTime (OfRecord prev)) in
      if timeLt timeDiff 1000 then true else rapidLoop cur rest'
  end.

Definition checkRapidSuccession (activities : list Activity) : bool :=
  if (length activities <? 2)%nat then false
  else match activities with
       | [] => false
       | first :: rest => rapidLoop first rest
       end.

Definition containsSequence (array sequence : list string) : bool :=
  JsString.includes (JsString.join "," array) (JsString.join "," sequence).

Definition knownPatterns : list (list string) :=
  [ ["failed_login"; "success_login"; "access_sensitive"];
    ["port_scan"; "vulnerability_scan"; "exploit_attempt"] ].

Definition detectKnownPatterns (activities : list Activity) : bool :=
  let actions := map action activities in
  existsb (fun pattern => containsSequence actions pattern) knownPatterns.

Record SequenceDetails := {
  failedLogins : bool;
  rapidSuccession : bool;
  patternDetected : bool }.

Record Sequence := { s_suspicious : bool; s_details : SequenceDetails }.

Definition checkActionSequence (activities : list Activity) : Sequence :=
  let failed :=
    length (List.filter (fun activity => String.eqb (action activity) "failed_login")
                        activities) in
  let suspiciousSequences :=
    {| failedLogins := maxFailedLogins <=? Z.of_nat failed;
       rapidSuccession := checkRapidSuccession activities;
       patternDetected := detectKnownPatterns activities |} in
  {| s_suspicious := failedLogins suspiciousSequences
                     || rapidSuccession suspiciousSequences
                     || patternDetected suspiciousSequences;
     s_details := suspiciousSequences |}.

Definition calculateRiskScore (h : Host.t) (activities : list Activity) : M Z :=
  freq <- calculateFrequency activities ;;
  let timing := checkTimingPatterns h activities in
  let sequence := checkActionSequence activities in
  let score := 0 in
  let score := if isHighFrequency freq then score + 30 else score in
  let score := if t_suspicious timing then score + 25 else score in
  let score := if s_suspicious sequence then score + 25 else score in
  let score := score + Z.min 20 (Z.of_nat (length activities)) in
  ret (Z.min 100 score).

Record BehaviorAnalysis := {
  frequency : Frequency;
  unusualTiming : Timing;
  suspiciousSequence : Sequence;
  riskScore : Z }.

(** The analysis of a given activity list, in the order the object literal of
    [analyzePattern] evaluates its fields. *)
Definition analyzeActivities (h : Host.t) (activities : list Activity) : M BehaviorAnalysis :=
  freq <- calculateFrequency activities ;;
  let timing := checkTimingPatterns h activities in
  let sequence := checkActionSequence activities in
  risk <- calculateRiskScore h activities ;;
  ret {| frequency := freq; unusualTiming := timing;
         suspiciousSequence := sequence; riskScore := risk |}.

Definition analyzePattern (h : Host.t) (ip : string) : M BehaviorAnalysis :=
  log <- getLog ;;
  let activities := default [] (JsMap.get log ip) in
  analyzeActivities h activities.

End BehaviorAnalyzer.

(** ** The pattern catalog ([patterns.js]) *)

Module Patterns.
Import RegExp.

Record Pattern := {
  pattern : RegExp.t;
  severity : string;
  category : string;
  threshold : Z;
  timeWindow : Z }.

Definition SUSPICIOUS_PATTERNS : list Pattern :=
  [ {| pattern := ci (seqs [words ["unauthorized"; "invalid"; "failed"; "denied"]; spaces;
                            words ["access"; "login"; "logon"; "authentication"]]);
       severity := "HIGH"; category := "AUTH"; threshold := 3; timeWindow := 300000 |};
    {| pattern := ci (alts [seqs [Lit "invalid"; spaces; Lit "credentials"];
                            seqs [Lit "password"; spaces; Lit "incorrect"];
                            seqs [Lit "authentication"; spaces; Lit "failed"]]);
       severity := "MEDIUM"; category := "AUTH"; threshold := 2; timeWindow := 300000 |};
    {| pattern := ci (seqs [words ["multiple"; "repeated"; "excessive"]; spaces;
                            words ["failed"; "invalid"]; spaces;
                            words ["login"; "attempt"]]);
       severity := "HIGH"; category := "BRUTE_FORCE"; threshold := 1; timeWindow := 300000 |};
    {| pattern := ci (seqs [words ["unknown"; "invalid"; "non-existent"]; spaces;
                            words ["user"; "account"]]);
       severity := "MEDIUM"; category := "SUSPICIOUS_ACCOUNT"; threshold := 2;
       timeWindow := 300000 |};
    {| pattern := ci (alts [seqs [words ["privilege"; "permission"]; spaces;
                                  words ["escalation"; "elevation"]];
                            seqs [Lit "sudo"; spaces; Lit "abuse"]]);
       severity := "HIGH"; category := "PRIVILEGE_ESCALATION"; threshold := 1;
       timeWindow := 300000 |};
    {| pattern := ci (alts [seqs [Lit "system"; spaces; words ["access"; "modification"]];
                            seqs [Lit "registry"; spaces; Lit "change"]]);
       severity := "HIGH"; category := "SYSTEM_ACCESS"; threshold := 1; timeWindow := 300000 |};
    {| pattern := ci (alts [seqs [words ["port"; "network"]; spaces; Lit "scan"];
                            Lit "reconnaissance"]);
       severity := "HIGH"; category := "RECONNAISSANCE"; threshold := 1; timeWindow := 300000 |};
    {| pattern := ci (alts [Lit "malware"; Lit "virus"; Lit "trojan";
                            seqs [Lit "suspicious"; spaces;
                                  words ["execution"; "process"; "file"]]]);
       severity := "HIGH"; category := "MALWARE"; threshold := 1; timeWindow := 300000 |} ].

(** What a field of a catalog entry may hold when [validatePatterns] looks at
    it. *)
Inductive jsval :=
| JUndefined
| JNull
| JBoolean (b : bool)
| JNumber (n : Z)
| JString (s : string)
| JRegExp (r : RegExp.t)
| JObject.

Record RawPattern := {
  raw_pattern : jsval;
  raw_severity : jsval;
  raw_category : jsval }.

Definition raw (p : Pattern) : RawPattern :=
  {| raw_pattern := JRegExp (pattern p);
     raw_severity := JString (severity p);
     raw_category := JString (category p) |}.

Definition instanceofRegExp (v : jsval) : bool :=
  match v with JRegExp _ => true | _ => false end.

Definition typeofString (v : jsval) : bool :=
  match v with JString _ => true | _ => false end.

(** [list.includes(v)] for a list of strings. *)
Definition arrayIncludes (l : list string) (v : jsval) : bool :=
  match v with
  | JString s => existsb (String.eqb s) l
  | _ => false
  end.

Definition validatePatterns (patterns : list RawPattern) : bool :=
  forallb (fun p =>
             instanceofRegExp (raw_pattern p)
             && typeofString (raw_severity p)
             && typeofString (raw_category p)
             && arrayIncludes ["HIGH"; "MEDIUM"; "LOW"; "INFO"] (raw_severity p))
          patterns.

End Patterns.

(** ** ThreatScoring ([threatScoring.js]) *)

Module ThreatScoring.
Import BehaviorAnalyzer.

(** [table[key] || 0] for a table of numbers written as an object literal
    and a key that is [JsObject.plain]: the number the literal gives to the
    key, and 0 for a key it does not define.  For one of the inherited names
    the code reads a function or an object of the prototype instead, where
    this function answers 0; the rules of the shipped catalog and the levels
    of [getThreatLevel] have plain keys only, and the properties that apply
    the function to another key assume that the key is plain. *)
Fixpoint weightOf (table : list (string * Z)) (key : string) : Z :=
  match table with
  | [] => 0
  | (k, v) :: rest => if String.eqb k key then v else weightOf rest key
  end.

Definition severityWeights : list (string * Z) :=
  [("HIGH", 70); ("MEDIUM", 40); ("LOW", 20); ("INFO", 0)].

Definition categoryWeights : list (string * Z) :=
  [("AUTH", 25); ("INJECTION", 30); ("XSS", 25); ("RECONNAISSANCE", 20);
   ("MALWARE", 30); ("FILE_SYSTEM", 25); ("NETWORK", 20); ("DATABASE", 25)].

Record Context := {
  ctx_timeWindow : Z;
  occurrences : Z;
  relatedEvents : list string }.

Definition calculateContextScore (context : option Context) : Z :=
  match context with
  | None => 0
  | Some context =>
      let contextScore := 0 in
      let contextScore :=
        if 1 <? occurrences context
        then contextScore + Z.min (occurrences context * 5) 20
        else contextScore in
      let contextScore :=
        if 0 <? Z.of_nat (length (relatedEvents context))
        then contextScore + Z.min (Z.of_nat (length (relatedEvents context)) * 3) 15
        else contextScore in
      contextScore
  end.

Definition truthy (o : option bool) : bool := default false o.

Definition calculateBehaviorScore (behaviorAnalysis : option BehaviorAnalysis) : Z :=
  match behaviorAnalysis with
  | None => 0
  | Some b =>
      let behaviorScore := 0 in
      let behaviorScore :=
        if isHighFrequency (frequency b) then behaviorScore + 15 else behaviorScore in
      let behaviorScore :=
        if t_suspicious (unusualTiming b) then
          let behaviorScore := behaviorScore + 10 in
          if truthy (t_regularPattern (unusualTiming b)) then behaviorScore + 5
          else behaviorScore
        else behaviorScore in
      let behaviorScore :=
        if s_suspicious (suspiciousSequence b) then behaviorScore + 15 else behaviorScore in
      behaviorScore
  end.

Definition calculateTimeBasedScore (h : Host.t) (ts : Z) : Z :=
  let timeScore := 0 in
  let hour := Host.getHours h ts in
  let timeScore := if (22 <=? hour) || (hour <=? 5) then timeScore + 10 else timeScore in
  let day := Host.getDay h ts in
  let timeScore := if (day =? 0) || (day =? 6) then timeScore + 5 else timeScore in
  timeScore.

(** The first argument of [calculateThreatScore]. *)
Record Hit := { hit_severity : string; hit_category : string; hit_timestamp : Z }.

(** The summands are integers, so [Math.round] leaves the sum as it is. *)
Definition calculateThreatScore (h : Host.t) (threat : Hit) (context : option Context)
    (behaviorAnalysis : option BehaviorAnalysis) : Z :=
  let score := 0 in
  let score := score + weightOf severityWeights (hit_severity threat) in
  let score := score + weightOf categoryWeights (hit_category threat) in
  let score := score + calculateContextScore context in
  let score :=
    match behaviorAnalysis with
    | Some _ => score + calculateBehaviorScore behaviorAnalysis
    | None => score
    end in
  let score := score + calculateTimeBasedScore h (hit_timestamp threat) in
  Z.min (Z.max score 0) 100.

Definition getThreatLevel (score : Z) : string :=
  if 80 <=? score then "CRITICAL"
  else if 60 <=? score then "HIGH"
  else if 40 <=? score then "MEDIUM"
  else if 20 <=? score then "LOW"
  else "INFO".

End ThreatScoring.

(** ** Threats

    The objects [analyzeLogs] builds, one per pattern hit.  The
    [recommendedActions] field, which no other module reads, is left out. *)

Module Threat.

(** A threat object.  Its numbers are integers that a double holds exactly;
    [timestamp] is the time value, in milliseconds, of the valid date that
    the ISO text of the property denotes; a missing or empty [threatLevel] is
    the empty text, and a [sourceIP] that is [null] is [None]. *)
Record t := {
  message : string;
  severity : string;
  category : string;
  timestamp : Z;
  lineNumber : Z;
  context : ThreatScoring.Context;
  sourceIP : option string;
  behaviorAnalysis : option BehaviorAnalyzer.BehaviorAnalysis;
  threatScore : Z;
  threatLevel : string }.

End Threat.

(** ** Arrays *)

Module JsArray.

(** [array.forEach((x, index) => ...)] on a state [St], from index [i] on. *)
Fixpoint forEachFrom {A St : Type} (f : nat -> A -> St -> St) (i : nat) (l : list A) (s : St) : St :=
  match l with
  | [] => s
  | x :: l' => forEachFrom f (S i) l' (f i x s)
  end.

Definition forEach {A St : Type} (f : nat -> A -> St -> St) (l : list A) (s : St) : St :=
  forEachFrom f 0 l s.

Fixpoint insertSorted {A : Type} (cmp : A -> A -> Z) (x : A) (l : list A) : list A :=
  match l with
  | [] => [x]
  | y :: l' => if cmp x y <=? 0 then x :: l else y :: insertSorted cmp x l'
  end.

(** [array.sort(cmp)]: a stable sort. *)
Definition sort {A : Type} (cmp : A -> A -> Z) (l : list A) : list A :=
  fold_right (insertSorted cmp) [] l.

(** [new Set(array).size] *)
Fixpoint distinct (l : list string) : list string :=
  match l with
  | [] => []
  | x :: l' => x :: List.filter (fun y => negb (String.eqb x y)) (distinct l')
  end.

(** The elements of an array with their indices, counted from [i]. *)
Fixpoint indexedFrom {A : Type} (i : nat) (l : list A) : list (nat * A) :=
  match l with
  | [] => []
  | x :: l' => (i, x) :: indexedFrom (S i) l'
  end.

Definition indexed {A : Type} (l : list A) : list (nat * A) := indexedFrom 0 l.

(** The longest prefix whose elements all satisfy [p]: a loop that stops at
    the first [break]. *)
Fixpoint takeWhile {A : Type} (p : A -> bool) (l : list A) : list A :=
  match l with
  | [] => []
  | x :: l' => if p x then x :: takeWhile p l' else []
  end.

End JsArray.

(** ** CorrelationEngine ([correlationEngine.js]) *)

Module CorrelationEngine.

Definition timeWindowMs : Z := 15 * 60 * 1000.

Record Rule := {
  relatedCategories : list string;
  threshold : Z;
  timeWindow : Z }.

Definition correlationRules (category : string) : option Rule :=
  if String.eqb category "AUTH" then
    Some {| relatedCategories := ["RECONNAISSANCE"; "INJECTION"]; threshold := 3;
            timeWindow := 5 * 60 * 1000 |}
  else if String.eqb category "RECONNAISSANCE" then
    Some {| relatedCategories := ["INJECTION"; "XSS"; "AUTH"]; threshold := 2;
            timeWindow := 10 * 60 * 1000 |}
  else if String.eqb category "INJECTION" then
    Some {| relatedCategories := ["XSS"; "AUTH"]; threshold := 2;
            timeWindow := 5 * 60 * 1000 |}
  else None.

Definition includesString (l : list string) (s : string) : bool :=
  existsb (String.eqb s) l.

Record Correlation := { isCorrelated : bool; type : list string }.

Definition sameOption (a b : option string) : bool :=
  match a, b with
  | Some x, Some y => String.eqb x y
  | None, None => true
  | _, _ => false
  end.

Definition checkCorrelation (threat1 threat2 : Threat.t) : Correlation :=
  let timeDiff := Z.abs (Threat.timestamp threat1 - Threat.timestamp threat2) in
  let sameIP :=
    JsString.truthy (Threat.sourceIP threat1) && JsString.truthy (Threat.sourceIP threat2)
    && sameOption (Threat.sourceIP threat1) (Threat.sourceIP threat2) in
  let rule := correlationRules (Threat.category threat1) in
  let window :=
    match rule with
    | Some r => if timeWindow r =? 0 then timeWindowMs else timeWindow r
    | None => timeWindowMs
    end in
  let temporal := timeDiff <=? window in
  let categorical :=
    match rule with
    | Some r => includesString (relatedCategories r) (Threat.category threat2)
    | None => false
    end in
  {| isCorrelated := temporal || sameIP || categorical;
     type := (if temporal then ["temporal"] else [])
             ++ (if sameIP then ["source"] else [])
             ++ (if categorical then ["categorical"] else []) |}.

(** [weights[level] || 0], for a level that is [JsObject.plain] (see
    [ThreatScoring.weightOf]); the empty text stands for a missing level. *)
Definition getThreatLevelWeight (level : string) : Z :=
  ThreatScoring.weightOf
    [("CRITICAL", 4); ("HIGH", 3); ("MEDIUM", 2); ("LOW", 1); ("INFO", 0)] level.

(** A threat held by a group is a reference to an element of the input array:
    the embedding keeps the position of that element next to the threat. *)
Definition Ref : Type := nat * Threat.t.

Record Group := {
  primaryThreat : Ref;
  relatedThreats : list Ref;
  correlationType : list (list string);
  riskLevel : string }.

(** The body of the inner [forEach] of [findCorrelatedEvents]; the state is
    the group under construction and the [processedThreats] set. *)
Definition scanStep (index : nat) (threat : Threat.t)
    (relatedIndex : nat) (relatedThreat : Threat.t)
    (st : Group * gset nat) : Group * gset nat :=
  let (correlatedGroup, processedThreats) := st in
  if (index =? relatedIndex)%nat || bool_decide (relatedIndex ∈ processedThreats) then st
  else
    let correlation := checkCorrelation threat relatedThreat in
    if isCorrelated correlation then
      ({| primaryThreat := primaryThreat correlatedGroup;
          relatedThreats := relatedThreats correlatedGroup ++ [(relatedIndex, relatedThreat)];
          correlationType := correlationType correlatedGroup ++ [type correlation];
          riskLevel :=
            if getThreatLevelWeight (riskLevel correlatedGroup)
               <? getThreatLevelWeight (Threat.threatLevel relatedThreat)
            then Threat.threatLevel relatedThreat
            else riskLevel correlatedGroup |},
       {[relatedIndex]} ∪ processedThreats)
    else st.

(** The body of the outer [forEach]; the state is [correlatedGroups] and
    [processedThreats]. *)
Definition groupStep (threats : list Threat.t) (index : nat) (threat : Threat.t)
    (st : list Group * gset nat) : list Group * gset nat :=
  let (correlatedGroups, processedThreats) := st in
  if bool_decide (index ∈ processedThreats) then st
  else
    let correlatedGroup :=
      {| primaryThreat := (index, threat);
         relatedThreats := [];
         correlationType := [];
         riskLevel := if String.eqb (Threat.threatLevel threat) "" then "MEDIUM"
                      else Threat.threatLevel threat |} in
    let (correlatedGroup, processedThreats) :=
      JsArray.forEach (scanStep index threat) threats (correlatedGroup, processedThreats) in
    if (0 <? length (relatedThreats correlatedGroup))%nat then
      (correlatedGroups ++ [correlatedGroup], {[index]} ∪ processedThreats)
    else (correlatedGroups, processedThreats).

Definition findCorrelatedEvents (threats : list Threat.t) : list Group :=
  fst (JsArray.forEach (groupStep threats) threats ([], ∅)).

Record AttackPattern := {
  name : string;
  threats : list Threat.t;
  ap_timestamp : Z;
  confidence : string }.

(** The entries of [knownPatterns] in [identifyAttackPatterns]. *)
Inductive KnownPattern :=
| SequencePattern (name : string) (first : string) (follow : list string) (timeWindow : Z)
| FrequencyPattern (name : string) (category : string) (minOccurrences : nat) (timeWindow : Z)
| DiversityPattern (name : string) (uniqueCategories : nat) (timeWindow : Z).

Definition knownPatterns : list KnownPattern :=
  [ SequencePattern "Reconnaissance followed by Attack" "RECONNAISSANCE"
      ["INJECTION"; "XSS"; "AUTH"] (30 * 60 * 1000);
    FrequencyPattern "Brute Force Attack" "AUTH" 5 (5 * 60 * 1000);
    DiversityPattern "Multi-Vector Attack" 3 (15 * 60 * 1000) ].

Fixpoint matchSequencePattern (name first : string) (follow : list string) (window : Z)
    (threats : list Threat.t) : option AttackPattern :=
  match threats with
  | [] => None
  | t :: nextThreats =>
      match nextThreats with
      | [] => None
      | _ :: _ =>
          if String.eqb (Threat.category t) first then
            match List.find (fun threat =>
                               includesString follow (Threat.category threat)
                               && (Threat.timestamp threat - Threat.timestamp t <=? window))
                            nextThreats with
            | Some matchingFollow =>
                Some {| name := name; threats := [t; matchingFollow];
                        ap_timestamp := Threat.timestamp t; confidence := "HIGH" |}
            | None => matchSequencePattern name first follow window nextThreats
            end
          else matchSequencePattern name first follow window nextThreats
      end
  end.

Fixpoint findTimeWindows (threats : list Threat.t) (windowSize : Z) : list (list Threat.t) :=
  match threats with
  | [] => []
  | t :: rest =>
      let windowThreats :=
        t :: JsArray.takeWhile
               (fun u => Threat.timestamp u - Threat.timestamp t <=? windowSize) rest in
      if (1 <? length windowThreats)%nat
      then windowThreats :: findTimeWindows rest windowSize
      else findTimeWindows rest windowSize
  end.

Definition windowPattern (name confidence : string) (matchedWindow : option (list Threat.t))
    : option AttackPattern :=
  match matchedWindow with
  | Some (first :: rest) =>
      Some {| name := name; threats := first :: rest;
              ap_timestamp := Threat.timestamp first; confidence := confidence |}
  | _ => None
  end.

Definition matchFrequencyPattern (name category : string) (minOccurrences : nat) (window : Z)
    (threats : list Threat.t) : option AttackPattern :=
  let categoryThreats :=
    List.filter (fun t => String.eqb (Threat.category t) category) threats in
  let windows := findTimeWindows categoryThreats window in
  windowPattern name "HIGH"
    (List.find (fun w => (minOccurrences <=? length w)%nat) windows).

Definition matchDiversityPattern (name : string) (uniqueCategories : nat) (window : Z)
    (threats : list Threat.t) : option AttackPattern :=
  let windows := findTimeWindows threats window in
  windowPattern name "MEDIUM"
    (List.find (fun w =>
                  (uniqueCategories <=? length (JsArray.distinct (map Threat.category w)))%nat)
               windows).

Definition matchPattern (threats : list Threat.t) (pattern : KnownPattern)
    : option AttackPattern :=
  match pattern with
  | SequencePattern n first follow w => matchSequencePattern n first follow w threats
  | FrequencyPattern n c k w => matchFrequencyPattern n c k w threats
  | DiversityPattern n k w => matchDiversityPattern n k w threats
  end.

Definition identifyAttackPatterns (threats : list Threat.t) : list AttackPattern :=
  let timeOrderedThreats :=
    JsArray.sort (fun a b => Threat.timestamp a - Threat.timestamp b) threats in
  omap (matchPattern timeOrderedThreats) knownPatterns.

(** [typeCounts[type] = (typeCounts[type] || 0) + 1]; the keys of the object
    keep the order in which they were first written. *)
Fixpoint countType (key : string) (typeCounts : list (string * Z)) : list (string * Z) :=
  match typeCounts with
  | [] => [(key, 1)]
  | (k, n) :: rest =>
      if String.eqb k key then (k, n + 1) :: rest else (k, n) :: countType key rest
  end.

(** Each element of [correlationType] is an array of labels; as a property
    key it is the labels joined by commas. *)
Definition getMostCommonCorrelationType (correlatedEvents : list Group) : string :=
  let typeCounts :=
    fold_left (fun counts group =>
                 fold_left (fun counts type => countType (JsString.join "," type) counts)
                           (correlationType group) counts)
              correlatedEvents [] in
  match JsArray.sort (fun a b => snd b - snd a) typeCounts with
  | (type, _) :: _ => type
  | [] => "none"
  end.

Record Summary := {
  totalCorrelatedGroups : Z;
  totalPatterns : Z;
  criticalCorrelations : Z;
  patternTypes : list string;
  mostCommonCorrelationType : string }.

Definition generateCorrelationSummary (correlatedEvents : list Group)
    (patterns : list AttackPattern) : Summary :=
  {| totalCorrelatedGroups := Z.of_nat (length correlatedEvents);
     totalPatterns := Z.of_nat (length patterns);
     criticalCorrelations :=
       Z.of_nat (length (List.filter (fun group => String.eqb (riskLevel group) "CRITICAL")
                                     correlatedEvents));
     patternTypes := map name patterns;
     mostCommonCorrelationType := getMostCommonCorrelationType correlatedEvents |}.

(** The object [correlateThreats] returns; a property the object literal does
    not write is absent ([None]). *)
Record Result := {
  correlatedEvents : list Group;
  patterns : list AttackPattern;
  summary : option Summary }.

Definition correlateThreats (threats : list Threat.t) : Result :=
  if (length threats =? 0)%nat then
    {| correlatedEvents := []; patterns := []; summary := None |}
  else
    let correlatedEvents := findCorrelatedEvents threats in
    let patterns := identifyAttackPatterns threats in
    {| correlatedEvents := correlatedEvents;
       patterns := patterns;
       summary := Some (generateCorrelationSummary correlatedEvents patterns) |}.

End CorrelationEngine.

(** ** MLPreprocessor ([mlPreprocessor.js]) *)

Module MLPreprocessor.
Import RegExp.

(** A feature object: its properties in the order they were written.  Every
    value an extractor writes is an integer. *)
Definition Features : Type := list (string * Z).

(** [f[column]]; [None] is [undefined]. *)
Definition prop (f : Features) (column : string) : option Z := JsMap.get f column.

Definition categoryEncoding : list (string * Z) :=
  [("AUTH", 1); ("INJECTION", 2); ("XSS", 3); ("RECONNAISSANCE", 4);
   ("MALWARE", 5); ("FILE_SYSTEM", 6); ("NETWORK", 7); ("DATABASE", 8)].

Definition severityEncoding : list (string * Z) :=
  [("CRITICAL", 4); ("HIGH", 3); ("MEDIUM", 2); ("LOW", 1); ("INFO", 0)].

Definition flag (b : bool) : Z := if b then 1 else 0.

Definition extractTimeFeatures (h : Host.t) (threat : Threat.t) : Features :=
  let ts := Threat.timestamp threat in
  [ ("hour", Host.getHours h ts);
    ("minute", Host.getMinutes h ts);
    ("dayOfWeek", Host.getDay h ts);
    ("isWeekend", flag ((Host.getDay h ts =? 0) || (Host.getDay h ts =? 6)));
    ("isBusinessHours", flag ((9 <=? Host.getHours h ts) && (Host.getHours h ts <=? 17)));
    ("isNightTime", flag ((22 <=? Host.getHours h ts) || (Host.getHours h ts <=? 5))) ].

Definition digitValue (radix : Z) (a : ascii) : option Z :=
  let c := Z.of_N (JsString.code a) in
  let v := if (48 <=? c) && (c <=? 57) then c - 48
           else if (97 <=? c) && (c <=? 102) then c - 87
           else if (65 <=? c) && (c <=? 70) then c - 55
           else 16 in
  if v <? radix then Some v else None.

(** The value of the longest prefix of digits; [None] when there is none. *)
Fixpoint parseDigits (radix : Z) (s : string) (acc : option Z) : option Z :=
  match s with
  | EmptyString => acc
  | String a s' =>
      match digitValue radix a with
      | Some v => parseDigits radix s' (Some (default 0 acc * radix + v))
      | None => acc
      end
  end.

(** [parseInt(s)]; [None] is [NaN]. *)
Definition parseInt (s : string) : option Z :=
  let s := JsString.trimStart s in
  let (sign, s) :=
    match s with
    | String "-" s' => (-1, s')
    | String "+" s' => (1, s')
    | _ => (1, s)
    end in
  let (radix, s) :=
    match s with
    | String "0" (String "x" s') => (16, s')
    | String "0" (String "X" s') => (16, s')
    | _ => (10, s)
    end in
  match parseDigits radix s None with
  | Some v => Some (sign * v)
  | None => None
  end.

Fixpoint allDigits (s : string) : bool :=
  match s with
  | EmptyString => true
  | String a s' => JsString.is_digit a && allDigits s'
  end.

(** [Number(s)] on the texts between the dots of an address: blank is 0, an
    optionally signed run of decimal digits is its value, and anything else
    reads as [NaN] ([None]).  The other numeric literals of the language
    (exponents, radix prefixes, [Infinity]) do not occur in an address that
    [extractIP] returns. *)
Definition toNumber (s : string) : option Z :=
  let s := JsString.trim s in
  match s with
  | EmptyString => Some 0
  | String "-" s' => if allDigits s' then option_map Z.opp (parseDigits 10 s' None) else None
  | String "+" s' => if allDigits s' then parseDigits 10 s' None else None
  | _ => if allDigits s then parseDigits 10 s None else None
  end.

Definition numEq (a : option Z) (n : Z) : bool :=
  match a with Some x => x =? n | None => false end.
Definition numGe (a : option Z) (n : Z) : bool :=
  match a with Some x => n <=? x | None => false end.
Definition numLe (a : option Z) (n : Z) : bool :=
  match a with Some x => x <=? n | None => false end.

Definition isPrivateIP (ip : string) : bool :=
  if String.eqb ip "" then false
  else
    let parts := map toNumber (JsString.split "." ip) in
    let part k := default None (parts !! k) in
    numEq (part 0%nat) 10
    || (numEq (part 0%nat) 172 && numGe (part 1%nat) 16 && numLe (part 1%nat) 31)
    || (numEq (part 0%nat) 192 && numEq (part 1%nat) 168).

Definition extractIPFeatures (threat : Threat.t) : Features :=
  match Threat.sourceIP threat with
  | None => []
  | Some ip =>
      if String.eqb ip "" then []
      else
        let ipParts := JsString.split "." ip in
        (* a missing element is [undefined], which [parseInt] reads as text *)
        let part k := nth k ipParts "undefined" in
        [ ("ipFirstOctet", default 0 (parseInt (part 0%nat)));
          ("ipSecondOctet", default 0 (parseInt (part 1%nat)));
          ("isPrivateIP", flag (isPrivateIP ip));
          ("hasSourceIP", 1) ]
  end.

Definition extractTextFeatures (threat : Threat.t) : Features :=
  let message := JsString.toLowerCase (Threat.message threat) in
  [ ("messageLength", Z.of_nat (String.length (Threat.message threat)));
    ("containsError", flag (test (ci (words ["error"; "fail"; "invalid"])) message));
    ("containsAdmin", flag (test (ci (words ["admin"; "root"; "supervisor"])) message));
    ("containsSQLKeywords",
     flag (test (ci (words ["select"; "insert"; "update"; "delete"; "union"; "drop"])) message));
    ("containsScriptTags", flag (test (ci (words ["<script"; "javascript:"])) message)) ].

Definition extractBehaviorFeatures (threat : Threat.t) : Features :=
  match Threat.behaviorAnalysis threat with
  | None => []
  | Some behavior =>
      let timing := BehaviorAnalyzer.unusualTiming behavior in
      [ ("frequencyRate", BehaviorAnalyzer.rate (BehaviorAnalyzer.frequency behavior));
        ("isHighFrequency",
         flag (BehaviorAnalyzer.isHighFrequency (BehaviorAnalyzer.frequency behavior)));
        ("hasSuspiciousTiming", flag (BehaviorAnalyzer.t_suspicious timing));
        ("hasRegularPattern",
         flag (ThreatScoring.truthy (BehaviorAnalyzer.t_regularPattern timing)));
        ("hasSuspiciousSequence",
         flag (BehaviorAnalyzer.s_suspicious (BehaviorAnalyzer.suspiciousSequence behavior)));
        ("behaviorRiskScore", BehaviorAnalyzer.riskScore behavior) ]
  end.

Definition extractContextFeatures (threat : Threat.t) : Features :=
  let context := Threat.context threat in
  let related := Z.of_nat (length (ThreatScoring.relatedEvents context)) in
  [ ("contextOccurrences", ThreatScoring.occurrences context);
    ("hasRelatedEvents", flag (0 <? related));
    ("relatedEventsCount", related) ].

(** The two encodings are [table[key] || 0], for a category and a severity
    that are [JsObject.plain] (see [ThreatScoring.weightOf]). *)
Definition extractBasicFeatures (threat : Threat.t) : Features :=
  [ ("categoryEncoded", ThreatScoring.weightOf categoryEncoding (Threat.category threat));
    ("severityEncoded", ThreatScoring.weightOf severityEncoding (Threat.severity threat));
    ("threatScore", Threat.threatScore threat) ].

(** The object spread of the six extractors; no two of them write the same
    property. *)
Definition extractFeatures (h : Host.t) (threat : Threat.t) : Features :=
  extractTimeFeatures h threat
  ++ extractIPFeatures threat
  ++ extractTextFeatures threat
  ++ extractBehaviorFeatures threat
  ++ extractContextFeatures threat
  ++ extractBasicFeatures threat.

(** Numbers of the statistics: [None] is [NaN]. *)
Definition numMin (a b : option Z) : option Z :=
  match a, b with Some x, Some y => Some (Z.min x y) | _, _ => None end.
Definition numMax (a b : option Z) : option Z :=
  match a, b with Some x, Some y => Some (Z.max x y) | _, _ => None end.
Definition numAdd (a b : option Q) : option Q :=
  match a, b with Some x, Some y => Some (x + y)%Q | _, _ => None end.
Definition ofInt (a : option Z) : option Q := option_map inject_Z a.

(** [Math.min(...values)] and [Math.max(...values)] for at least one value
    ([generateMetadata] has returned before on an empty array); an
    [undefined] among the values makes the result [NaN]. *)
Definition mathMin (values : list (option Z)) : option Z :=
  match values with
  | [] => None
  | v :: vs => fold_left numMin vs v
  end.
Definition mathMax (values : list (option Z)) : option Z :=
  match values with
  | [] => None
  | v :: vs => fold_left numMax vs v
  end.

(** [values.reduce((a, b) => a + b, 0) / values.length] *)
Definition average (values : list (option Q)) : option Q :=
  match fold_left numAdd values (Some 0%Q) with
  | Some total => Some (total / inject_Z (Z.of_nat (length values)))%Q
  | None => None
  end.

(** The average of the squared differences; [calculateStd] returns its
    square root. *)
Definition calculateStdSquared (values : list (option Z)) : option Q :=
  match average (map ofInt values) with
  | Some mean =>
      average (map (fun v => option_map (fun x => ((inject_Z x - mean) * (inject_Z x - mean))%Q) v)
                   values)
  | None => None
  end.

Record Statistics := {
  min : option Z;
  max : option Z;
  mean : option Q;
  stdSquared : option Q }.

Record Metadata := {
  totalFeatures : Z;
  numericColumns : list string;
  categoricalColumns : list string;
  binaryColumns : list string;
  statistics : list (string * Statistics) }.

Definition columnStatistics (features : list Features) (column : string) : Statistics :=
  let values := map (fun f => prop f column) features in
  {| min := mathMin values;
     max := mathMax values;
     mean := average (map ofInt values);
     stdSquared := calculateStdSquared values |}.

(** [None] is the empty object returned for an empty array.  The two
    encoding tables that the metadata repeats are [categoryEncoding] and
    [severityEncoding]. *)
Definition generateMetadata (features : list Features) : option Metadata :=
  match features with
  | [] => None
  | sampleFeature :: _ =>
      let isBinary (kv : string * Z) := (snd kv =? 0) || (snd kv =? 1) in
      let numericColumns := map fst (List.filter (fun kv => negb (isBinary kv)) sampleFeature) in
      let binaryColumns := map fst (List.filter isBinary sampleFeature) in
      Some {| totalFeatures := Z.of_nat (length features);
              numericColumns := numericColumns;
              categoricalColumns := [];
              binaryColumns := binaryColumns;
              statistics :=
                map (fun column => (column, columnStatistics features column))
                    numericColumns |}
  end.

Record Prepared := { features : list Features; metadata : option Metadata }.

(** The object that [generateMetadata] returns, as the value of a property
    of another object: the empty object [{}] (returned for an empty array),
    or the object with the lists of columns and the statistics. *)
Inductive MetadataObject :=
| EmptyObject
| MetadataOf (md : Metadata).

Definition metadataObject (m : option Metadata) : MetadataObject :=
  match m with
  | None => EmptyObject
  | Some md => MetadataOf md
  end.

Definition prepareForML (h : Host.t) (threats : list Threat.t) : Prepared :=
  let features := map (extractFeatures h) threats in
  {| features := features; metadata := generateMetadata features |}.

End MLPreprocessor.

(** ** The pipeline (the module of [analyzeLogs]) *)

Module LogAnalyzer.
Import BehaviorAnalyzer.

Definition analyzeContext (line : string) (previousLines nextLines : list string)
    : ThreatScoring.Context :=
  let similar :=
    List.filter (fun contextLine =>
                   JsString.includes contextLine (JsString.substring0 20 line))
                (previousLines ++ nextLines) in
  {| ThreatScoring.ctx_timeWindow := 5 * 60 * 1000;
     ThreatScoring.occurrences := Z.of_nat (length similar);
     ThreatScoring.relatedEvents := similar |}.

(** [\d{1,3}] *)
Definition octet : RegExp.regex :=
  RegExp.Seq (RegExp.Cls RegExp.CDigit)
    (RegExp.Opt (RegExp.Seq (RegExp.Cls RegExp.CDigit) (RegExp.Opt (RegExp.Cls RegExp.CDigit)))).

Definition ipRegExp : RegExp.t :=
  {| RegExp.source :=
       RegExp.seqs [RegExp.WordB; octet; RegExp.Lit "."; octet; RegExp.Lit "."; octet;
                    RegExp.Lit "."; octet; RegExp.WordB];
     RegExp.ignoreCase := false |}.

Definition extractIP (logLine : string) : option string := RegExp.exec ipRegExp logLine.

Definition extractAction (logLine category : string) : string :=
  if JsString.includes logLine "failed login" then "failed_login"
  else if JsString.includes logLine "successful login" then "success_login"
  else if String.eqb category "RECONNAISSANCE" then "port_scan"
  else "unknown".

(** A loop whose body acts on the process state and on a local variable. *)
Fixpoint forEachM {A St : Type} (f : nat -> A -> St -> M St) (i : nat) (l : list A) (s : St)
    : M St :=
  match l with
  | [] => ret s
  | x :: l' => s' <- f i x s ;; forEachM f (S i) l' s'
  end.

Fixpoint filterM {A : Type} (p : A -> M bool) (l : list A) : M (list A) :=
  match l with
  | [] => ret []
  | x :: l' =>
      keep <- p x ;;
      rest <- filterM p l' ;;
      ret (if keep then x :: rest else rest)
  end.

(** The body of [SUSPICIOUS_PATTERNS.forEach] for one line; the local state
    is the [threats] array. *)
Definition scanPattern (h : Host.t) (line : string) (index : nat)
    (previousLines nextLines : list string) (ip : option string)
    (pattern : Patterns.Pattern) (threats : list Threat.t) : M (list Threat.t) :=
  if RegExp.test (Patterns.pattern pattern) line then
    let action := extractAction line (Patterns.category pattern) in
    (match ip with
     | Some source =>
         if JsString.truthy ip
         then (ts <- Date_now ;; trackActivity source action ts)
         else ret tt
     | None => ret tt
     end) ;;;
    let context := analyzeContext line previousLines nextLines in
    behaviorAnalysis <-
      (match ip with
       | Some source =>
           if JsString.truthy ip
           then (analysis <- analyzePattern h source ;; ret (Some analysis))
           else ret None
       | None => ret None
       end) ;;
    scored <- Date_now ;;
    let threatScore :=
      ThreatScoring.calculateThreatScore h
        {| ThreatScoring.hit_severity := Patterns.severity pattern;
           ThreatScoring.hit_category := Patterns.category pattern;
           ThreatScoring.hit_timestamp := scored |}
        (Some context) behaviorAnalysis in
    created <- Date_now ;;
    ret (threats ++
         [ {| Threat.message := JsString.trim line;
              Threat.severity := Patterns.severity pattern;
              Threat.category := Patterns.category pattern;
              Threat.timestamp := created;
              Threat.lineNumber := Z.of_nat index + 1;
              Threat.context := context;
              Threat.sourceIP := ip;
              Threat.behaviorAnalysis := behaviorAnalysis;
              Threat.threatScore := threatScore;
              Threat.threatLevel := ThreatScoring.getThreatLevel threatScore |} ])
  else ret threats.

(** The body of [lines.forEach]. *)
Definition scanLine (h : Host.t) (lines : list string) (index : nat) (line : string)
    (threats : list Threat.t) : M (list Threat.t) :=
  let previousLines := JsString.slice (Nat.max 0 (index - 5)) index lines in
  let nextLines := JsString.slice (index + 1) (index + 6) lines in
  let ip := extractIP line in
  forEachM (fun _ pattern => scanPattern h line index previousLines nextLines ip pattern)
           0 Patterns.SUSPICIOUS_PATTERNS threats.

(** The threats found in a text, in line-then-pattern order. *)
Definition detectThreats (h : Host.t) (logData : string) : M (list Threat.t) :=
  let lines := JsString.split "010" logData in
  forEachM (scanLine h lines) 0 lines [].

(** An element of the [threats] array of the report. *)
Inductive Reported :=
| Detected (threat : Threat.t)
| Sentinel (message severity : string).

Record ReportSummary := {
  totalThreats : Z;
  highSeverity : Z;
  criticalThreats : Z;
  averageThreatScore : Z;
  categories : list string;
  suspiciousIPs : list string;
  correlationSummary : option CorrelationEngine.Summary;
  mlMetadata : MLPreprocessor.MetadataObject }.

Record Report := {
  threats : list Reported;
  correlations : CorrelationEngine.Result;
  mlFeatures : MLPreprocessor.Prepared;
  summary : ReportSummary }.

(** [Math.round(x)] *)
Definition round (x : Q) : Z := Qfloor (x + (1 # 2))%Q.

Definition analyzeLogs (h : Host.t) (logData : string) : M Report :=
  found <- detectThreats h logData ;;
  let correlationResults := CorrelationEngine.correlateThreats found in
  let mlFeatures := MLPreprocessor.prepareForML h found in
  log <- getLog ;;
  suspicious <-
    filterM (fun ip => analysis <- analyzePattern h ip ;; ret (70 <? riskScore analysis))
            (JsMap.keys log) ;;
  ret {| threats :=
           if (0 <? length found)%nat then map Detected found
           else [Sentinel "No threats detected." "INFO"];
         correlations := correlationResults;
         mlFeatures := mlFeatures;
         summary :=
           {| totalThreats := Z.of_nat (length found);
              highSeverity :=
                Z.of_nat (length (List.filter (fun t => String.eqb (Threat.severity t) "HIGH")
                                              found));
              criticalThreats :=
                Z.of_nat (length (List.filter
                                    (fun t => String.eqb (Threat.threatLevel t) "CRITICAL")
                                    found));
              averageThreatScore :=
                if (0 <? length found)%nat
                then round (inject_Z (fold_left (fun acc t => acc + Threat.threatScore t) found 0)
                            / inject_Z (Z.of_nat (length found)))
                else 0;
              categories := JsArray.distinct (map Threat.category found);
              suspiciousIPs := suspicious;
              correlationSummary := CorrelationEngine.summary correlationResults;
              mlMetadata :=
                MLPreprocessor.metadataObject (MLPreprocessor.metadata mlFeatures) |} |}.

(** A process that has tracked nothing yet, with a given clock. *)
Definition freshWorld (clock : nat -> Z) : World :=
  {| clock := clock; reads := 0; activityLog := [] |}.

End LogAnalyzer.

(** ** Recommended actions ([getRecommendedActions] of [threatScoring.js]) *)

Module Recommendations.

Record ActionSet := { immediate : bool; actions : list string }.

(** [categorySpecificActions]: per category, per threat level. *)
Definition categorySpecificActions : JsMap.t (JsMap.t (list string)) :=
  [ ("AUTH",
     [ ("CRITICAL", ["Reset all user credentials"; "Enable 2FA for all users";
                     "Lock affected accounts"]);
       ("HIGH", ["Review authentication logs";
                 "Enable additional monitoring for auth endpoints"]);
       ("MEDIUM", ["Review failed login attempts"; "Check for unusual login patterns"]);
       ("LOW", ["Monitor authentication activity"]) ]);
    ("INJECTION",
     [ ("CRITICAL", ["Block malicious IPs"; "Patch vulnerable endpoints";
                     "Review input validation"]);
       ("HIGH", ["Enable WAF rules"; "Review input sanitization"]);
       ("MEDIUM", ["Monitor SQL queries"; "Review application logs"]);
       ("LOW", ["Log suspicious requests"]) ]);
    ("XSS",
     [ ("CRITICAL", ["Implement Content Security Policy"; "Sanitize all user inputs"]);
       ("HIGH", ["Review output encoding"; "Enable XSS protection headers"]);
       ("MEDIUM", ["Monitor suspicious patterns"; "Review client-side scripts"]);
       ("LOW", ["Log suspicious requests"]) ]);
    ("RECONNAISSANCE",
     [ ("CRITICAL", ["Block scanning IPs"; "Review firewall rules"]);
       ("HIGH", ["Enable rate limiting"; "Monitor unusual traffic patterns"]);
       ("MEDIUM", ["Review access logs"; "Monitor port scanning attempts"]);
       ("LOW", ["Log suspicious activity"]) ]);
    ("MALWARE",
     [ ("CRITICAL", ["Isolate affected systems"; "Run full system scan"; "Update antivirus"]);
       ("HIGH", ["Review file integrity"; "Scan for indicators of compromise"]);
       ("MEDIUM", ["Monitor system behavior"; "Update security definitions"]);
       ("LOW", ["Log suspicious files"]) ]);
    ("FILE_SYSTEM",
     [ ("CRITICAL", ["Lock down file permissions"; "Review file access logs"]);
       ("HIGH", ["Monitor file operations"; "Check file integrity"]);
       ("MEDIUM", ["Review access patterns"; "Monitor sensitive directories"]);
       ("LOW", ["Log file access attempts"]) ]);
    ("NETWORK",
     [ ("CRITICAL", ["Block suspicious traffic"; "Review firewall rules"]);
       ("HIGH", ["Monitor network patterns"; "Review network logs"]);
       ("MEDIUM", ["Check unusual connections"; "Monitor bandwidth usage"]);
       ("LOW", ["Log network activity"]) ]);
    ("DATABASE",
     [ ("CRITICAL", ["Block database access"; "Review database permissions"]);
       ("HIGH", ["Monitor query patterns"; "Review database logs"]);
       ("MEDIUM", ["Check unusual queries"; "Monitor database load"]);
       ("LOW", ["Log database access"]) ]) ].

Definition baseLOW : ActionSet :=
  {| immediate := false; actions := ["Monitor activity"; "Log for future reference"] |}.

Definition baseActions : JsMap.t ActionSet :=
  [ ("CRITICAL",
     {| immediate := true;
        actions := ["Block source IP immediately"; "Alert security team";
                    "Initiate incident response"] |});
    ("HIGH",
     {| immediate := true;
        actions := ["Investigate immediately"; "Consider IP blocking";
                    "Monitor related systems"] |});
    ("MEDIUM",
     {| immediate := false;
        actions := ["Investigate within 4 hours"; "Increase monitoring";
                    "Review security logs"] |});
    ("LOW", baseLOW) ].

Definition getRecommendedActions (score : Z) (category : string) : ActionSet :=
  let threatLevel := ThreatScoring.getThreatLevel score in
  let baseActionSet := default baseLOW (JsMap.get baseActions threatLevel) in
  let categoryActions :=
    if String.eqb category "" then []
    else match JsMap.get categorySpecificActions category with
         | Some perLevel => default [] (JsMap.get perLevel threatLevel)
         | None => []
         end in
  {| immediate := immediate baseActionSet;
     actions := actions baseActionSet ++ categoryActions |}.

End Recommendations.

(** ** Normalisation of the features ([normalizeFeatures] of [mlPreprocessor.js]) *)

Module Normalizer.
Import MLPreprocessor.

(** A JavaScript number: [NaN], an infinity, or a finite number (an exact
    rational here).  The sign of a zero is not kept; the zero by which
    [normalizeFeatures] can divide is [max - min] of equal numbers, which is
    the positive zero. *)
Inductive num :=
| NaN
| Infinity (negative : bool)
| Fin (q : Q).

Definition isZero (q : Q) : bool := Qeq_bool q 0.
Definition isNegative (q : Q) : bool := negb (Qle_bool 0 q).

(** [a - b] *)
Definition sub (a b : num) : num :=
  match a, b with
  | NaN, _ | _, NaN => NaN
  | Infinity s, Infinity s' => if Bool.eqb s s' then NaN else Infinity s
  | Infinity s, Fin _ => Infinity s
  | Fin _, Infinity s => Infinity (negb s)
  | Fin x, Fin y => Fin (x - y)
  end.

(** [a / b].  A finite quotient is held here as the exact rational, of which
    the code stores the nearest double: what rounding to nearest keeps (the
    order of the values, the bounds that are themselves doubles, a quotient
    that is exactly 0 or 1) holds of the stored value, an equation with the
    exact quotient in general does not. *)
Definition div (a b : num) : num :=
  match a, b with
  | NaN, _ | _, NaN => NaN
  | Infinity _, Infinity _ => NaN
  | Infinity s, Fin y => Infinity (xorb s (isNegative y))
  | Fin _, Infinity _ => Fin 0
  | Fin x, Fin y =>
      if isZero y then (if isZero x then NaN else Infinity (isNegative x))
      else Fin (x / y)
  end.

(** A feature object whose values may have been normalised. *)
Definition Row : Type := JsMap.t num.

Definition ofFeatures (f : Features) : Row := map (fun kv => (fst kv, Fin (inject_Z (snd kv)))) f.

(** The number of a statistic, and of a property that may be missing:
    [NaN] for [NaN] and for [undefined]. *)
Definition ofStat (z : option Z) : num :=
  match z with Some x => Fin (inject_Z x) | None => NaN end.

Definition valueOf (row : Row) (column : string) : num :=
  default NaN (JsMap.get row column).

(** The inner loop for one column: in every object,
    [feature[column] = (feature[column] - stats.min) / (stats.max - stats.min)]. *)
Definition normalizeColumn (stats : Statistics) (column : string) (rows : list Row)
    : list Row :=
  map (fun feature =>
         JsMap.set feature column
           (div (sub (valueOf feature column) (ofStat (min stats)))
                (sub (ofStat (max stats)) (ofStat (min stats)))))
      rows.

(** [normalizeFeatures]; [None] is the [TypeError] of reading a property of
    [undefined] (the metadata of an empty array has no [numericColumns]).
    The objects of the result are the objects of the argument, changed in
    place; the embedding returns them as they are after the call, for an
    array of pairwise distinct objects (as [prepareForML] builds them: an
    object that occurs twice in the array would be changed twice). *)
Definition normalizeFeatures (features : list Features) : option (list Row) :=
  match generateMetadata features with
  | None => None
  | Some metadata =>
      fold_left (fun normalized column =>
                   match normalized, JsMap.get (statistics metadata) column with
                   | Some rows, Some stats => Some (normalizeColumn stats column rows)
                   | _, _ => None
                   end)
                (numericColumns metadata) (Some (map ofFeatures features))
  end.

End Normalizer.

(** * The specification's wording

    Definitions that follow the words of the specification, to be compared
    with the code. *)

Module Spec.
Import BehaviorAnalyzer Patterns ThreatScoring.

(** The detector as the specification words it: some two consecutive records
    are less than one second apart. *)
Fixpoint spec_rapidFrom (prev : Activity) (rest : list Activity) : bool :=
  match rest with
  | [] => false
  | cur :: rest' => (timestamp cur - timestamp prev <? 1000) || spec_rapidFrom cur rest'
  end.

Definition spec_rapidSuccession (activities : list Activity) : bool :=
  match activities with
  | [] => false
  | first :: rest => spec_rapidFrom first rest
  end.

(** An entry as the specification accepts it: a regular expression, a
    category text, and one of five severities. *)
Definition spec_validEntry (p : RawPattern) : Prop :=
  instanceofRegExp (raw_pattern p) = true
  /\ typeofString (raw_category p) = true
  /\ exists s, raw_severity p = JString s
               /\ In s ["CRITICAL"; "HIGH"; "MEDIUM"; "LOW"; "INFO"].

(** An entry with one of the four severities of the validator's list. *)
Definition validEntry (p : RawPattern) : Prop :=
  instanceofRegExp (raw_pattern p) = true
  /\ typeofString (raw_category p) = true
  /\ exists s, raw_severity p = JString s /\ In s ["HIGH"; "MEDIUM"; "LOW"; "INFO"].

(** The context term as the specification gives it. *)
Definition spec_contextScore (context : Context) : Z :=
  Z.min (occurrences context * 5) 20
  + Z.min (Z.of_nat (length (relatedEvents context)) * 3) 15.

(** The sum of a list of integers. *)
Definition sumZ (zs : list Z) : Z := fold_right Z.add 0 zs.

(** [min <= mean <= max] on the numbers of a statistics record; a comparison
    with [NaN] does not hold. *)
Definition spec_ordered (st : MLPreprocessor.Statistics) : Prop :=
  match MLPreprocessor.min st, MLPreprocessor.mean st, MLPreprocessor.max st with
  | Some lo, Some m, Some hi => (inject_Z lo <= m)%Q /\ (m <= inject_Z hi)%Q
  | _, _, _ => False
  end.

(** The records of a list that are not older than one hour at [now]. *)
Definition spec_fresh (now : Z) (activities : list Activity) : list Activity :=
  List.filter (fun activity => now - 60 * 60 * 1000 <? timestamp activity) activities.

(** The positions of the threats a group holds, the primary one first, and
    those of a list of groups. *)
Definition members (g : CorrelationEngine.Group) : list nat :=
  fst (CorrelationEngine.primaryThreat g) :: map fst (CorrelationEngine.relatedThreats g).

Definition allMembers (gs : list CorrelationEngine.Group) : list nat :=
  flat_map members gs.

(** The threats that can join the group of the threat at [index]: those at
    another position, not among the [claimed] positions, that
    [checkCorrelation] relates to it; in the order of the input. *)
Definition candidates (threats : list Threat.t) (index : nat) (threat : Threat.t)
    (claimed : list nat) : list CorrelationEngine.Ref :=
  List.filter (fun r : CorrelationEngine.Ref =>
                 negb (index =? fst r)%nat
                 && negb (existsb (Nat.eqb (fst r)) claimed)
                 && CorrelationEngine.isCorrelated
                      (CorrelationEngine.checkCorrelation threat (snd r)))
              (JsArray.indexed threats).

(** The grouping as the specification words it: related threats come later
    in the input than the primary threat of their group. *)
Definition spec_laterOnly (gs : list CorrelationEngine.Group) : Prop :=
  Forall (fun g =>
            Forall (fun r : CorrelationEngine.Ref =>
                      (fst (CorrelationEngine.primaryThreat g) < fst r)%nat)
                   (CorrelationEngine.relatedThreats g)) gs.

(** Two threats that [checkCorrelation] relates in neither direction. *)
Definition unrelated (t u : Threat.t) : Prop :=
  CorrelationEngine.isCorrelated (CorrelationEngine.checkCorrelation t u) = false
  /\ CorrelationEngine.isCorrelated (CorrelationEngine.checkCorrelation u t) = false.

(** A group as the grouping pass builds it after the groups [before]: its
    primary threat is an element of the input that none of them holds, and
    its related threats are all the candidates, of which there is one at
    least. *)
Definition wellBuilt (threats : list Threat.t) (before : list CorrelationEngine.Group)
    (g : CorrelationEngine.Group) : Prop :=
  nth_error threats (fst (CorrelationEngine.primaryThreat g))
  = Some (snd (CorrelationEngine.primaryThreat g))
  /\ ~ In (fst (CorrelationEngine.primaryThreat g)) (allMembers before)
  /\ CorrelationEngine.relatedThreats g
     = candidates threats (fst (CorrelationEngine.primaryThreat g))
         (snd (CorrelationEngine.primaryThreat g)) (allMembers before)
  /\ CorrelationEngine.relatedThreats g <> [].

Inductive Built (threats : list Threat.t) : list CorrelationEngine.Group -> Prop :=
| Built_nil : Built threats []
| Built_snoc gs g : Built threats gs -> wellBuilt threats gs g -> Built threats (gs ++ [g]).

(** The invariant of the outer loop of [findCorrelatedEvents]. *)
Definition groupingInv (threats : list Threat.t)
    (st : list CorrelationEngine.Group * gset nat) : Prop :=
  Built threats (fst st)
  /\ List.NoDup (allMembers (fst st))
  /\ forall k, k ∈ snd st <-> In k (allMembers (fst st)).

(** The test of the inner loop on one element, against the set of claimed
    positions. *)
Definition scanPred (index : nat) (threat : Threat.t) (claimed : gset nat)
    (r : CorrelationEngine.Ref) : bool :=
  negb (index =? fst r)%nat
  && negb (bool_decide (fst r ∈ claimed))
  && CorrelationEngine.isCorrelated (CorrelationEngine.checkCorrelation threat (snd r)).

(** [ts] is what the clock of [w0] returned at one of its readings from the
    state [w0] on and before the reading number [n]. *)
Definition stamped (w0 : World) (n : nat) (ts : Z) : Prop :=
  exists k, (reads w0 <= k < n)%nat /\ ts = clock w0 k.

(** Every record of the log of [w] was in the log of [w0] or carries a
    reading of the clock. *)
Definition logStamped (w0 w : World) : Prop :=
  forall ip acts r,
    JsMap.get (activityLog w) ip = Some acts -> In r acts ->
    (exists acts0, JsMap.get (activityLog w0) ip = Some acts0 /\ In r acts0)
    \/ stamped w0 (reads w) (timestamp r).

(** A state the process can be in after it started from [w0]. *)
Definition reached (w0 w : World) : Prop :=
  clock w = clock w0 /\ (reads w0 <= reads w)%nat /\ logStamped w0 w.

(** The invariant of the loops of [detectThreats]. *)
Definition detectInv (w0 : World) (found : list Threat.t) (w : World) : Prop :=
  reached w0 w /\ Forall (fun t => stamped w0 (reads w) (Threat.timestamp t)) found.

(** The postcondition [Q] holds of the result and final state of [m] run
    from [w]. *)
Definition wp {A : Type} (m : M A) (Q : A -> World -> Prop) (w : World) : Prop :=
  Q (fst (m w)) (snd (m w)).

(** The function that [scanLine] hands to the loop over the catalog, for
    the line at [index]. *)
Definition patternBody (h : Host.t) (lines : list string) (index : nat) (line : string)
    : nat -> Patterns.Pattern -> list Threat.t -> M (list Threat.t) :=
  fun _ pattern =>
    LogAnalyzer.scanPattern h line index
      (JsString.slice (Nat.max 0 (index - 5)) index lines)
      (JsString.slice (index + 1) (index + 6) lines)
      (LogAnalyzer.extractIP line) pattern.

(** The threats found so far and the state of the process when the two
    loops of the run on [lines] come to rule number [j] of the catalog for
    the line at [index]: the lines before it have been through the whole
    catalog, and the line itself through the rules before number [j]. *)
Definition comesTo (h : Host.t) (lines : list string) (index : nat) (line : string) (j : nat)
    : M (list Threat.t) :=
  bind (LogAnalyzer.forEachM (LogAnalyzer.scanLine h lines) 0 (firstn index lines) [])
       (fun found =>
          LogAnalyzer.forEachM (patternBody h lines index line) 0
            (firstn j Patterns.SUSPICIOUS_PATTERNS) found).

(** What the processing of one hit, from the state [w] to the state [w'],
    does with the clock: it reads it at least once; the timestamp of the
    threat [t] is the last of these readings; and when the line has a source
    address, the first of them is the timestamp of the record that is pushed
    on the list of the source, with the action of the hit, before the list
    is pruned at the second reading. *)
Definition hitStamped (w0 w w' : World) (ip : option string) (action : string)
    (t : Threat.t) : Prop :=
  clock w = clock w0
  /\ (reads w0 <= reads w)%nat
  /\ (reads w < reads w')%nat
  /\ Threat.timestamp t = clock w0 (reads w' - 1)
  /\ forall source,
       ip = Some source ->
       (reads w + 1 < reads w' - 1)%nat
       /\ JsMap.get (activityLog w') source
          = Some (List.filter
                    (fun r => clock w0 (S (reads w)) - 60 * 60 * 1000 <? timestamp r)
                    (default [] (JsMap.get (activityLog w) source)
                     ++ [{| action := action; timestamp := clock w0 (reads w) |}])).

(** The threat [t] was made by the processing of a hit of the run on
    [lines] that started in the state [w0]: a rule of the catalog matches a
    line, and the body of the loops, run in the state in which the loops come
    to that line and rule, appends [t] and stamps it. *)
Definition processedHit (h : Host.t) (lines : list string) (w0 : World) (t : Threat.t)
    : Prop :=
  exists index line j pattern,
    nth_error lines index = Some line
    /\ nth_error Patterns.SUSPICIOUS_PATTERNS j = Some pattern
    /\ RegExp.test (Patterns.pattern pattern) line = true
    /\ let found := fst (comesTo h lines index line j w0) in
       let w := snd (comesTo h lines index line j w0) in
       let step := patternBody h lines index line j pattern found w in
       fst step = found ++ [t]
       /\ hitStamped w0 w (snd step) (LogAnalyzer.extractIP line)
            (LogAnalyzer.extractAction line (Patterns.category pattern)) t.

(** The threat has the source address [source]. *)
Definition fromSource (source : string) (t : Threat.t) : bool :=
  match Threat.sourceIP t with
  | Some ip => String.eqb ip source
  | None => false
  end.

(** The number of threats of a report that have the source address
    [source]. *)
Definition hitsFrom (source : string) (report : LogAnalyzer.Report) : nat :=
  length (List.filter (fun r => match r with
                                | LogAnalyzer.Detected t => fromSource source t
                                | LogAnalyzer.Sentinel _ _ => false
                                end)
                      (LogAnalyzer.threats report)).

(** The list of [source] in the log of [w] after [n] hits of that source
    were processed on a clock that stands at [now], from the log of [w0]:
    untouched without a hit; with hits, the records it had that are newer
    than one hour before [now], followed by [n] records stamped [now]. *)
Definition trackedAt (now : Z) (w0 w : World) (source : string) (n : nat) : Prop :=
  match n with
  | O => JsMap.get (activityLog w) source = JsMap.get (activityLog w0) source
  | S _ =>
      exists recs,
        JsMap.get (activityLog w) source
        = Some (List.filter (fun r => now - 60 * 60 * 1000 <? timestamp r)
                            (default [] (JsMap.get (activityLog w0) source))
                ++ recs)
        /\ map timestamp recs = repeat now n
  end.

(** The state is one of a run that started in [w0]. *)
Definition sinceStart (w0 : World) (found : list Threat.t) (w : World) : Prop :=
  clock w = clock w0 /\ (reads w0 <= reads w)%nat.

(** On a clock that stands at [now]: the invariant of the loops. *)
Definition standing (now : Z) (w0 : World) (found : list Threat.t) (w : World) : Prop :=
  (forall k, clock w k = now)
  /\ forall source,
       trackedAt now w0 w source (length (List.filter (fromSource source) found)).

End Spec.

(** * Concrete inputs *)

Module Inputs.
Import BehaviorAnalyzer Patterns ThreatScoring.

(** Two failed logins of one source, half a second apart. *)
Definition closeLogins : list Activity :=
  [ {| action := "failed_login"; timestamp := 1704078000000 |};
    {| action := "failed_login"; timestamp := 1704078000500 |} ].

(** A well-formed entry of severity CRITICAL. *)
Definition criticalEntry : RawPattern :=
  {| raw_pattern := JRegExp (RegExp.ci (RegExp.Lit "ransomware"));
     raw_severity := JString "CRITICAL";
     raw_category := JString "MALWARE" |}.

(** The context of a line that one neighbouring line repeats. *)
Definition repeatedOnce : Context :=
  LogAnalyzer.analyzeContext "port scan detected" ["port scan detected"] ["idle"].

(** A line the BRUTE_FORCE rule of the catalog matches, and that rule. *)
Definition bruteForceLine : string := "multiple failed login attempts for user admin".

Definition bruteForceRule : Pattern :=
  {| pattern := RegExp.ci (RegExp.seqs [RegExp.words ["multiple"; "repeated"; "excessive"];
                                        RegExp.spaces;
                                        RegExp.words ["failed"; "invalid"]; RegExp.spaces;
                                        RegExp.words ["login"; "attempt"]]);
     severity := "HIGH"; category := "BRUTE_FORCE"; threshold := 1; timeWindow := 300000 |}.

(** A clock that stands still at 2024-01-01T03:00:00Z. *)
Definition frozen : nat -> Z := fun _ => 1704078000000.

(** Two lines that the first rule of the catalog matches; only the first has
    a source address. *)
Definition mixedLog : string :=
  "failed login from 10.0.0.5" ++ String "010" "failed login on the console".

Definition mixedThreats : list Threat.t :=
  fst (LogAnalyzer.detectThreats Host.UTC mixedLog (LogAnalyzer.freshWorld frozen)).

(** A sequence of [trackActivity] calls, each given as source, action and
    timestamp. *)
Fixpoint trackAll (calls : list (string * string * Z)) : M unit :=
  match calls with
  | [] => ret tt
  | (ip, action, ts) :: rest => trackActivity ip action ts ;;; trackAll rest
  end.

(** A source tracked at 10:00:00.000 and at 11:00:00.001, on a clock that
    reads those times at the two calls and 14:00 ever after. *)
Definition sparseClock : nat -> Z :=
  fun k => match k with
           | O => 1704103200000
           | S O => 1704106800001
           | _ => 1704117600000
           end.

Definition sparseCalls : list (string * string * Z) :=
  [ ("10.0.0.5", "failed_login", 1704103200000);
    ("10.0.0.5", "failed_login", 1704106800001) ].

Definition sparseWorld : World :=
  snd (trackAll sparseCalls (LogAnalyzer.freshWorld sparseClock)).

(** A threat of a given category, time and source, as the pipeline builds
    them. *)
Definition threatOf (category : string) (ts : Z) (ip : option string) (level : string)
    : Threat.t :=
  {| Threat.message := "event";
     Threat.severity := "HIGH";
     Threat.category := category;
     Threat.timestamp := ts;
     Threat.lineNumber := 1;
     Threat.context := {| ctx_timeWindow := 300000; occurrences := 0; relatedEvents := [] |};
     Threat.sourceIP := ip;
     Threat.behaviorAnalysis := None;
     Threat.threatScore := 95;
     Threat.threatLevel := level |}.

(** An AUTH threat and, ten minutes later, a MALWARE threat: farther apart
    than the five minutes of the AUTH rule, within the default fifteen. *)
Definition authThenMalware : list Threat.t :=
  [ threatOf "AUTH" 1704103200000 None "CRITICAL";
    threatOf "MALWARE" 1704103800000 None "CRITICAL" ].

(** Three threats of which the last is an hour away from the others. *)
Definition pairAndLoner : list Threat.t :=
  [ threatOf "MALWARE" 1704103200000 (Some "10.0.0.5") "HIGH";
    threatOf "MALWARE" 1704103260000 (Some "10.0.0.6") "CRITICAL";
    threatOf "SYSTEM_ACCESS" 1704110400000 None "HIGH" ].

(** The scenario of the specification: three failed logins of one source,
    the text of each line carrying its own date and time. *)
Definition threeLogins : string :=
  "2024-01-01T03:00:00Z failed login from 10.0.0.5" ++ String "010"
  ("2024-01-01T03:00:01Z failed login from 10.0.0.5" ++ String "010"
   "2024-01-01T03:00:02Z failed login from 10.0.0.5").

(** The same three lines with other dates and times. *)
Definition threeLoginsRedated : string :=
  "1999-12-31T23:59:57Z failed login from 10.0.0.5" ++ String "010"
  ("1999-12-31T23:59:58Z failed login from 10.0.0.5" ++ String "010"
   "1999-12-31T23:59:59Z failed login from 10.0.0.5").

(** The day on which the process reads that text: 2024-06-03T12:00:00Z. *)
Definition noon : nat -> Z := fun _ => 1717416000000.

End Inputs.

(** * Auxiliary definitions for the further properties *)

Module Derived.

(** The code unit [c] occurs in [s]. *)
Fixpoint occurs (c : ascii) (s : string) : bool :=
  match s with
  | EmptyString => false
  | String a s' => Ascii.eqb a c || occurs c s'
  end.

(** Thirty-one failed logins of one source at the same instant. *)
Definition burst : list BehaviorAnalyzer.Activity :=
  repeat {| BehaviorAnalyzer.action := "failed_login";
            BehaviorAnalyzer.timestamp := 1704078000000 |} 31.

(** A log of thirty-one lines, each a failed login from the same address. *)
Definition loginFlood : string :=
  JsString.join (String "010" "") (repeat "failed login from 10.0.0.5" 31).

(** The risk level a group starts with: the level of its primary threat,
    or MEDIUM when that is missing. *)
Definition initialRisk (t : Threat.t) : string :=
  if String.eqb (Threat.threatLevel t) "" then "MEDIUM" else Threat.threatLevel t.

(** The risk level of a group is the heaviest among the level it started
    with and the levels of its related threats, and it is one of them. *)
Definition riskIsMaximum (g : CorrelationEngine.Group) : Prop :=
  let weight := CorrelationEngine.getThreatLevelWeight in
  let init := initialRisk (snd (CorrelationEngine.primaryThreat g)) in
  weight init <= weight (CorrelationEngine.riskLevel g)
  /\ Forall (fun r : CorrelationEngine.Ref =>
               weight (Threat.threatLevel (snd r)) <= weight (CorrelationEngine.riskLevel g))
            (CorrelationEngine.relatedThreats g)
  /\ (CorrelationEngine.riskLevel g = init
      \/ exists r, In r (CorrelationEngine.relatedThreats g)
                   /\ CorrelationEngine.riskLevel g = Threat.threatLevel (snd r)).

(** Four threats within two minutes, as one run of the pipeline produces
    them. *)
Definition quickRun : list Threat.t :=
  [ Inputs.threatOf "MALWARE" 1704103200000 None "HIGH";
    Inputs.threatOf "SYSTEM_ACCESS" 1704103230000 (Some "10.0.0.5") "MEDIUM";
    Inputs.threatOf "AUTH" 1704103260000 None "CRITICAL";
    Inputs.threatOf "BRUTE_FORCE" 1704103320000 None "HIGH" ].

(** [a] comes before [b] in [l]. *)
Definition before {A : Type} (a b : A) (l : list A) : Prop :=
  exists l1 l2 l3, l = l1 ++ a :: l2 ++ b :: l3.

(** The pair that the sequence template looks for: a threat of category
    [first] and one of a category of [follow], at most [window] later. *)
Definition qualifies (first : string) (follow : list string) (window : Z)
    (a b : Threat.t) : Prop :=
  Threat.category a = first
  /\ In (Threat.category b) follow
  /\ Threat.timestamp b - Threat.timestamp a <= window.

(** A reconnaissance threat, two unrelated ones and an injection threat
    twenty minutes after the first, out of time order. *)
Definition scanThenInject : list Threat.t :=
  [ Inputs.threatOf "INJECTION" 1704104400000 None "HIGH";
    Inputs.threatOf "MALWARE" 1704103500000 None "HIGH";
    Inputs.threatOf "RECONNAISSANCE" 1704103200000 None "HIGH" ].

(** Five AUTH threats one minute apart, the latest first. *)
Definition fiveLogins : list Threat.t :=
  [ Inputs.threatOf "AUTH" 1704103440000 None "HIGH";
    Inputs.threatOf "AUTH" 1704103380000 None "HIGH";
    Inputs.threatOf "AUTH" 1704103320000 None "HIGH";
    Inputs.threatOf "AUTH" 1704103260000 None "HIGH";
    Inputs.threatOf "AUTH" 1704103200000 None "HIGH" ].

(** The least number of code units a match of [r] consumes. *)
Fixpoint minLength (r : RegExp.regex) : nat :=
  match r with
  | RegExp.Eps => 0
  | RegExp.Cls _ => 1
  | RegExp.Lit l => String.length l
  | RegExp.Seq r1 r2 => minLength r1 + minLength r2
  | RegExp.Alt r1 r2 => Nat.min (minLength r1) (minLength r2)
  | RegExp.Opt _ => 0
  | RegExp.Star _ => 0
  | RegExp.WordB => 0
  end.

(** A list of texts without repetition. *)
Fixpoint nodupb (l : list string) : bool :=
  match l with
  | [] => true
  | x :: l' => negb (existsb (String.eqb x) l') && nodupb l'
  end.

(** The decimal text of a number below 1000. *)
Definition digitChar (n : nat) : ascii := ascii_of_nat (48 + n).

Definition decimal (n : nat) : string :=
  if (n <? 10)%nat then String (digitChar n) ""
  else if (n <? 100)%nat then String (digitChar (n / 10)) (String (digitChar (n mod 10)) "")
  else String (digitChar (n / 100))
         (String (digitChar (n / 10 mod 10)) (String (digitChar (n mod 10)) "")).

(** The dotted text of an address. *)
Definition dotted (a b c d : nat) : string :=
  (decimal a ++ "." ++ decimal b ++ "." ++ decimal c ++ "." ++ decimal d)%string.

(** A threat that has only a source address to show. *)
Definition threatFrom (ip : option string) : Threat.t :=
  Inputs.threatOf "AUTH" 1704103200000 ip "HIGH".

(** The shape of the feature object of a threat: whether it has a source
    address and whether it has a behaviour analysis. *)
Definition shape (t : Threat.t) : bool * bool :=
  (JsString.truthy (Threat.sourceIP t),
   match Threat.behaviorAnalysis t with Some _ => true | None => false end).

(** The category and the severity of every threat are plain keys. *)
Definition plainKeys (threats : list Threat.t) : bool :=
  forallb (fun t => JsObject.plain (Threat.category t)
                    && JsObject.plain (Threat.severity t)) threats.

(** Every value of the feature objects, multiplied by their number, is
    below [2^53] in absolute value: the sum of a column, added up value after
    value, is an integer that a number holds exactly. *)
Definition exactSums (features : list MLPreprocessor.Features) : bool :=
  forallb (fun f =>
             forallb (fun kv : string * Z =>
                        Z.abs (snd kv) * Z.of_nat (length features) <? 2 ^ 53) f)
          features.

(** The test of the private address ranges on the first two octets. *)
Definition privateRange (a b : Z) : bool :=
  (a =? 10) || ((a =? 172) && (16 <=? b) && (b <=? 31)) || ((a =? 192) && (b =? 168)).

(** What holds of the decimal text of an octet. *)
Definition octetChecks (n : nat) : bool :=
  match MLPreprocessor.parseInt (decimal n), MLPreprocessor.toNumber (decimal n) with
  | Some x, Some y =>
      (x =? Z.of_nat n) && (y =? Z.of_nat n) && negb (occurs "." (decimal n))
  | _, _ => false
  end.

(** What the text alone decides of a threat: line number, severity,
    category, message, source address and context. *)
Definition Outline : Type :=
  Z * string * string * string * option string * ThreatScoring.Context.

Definition outline (t : Threat.t) : Outline :=
  (Threat.lineNumber t, Threat.severity t, Threat.category t, Threat.message t,
   Threat.sourceIP t, Threat.context t).

(** The outline of the hit of a rule on the line at [index]. *)
Definition hitOutline (lines : list string) (index : nat) (line : string)
    (p : Patterns.Pattern) : Outline :=
  (Z.of_nat index + 1, Patterns.severity p, Patterns.category p, JsString.trim line,
   LogAnalyzer.extractIP line,
   LogAnalyzer.analyzeContext line
     (JsString.slice (Nat.max 0 (index - 5)) index lines)
     (JsString.slice (index + 1) (index + 6) lines)).

(** The hits of a text: for each line in turn, the rules of the catalog
    that match it, in catalog order. *)
Definition expectedHits (logData : string) : list Outline :=
  let lines := JsString.split "010" logData in
  flat_map (fun il : nat * string =>
              map (hitOutline lines (fst il) (snd il))
                  (List.filter (fun p => RegExp.test (Patterns.pattern p) (snd il))
                               Patterns.SUSPICIOUS_PATTERNS))
           (JsArray.indexed lines).

(** A threat as the pipeline builds them. *)
Definition wellFormed (t : Threat.t) : Prop :=
  40 <= Threat.threatScore t <= 100
  /\ Threat.threatLevel t = ThreatScoring.getThreatLevel (Threat.threatScore t)
  /\ In (Threat.threatLevel t) ["CRITICAL"; "HIGH"; "MEDIUM"]
  /\ (exists p, In p Patterns.SUSPICIOUS_PATTERNS
                /\ Threat.severity t = Patterns.severity p
                /\ Threat.category t = Patterns.category p)
  /\ (Threat.behaviorAnalysis t = None <-> Threat.sourceIP t = None).

(** What [normalizeFeatures] makes of the value [v] of a column with the
    minimum [lo] and the maximum [hi]: [NaN] when the column is constant,
    and else a number between 0 and 1 that is 0 for the minimum and 1 for
    the maximum. *)
Definition normalised (v lo hi : Z) (result : option Normalizer.num) : Prop :=
  lo <= v <= hi
  /\ (lo = hi -> result = Some Normalizer.NaN)
  /\ (lo <> hi ->
      exists q, result = Some (Normalizer.Fin q)
                /\ (0 <= q)%Q /\ (q <= 1)%Q
                /\ (v = lo -> (q == 0)%Q)
                /\ (v = hi -> (q == 1)%Q)).

(** The integers that a number holds exactly whatever their parity. *)
Definition safeInteger (v : Z) : Prop := Z.abs v < 2 ^ 53.

(** The rows of the five threats of [fiveLogins]. *)
Definition fiveRows : list MLPreprocessor.Features :=
  map (MLPreprocessor.extractFeatures Host.UTC) fiveLogins.

(** The value of a column after the loops over the columns [cs]: normalised
    with the statistics of the column if it is one of [cs], unchanged if not. *)
Definition columnsDone (stats : JsMap.t MLPreprocessor.Statistics) (cs : list string)
    (row row' : Normalizer.Row) : Prop :=
  forall c,
    (In c cs ->
     exists st, JsMap.get stats c = Some st
                /\ JsMap.get row' c
                   = Some (Normalizer.div
                             (Normalizer.sub (Normalizer.valueOf row c)
                                             (Normalizer.ofStat (MLPreprocessor.min st)))
                             (Normalizer.sub (Normalizer.ofStat (MLPreprocessor.max st))
                                             (Normalizer.ofStat (MLPreprocessor.min st)))))
    /\ (~ In c cs -> JsMap.get row' c = JsMap.get row c).

End Derived.

(** * Tactics *)

(** Runs the steps of a monadic computation one after the other, naming
    the result and the state of each. *)
Ltac run_steps :=
  repeat (match goal with
          | |- context [let (_, _) := ?e in _] =>
              lazymatch e with
              | context [let (_, _) := _ in _] => fail
              | _ => destruct e
              end
          end; cbv beta iota).

(** * Traces

    The embedding run on small inputs, as the source would run on them. *)

Example includes_trace :
  JsString.includes "failed login from 10.0.0.5" "login" = true
  /\ JsString.includes "port scan" "login" = false.
Proof. split; reflexivity. Qed.

Example split_trace :
  JsString.split "010" ("a" ++ String "010" ("b" ++ String "010" "")) = ["a"; "b"; ""]
  /\ JsString.split "010" "" = [""].
Proof. split; reflexivity. Qed.

Example trim_trace : JsString.trim "  a b  " = "a b".
Proof. reflexivity. Qed.

Example test_trace :
  map (fun p => RegExp.test (Patterns.pattern p) "Jan 1 FAILED  Login for root")
      Patterns.SUSPICIOUS_PATTERNS
  = [true; false; false; false; false; false; false; false].
Proof. vm_compute. reflexivity. Qed.

(** The address must start and end at a word boundary, and each group has at
    most three digits. *)
Example extractIP_trace :
  LogAnalyzer.extractIP "x 1234.1.1.1 192.168.01.7a 172.16.0.256 z" = Some "172.16.0.256"
  /\ LogAnalyzer.extractIP "failed login on the console" = None.
Proof. split; vm_compute; reflexivity. Qed.

Example parseInt_trace :
  MLPreprocessor.parseInt "0x1f" = Some 31
  /\ MLPreprocessor.parseInt "  -12ab" = Some (-12)
  /\ MLPreprocessor.parseInt "undefined" = None.
Proof. repeat split; reflexivity. Qed.

(** A reconnaissance threat followed ten minutes later by an injection
    threat matches the first attack template. *)
Example sequence_template_trace :
  map (fun m => (CorrelationEngine.name m, CorrelationEngine.confidence m))
      (CorrelationEngine.identifyAttackPatterns
         [ Inputs.threatOf "RECONNAISSANCE" 1704103200000 None "HIGH";
           Inputs.threatOf "INJECTION" 1704103800000 None "HIGH" ])
  = [("Reconnaissance followed by Attack", "HIGH")].
Proof. vm_compute. reflexivity. Qed.

(** The score is clamped to the range 0 to 100 (for a severity and a
    category that are plain keys, see [ThreatScoring.weightOf]). *)
Lemma calculateThreatScore_range h threat context behaviorAnalysis :
  0 <= ThreatScoring.calculateThreatScore h threat context behaviorAnalysis <= 100.
Proof. unfold ThreatScoring.calculateThreatScore. lia. Qed.

(** * Properties *)

(** ** Rapid succession (BehaviorAnalyzer) *)

Section RapidSuccession.
Import BehaviorAnalyzer Spec Inputs.

Lemma rapidLoop_false prev rest : rapidLoop prev rest = false.
Proof.
  revert prev. induction rest as [|cur rest IH]; intros prev; simpl; [reflexivity|].
  apply IH.
Qed.

(** The time difference is computed against [new Date(activities[i - 1])],
    the record instead of its timestamp, so it is [NaN] and the loop never
    answers true. *)
Lemma checkRapidSuccession_false activities : checkRapidSuccession activities = false.
Proof.
  unfold checkRapidSuccession.
  destruct (length activities <? 2)%nat; [reflexivity|].
  destruct activities as [|first rest]; [reflexivity|]. apply rapidLoop_false.
Qed.

(** C1: two consecutive records of a source 500 ms apart are a rapid
    succession in the specification's sense, and the sequence signal that
    [checkActionSequence] computes from them reports [rapidSuccession] false. *)
Theorem C1_rapidSuccession_not_flagged :
  spec_rapidSuccession closeLogins = true
  /\ checkRapidSuccession closeLogins = false
  /\ rapidSuccession (s_details (checkActionSequence closeLogins)) = false.
Proof. repeat split; reflexivity. Qed.

End RapidSuccession.

(** ** Validation of the catalog (patterns.js) *)

Section Validation.
Import Patterns Spec Inputs.

Lemma arrayIncludes_In l v :
  arrayIncludes l v = true <-> exists s, v = JString s /\ In s l.
Proof.
  destruct v; simpl; try (split; [discriminate | intros (s0 & H & _); discriminate]).
  rewrite existsb_exists. split.
  - intros (x & Hin & Heq). apply String.eqb_eq in Heq. subst x. eauto.
  - intros (s0 & Heq & Hin). inversion Heq; subst s0.
    exists s. split; [assumption | apply String.eqb_refl].
Qed.

(** The shipped catalog passes. *)
Lemma shipped_catalog_valid : validatePatterns (map raw SUSPICIOUS_PATTERNS) = true.
Proof. reflexivity. Qed.

(** C2, as stated, fails: an entry with a regular expression, a category and
    the severity CRITICAL is well formed in the specification's sense and
    [validatePatterns] rejects it. *)
Lemma C2_critical_rejected :
  ~ (validatePatterns [criticalEntry] = true <-> Forall spec_validEntry [criticalEntry]).
Proof.
  intros [_ H].
  assert (Hv : validatePatterns [criticalEntry] = true).
  { apply H. constructor; [|constructor].
    repeat split; try reflexivity.
    exists "CRITICAL". split; [reflexivity | left; reflexivity]. }
  discriminate Hv.
Qed.

(** C2, amended: [validatePatterns] answers true exactly when every entry has
    a regular expression, a category text, and a severity among the four
    values HIGH, MEDIUM, LOW, INFO. *)
Theorem C2_validatePatterns_four_severities (patterns : list RawPattern) :
  validatePatterns patterns = true <-> Forall validEntry patterns.
Proof.
  unfold validatePatterns. rewrite forallb_forall, List.Forall_forall.
  split; intros H p Hp; specialize (H p Hp).
  - rewrite !andb_true_iff in H. destruct H as [[[Hr Hs] Hc] Hi].
    apply arrayIncludes_In in Hi. repeat split; assumption.
  - destruct H as (Hr & Hc & s0 & Hs & Hin).
    rewrite !andb_true_iff. repeat split; try assumption.
    + rewrite Hs. reflexivity.
    + apply arrayIncludes_In. eauto.
Qed.

End Validation.

(** ** The context term and the category term of the score (ThreatScoring) *)

Section Scoring.
Import ThreatScoring Spec Inputs.

(** C3, as stated, fails: a context with exactly one occurrence (and one
    related event) scores 3, the occurrence term being 0 and not 5. *)
Lemma C3_single_occurrence_scores_nothing :
  occurrences repeatedOnce = 1
  /\ calculateContextScore (Some repeatedOnce) = 3
  /\ calculateContextScore (Some repeatedOnce) <> spec_contextScore repeatedOnce.
Proof. repeat split; try reflexivity. vm_compute. discriminate. Qed.

(** C3, amended: the occurrence term is [min(o * 5, 20)] only for more than
    one occurrence and 0 otherwise; the related-event term is
    [min(r * 3, 15)]. *)
Theorem C3_contextScore (context : Context) :
  calculateContextScore (Some context)
  = (if 1 <? occurrences context then Z.min (occurrences context * 5) 20 else 0)
    + Z.min (Z.of_nat (length (relatedEvents context)) * 3) 15.
Proof.
  unfold calculateContextScore.
  destruct (1 <? occurrences context);
    destruct (Z.ltb_spec 0 (Z.of_nat (length (relatedEvents context)))); lia.
Qed.

(** Away from exactly one occurrence the code and the specification agree. *)
Lemma contextScore_agrees (context : Context) :
  0 <= occurrences context -> occurrences context <> 1 ->
  calculateContextScore (Some context) = spec_contextScore context.
Proof.
  intros H0 H1. unfold calculateContextScore, spec_contextScore.
  destruct (Z.ltb_spec 1 (occurrences context));
    destruct (Z.ltb_spec 0 (Z.of_nat (length (relatedEvents context)))); lia.
Qed.

(** Every category of the weight table weighs between 20 and 30. *)
Lemma categoryWeights_range category :
  In category (map fst categoryWeights) ->
  20 <= weightOf categoryWeights category <= 30.
Proof.
  simpl. intros H.
  repeat (destruct H as [H|H]; [subst category; vm_compute; split; discriminate|]).
  destruct H.
Qed.

(** C6, as stated, fails: the BRUTE_FORCE rule of the shipped catalog matches
    a line, and the category term of that hit is 0. *)
Lemma C6_brute_force_weighs_nothing :
  In bruteForceRule Patterns.SUSPICIOUS_PATTERNS
  /\ RegExp.test (Patterns.pattern bruteForceRule) bruteForceLine = true
  /\ weightOf categoryWeights (Patterns.category bruteForceRule) = 0
  /\ ~ (20 <= weightOf categoryWeights (Patterns.category bruteForceRule) <= 30).
Proof.
  split; [|split; [|split]].
  - simpl. right. right. left. reflexivity.
  - vm_compute. reflexivity.
  - reflexivity.
  - vm_compute. intros [H _]. apply H. reflexivity.
Qed.

(** C6, amended: for every hit of a rule of the shipped catalog the category
    term is fixed by the category: a table value between 20 and 30 for AUTH,
    RECONNAISSANCE and MALWARE, and 0 for the four categories the weight
    table does not list. *)
Theorem C6_category_weight (p : Patterns.Pattern) (line : string) :
  In p Patterns.SUSPICIOUS_PATTERNS ->
  RegExp.test (Patterns.pattern p) line = true ->
  (In (Patterns.category p) ["AUTH"; "RECONNAISSANCE"; "MALWARE"]
   /\ In (Patterns.category p) (map fst categoryWeights)
   /\ 20 <= weightOf categoryWeights (Patterns.category p) <= 30)
  \/ (In (Patterns.category p)
         ["BRUTE_FORCE"; "SUSPICIOUS_ACCOUNT"; "PRIVILEGE_ESCALATION"; "SYSTEM_ACCESS"]
      /\ weightOf categoryWeights (Patterns.category p) = 0).
Proof.
  intros Hin _. unfold Patterns.SUSPICIOUS_PATTERNS in Hin. simpl in Hin.
  repeat (destruct Hin as [Hin|Hin];
          [subst p; cbn [Patterns.category];
           first [ left; split; [simpl; tauto|]; split; [simpl; tauto|];
                   vm_compute; split; discriminate
                 | right; split; [simpl; tauto | reflexivity] ]|]).
  destruct Hin.
Qed.

Lemma C6_category_weight_witness :
  In (Patterns.category bruteForceRule)
     ["BRUTE_FORCE"; "SUSPICIOUS_ACCOUNT"; "PRIVILEGE_ESCALATION"; "SYSTEM_ACCESS"]
  /\ weightOf categoryWeights (Patterns.category bruteForceRule) = 0.
Proof.
  destruct (C6_category_weight bruteForceRule bruteForceLine) as [H|H].
  - simpl. right. right. left. reflexivity.
  - vm_compute. reflexivity.
  - exfalso. destruct H as (_ & _ & H & _). vm_compute in H. apply H. reflexivity.
  - exact H.
Defined.

End Scoring.

(** ** The shape of the correlation result (CorrelationEngine) *)

Section CorrelationResult.
Import CorrelationEngine.

(** On a list with at least one threat the result has its summary. *)
Lemma correlateThreats_summary (threats : list Threat.t) :
  threats <> [] -> exists s, summary (correlateThreats threats) = Some s.
Proof.
  intros H. destruct threats as [|t rest]; [congruence|].
  unfold correlateThreats. simpl. eauto.
Qed.

(** C7: on the empty list [correlateThreats] returns the object of its early
    return, which has the groups and the patterns and no summary. *)
Theorem C7_empty_list_has_no_summary :
  correlateThreats [] = {| correlatedEvents := []; patterns := []; summary := None |}
  /\ summary (correlateThreats []) = None.
Proof. split; reflexivity. Qed.

(** The report of the pipeline on the empty text: no threat, and no
    correlation summary. *)
Example empty_text_report :
  let report := fst (LogAnalyzer.analyzeLogs Host.UTC ""
                       (LogAnalyzer.freshWorld (fun _ => 1704078000000))) in
  LogAnalyzer.threats report = [LogAnalyzer.Sentinel "No threats detected." "INFO"]
  /\ correlatedEvents (LogAnalyzer.correlations report) = []
  /\ LogAnalyzer.totalThreats (LogAnalyzer.summary report) = 0
  /\ LogAnalyzer.correlationSummary (LogAnalyzer.summary report) = None.
Proof. vm_compute. repeat split. Qed.

End CorrelationResult.

(** ** Feature extraction (MLPreprocessor) *)

Section Features.
Import MLPreprocessor Spec Inputs.

(** One feature object per threat. *)
Lemma prepareForML_length (h : Host.t) (threats : list Threat.t) :
  length (features (prepareForML h threats)) = length threats.
Proof. unfold prepareForML. simpl. apply length_map. Qed.

Lemma fold_numAdd_some (zs : list Z) (q : Q) :
  fold_left numAdd (map ofInt (map Some zs)) (Some q)
  = Some (fold_left Qplus (map inject_Z zs) q).
Proof.
  revert q. induction zs as [|z zs IH]; intros q; simpl; [reflexivity|]. apply IH.
Qed.

Lemma fold_Qplus_sum (zs : list Z) (q : Q) :
  (fold_left Qplus (map inject_Z zs) q == q + inject_Z (sumZ zs))%Q.
Proof.
  revert q. induction zs as [|z zs IH]; intros q; simpl.
  - unfold inject_Z. ring.
  - rewrite IH, inject_Z_plus. ring.
Qed.

Lemma fold_numMin_some (zs : list Z) (z : Z) :
  fold_left numMin (map Some zs) (Some z) = Some (fold_left Z.min zs z).
Proof.
  revert z. induction zs as [|x zs IH]; intros z; simpl; [reflexivity|]. apply IH.
Qed.

Lemma fold_numMax_some (zs : list Z) (z : Z) :
  fold_left numMax (map Some zs) (Some z) = Some (fold_left Z.max zs z).
Proof.
  revert z. induction zs as [|x zs IH]; intros z; simpl; [reflexivity|]. apply IH.
Qed.

Lemma fold_min_le (zs : list Z) (z : Z) :
  fold_left Z.min zs z <= z /\ Forall (fun x => fold_left Z.min zs z <= x) zs.
Proof.
  revert z. induction zs as [|x zs IH]; intros z; simpl.
  - split; [lia | constructor].
  - destruct (IH (Z.min z x)) as [H1 H2]. split; [lia|].
    constructor; [lia | assumption].
Qed.

Lemma fold_max_ge (zs : list Z) (z : Z) :
  z <= fold_left Z.max zs z /\ Forall (fun x => x <= fold_left Z.max zs z) zs.
Proof.
  revert z. induction zs as [|x zs IH]; intros z; simpl.
  - split; [lia | constructor].
  - destruct (IH (Z.max z x)) as [H1 H2]. split; [lia|].
    constructor; [lia | assumption].
Qed.

Lemma sum_lower (m : Z) (zs : list Z) :
  Forall (fun x => m <= x) zs -> m * Z.of_nat (length zs) <= sumZ zs.
Proof.
  induction 1 as [|x zs Hx _ IH]; simpl; [lia|].
  fold (sumZ zs). lia.
Qed.

Lemma sum_upper (m : Z) (zs : list Z) :
  Forall (fun x => x <= m) zs -> sumZ zs <= m * Z.of_nat (length zs).
Proof.
  induction 1 as [|x zs Hx _ IH]; simpl; [lia|].
  fold (sumZ zs). lia.
Qed.

(** The values of a column that every row carries. *)
Lemma complete_column (rows : list Features) (column : string) :
  Forall (fun f => prop f column <> None) rows ->
  exists zs, map (fun f => prop f column) rows = map Some zs.
Proof.
  induction 1 as [|f rows Hf _ (zs & IH)].
  - exists []. reflexivity.
  - destruct (prop f column) as [z|] eqn:E; [|congruence].
    exists (z :: zs). simpl. rewrite E, IH. reflexivity.
Qed.

(** On a column that no row lacks, the statistics are ordered. *)
Lemma complete_column_ordered (rows : list Features) (column : string) :
  rows <> [] ->
  Forall (fun f => prop f column <> None) rows ->
  spec_ordered (columnStatistics rows column).
Proof.
  intros Hne Hall. destruct (complete_column rows column Hall) as (zs & Hzs).
  unfold spec_ordered, columnStatistics. cbn [min max mean]. rewrite Hzs.
  destruct zs as [|z zs].
  { destruct rows; [congruence | discriminate]. }
  cbn [mathMin mathMax map]. rewrite fold_numMin_some, fold_numMax_some.
  unfold average. change (ofInt (Some z) :: map ofInt (map Some zs))
    with (map ofInt (map Some (z :: zs))).
  rewrite fold_numAdd_some. rewrite !length_map.
  set (n := Z.of_nat (length (z :: zs))).
  assert (Hn : (0 < inject_Z n)%Q).
  { unfold n. rewrite <- (Zlt_Qlt 0). simpl length. lia. }
  destruct (fold_min_le zs z) as [Hlo1 Hlo2].
  destruct (fold_max_ge zs z) as [Hhi1 Hhi2].
  split.
  - apply Qle_shift_div_l; [exact Hn|].
    rewrite fold_Qplus_sum, <- inject_Z_mult, Qplus_0_l, <- Zle_Qle.
    apply sum_lower. constructor; assumption.
  - apply Qle_shift_div_r; [exact Hn|].
    rewrite fold_Qplus_sum, <- inject_Z_mult, Qplus_0_l, <- Zle_Qle.
    apply sum_upper. constructor; assumption.
Qed.

(** C8: a run of two threats, the first with a source address and the
    second without.  There are two feature objects; the first makes
    [ipFirstOctet] a numeric column, the second lacks it, and the minimum,
    the mean and the maximum of the column are all [NaN], so that
    [min <= mean <= max] does not hold. *)
Theorem C8_missing_column_statistics_nan :
  let prepared := prepareForML Host.UTC mixedThreats in
  length mixedThreats = 2%nat
  /\ length (features prepared) = 2%nat
  /\ exists md st,
       metadata prepared = Some md
       /\ In "ipFirstOctet" (numericColumns md)
       /\ JsMap.get (statistics md) "ipFirstOctet" = Some st
       /\ min st = None /\ mean st = None /\ max st = None
       /\ ~ spec_ordered st.
Proof.
  cbv zeta. split; [vm_compute; reflexivity|]. split; [vm_compute; reflexivity|].
  destruct (metadata (prepareForML Host.UTC mixedThreats)) as [md|] eqn:E;
    [|vm_compute in E; discriminate].
  destruct (JsMap.get (statistics md) "ipFirstOctet") as [st|] eqn:Est.
  - exists md, st. split; [reflexivity|].
    vm_compute in E. injection E as E. subst md.
    vm_compute in Est. injection Est as Est. subst st.
    split; [simpl; tauto|]. split; [reflexivity|].
    repeat split. intros H. exact H.
  - vm_compute in E. injection E as E. subst md. vm_compute in Est. discriminate.
Qed.

End Features.

(** ** Pruning of the activity log (BehaviorAnalyzer) *)

Section Pruning.
Import BehaviorAnalyzer Spec Inputs.

Lemma get_set_eq {V : Type} (m : JsMap.t V) (k : string) (v : V) :
  JsMap.get (JsMap.set m k v) k = Some v.
Proof.
  induction m as [|[k' v'] m IH]; simpl.
  - rewrite String.eqb_refl. reflexivity.
  - destruct (String.eqb k' k) eqn:E; simpl; rewrite E; [reflexivity | exact IH].
Qed.

Lemma get_set_ne {V : Type} (m : JsMap.t V) (k k' : string) (v : V) :
  k <> k' -> JsMap.get (JsMap.set m k v) k' = JsMap.get m k'.
Proof.
  intros Hne. induction m as [|[k0 v0] m IH]; simpl.
  - destruct (String.eqb_spec k k'); [contradiction | reflexivity].
  - destruct (String.eqb_spec k0 k) as [->|Hk]; simpl.
    + destruct (String.eqb_spec k k'); [contradiction | reflexivity].
    + destruct (String.eqb k0 k'); [reflexivity | exact IH].
Qed.

(** What a call of [trackActivity] leaves for its source: the records it
    found and the new one, without those an hour old or older at the clock
    reading of the call. *)
Lemma trackActivity_source (ip action : string) (ts : Z) (w : World) :
  JsMap.get (activityLog (snd (trackActivity ip action ts w))) ip
  = Some (List.filter (fun r => clock w (reads w) - 60 * 60 * 1000 <? timestamp r)
                      (default [] (JsMap.get (activityLog w) ip)
                       ++ [{| action := action; timestamp := ts |}])).
Proof.
  unfold trackActivity, cleanup, bind, getLog, setLog, Date_now, ret. simpl.
  rewrite get_set_eq. simpl. rewrite get_set_eq.
  unfold JsMap.has. destruct (JsMap.get (activityLog w) ip) eqn:E; simpl.
  - rewrite E. reflexivity.
  - rewrite get_set_eq. reflexivity.
Qed.

Lemma trackActivity_other (ip ip' action : string) (ts : Z) (w : World) :
  ip <> ip' ->
  JsMap.get (activityLog (snd (trackActivity ip action ts w))) ip'
  = JsMap.get (activityLog w) ip'.
Proof.
  intros Hne.
  unfold trackActivity, cleanup, bind, getLog, setLog, Date_now, ret. simpl.
  rewrite get_set_eq. simpl. rewrite !get_set_ne by assumption.
  unfold JsMap.has. destruct (JsMap.get (activityLog w) ip); [reflexivity|].
  apply get_set_ne. assumption.
Qed.

Lemma trackAll_other (calls : list (string * string * Z)) (ip : string) (w : World) :
  Forall (fun c => fst (fst c) <> ip) calls ->
  JsMap.get (activityLog (snd (trackAll calls w))) ip = JsMap.get (activityLog w) ip.
Proof.
  intros H. revert w. induction H as [|[[ip' action] ts] calls Hc _ IH]; intros w.
  - reflexivity.
  - simpl in Hc. simpl. unfold bind at 1.
    destruct (trackActivity ip' action ts w) as [u w1] eqn:E.
    rewrite IH. replace w1 with (snd (trackActivity ip' action ts w)) by (rewrite E; reflexivity).
    apply trackActivity_other. assumption.
Qed.

(** [analyzePattern] computes from the stored records of the source as they
    are. *)
Lemma analyzePattern_stored (h : Host.t) (ip : string) (w : World) :
  analyzePattern h ip w = analyzeActivities h (default [] (JsMap.get (activityLog w) ip)) w.
Proof. reflexivity. Qed.

(** C9, as stated, fails: after two [trackActivity] calls for a source an
    hour apart, an [analyzePattern] call three hours later finds a record
    that is older than one hour at that time, and its risk score counts it:
    the result differs from the analysis of the records not older than an
    hour. *)
Lemma C9_stale_record_analyzed :
  let now := clock sparseWorld (reads sparseWorld) in
  let stored := default [] (JsMap.get (activityLog sparseWorld) "10.0.0.5") in
  stored = [{| action := "failed_login"; timestamp := 1704106800001 |}]
  /\ now = 1704117600000
  /\ spec_fresh now stored = []
  /\ riskScore (fst (analyzePattern Host.UTC "10.0.0.5" sparseWorld)) = 1
  /\ fst (analyzePattern Host.UTC "10.0.0.5" sparseWorld)
     <> fst (analyzeActivities Host.UTC (spec_fresh now stored) sparseWorld).
Proof.
  cbv zeta. repeat split; try (vm_compute; reflexivity).
  vm_compute. discriminate.
Qed.

(** C9, amended: records are pruned by [trackActivity] only.  After a call
    for a source, whatever calls for other sources follow, the records kept
    for the source are all newer than one hour before the clock reading of
    that call, and [analyzePattern] computes from exactly these records,
    whenever it is called. *)
Theorem C9_pruned_at_last_track (ip action : string) (ts : Z)
    (later : list (string * string * Z)) (w : World) :
  Forall (fun c => fst (fst c) <> ip) later ->
  let w1 := snd (trackActivity ip action ts w) in
  let w2 := snd (trackAll later w1) in
  exists kept,
    JsMap.get (activityLog w2) ip = Some kept
    /\ Forall (fun r => clock w (reads w) - 60 * 60 * 1000 < timestamp r) kept
    /\ forall (h : Host.t) (w3 : World),
         activityLog w3 = activityLog w2 ->
         analyzePattern h ip w3 = analyzeActivities h kept w3.
Proof.
  intros Hlater w1 w2.
  assert (Hget : JsMap.get (activityLog w2) ip
                 = Some (List.filter
                           (fun r => clock w (reads w) - 60 * 60 * 1000 <? timestamp r)
                           (default [] (JsMap.get (activityLog w) ip)
                            ++ [{| action := action; timestamp := ts |}]))).
  { unfold w2. rewrite trackAll_other by assumption. apply trackActivity_source. }
  eexists. split; [exact Hget|]. split.
  - apply List.Forall_forall. intros r Hr. apply filter_In in Hr.
    destruct Hr as [_ Hr]. apply Z.ltb_lt in Hr. exact Hr.
  - intros h w3 Hw3. rewrite analyzePattern_stored, Hw3, Hget. reflexivity.
Qed.

Lemma C9_pruned_at_last_track_witness :
  let w := snd (trackActivity "10.0.0.5" "failed_login" 1704103200000
                  (LogAnalyzer.freshWorld sparseClock)) in
  let later := [("10.0.0.9", "port_scan", 1704106800002)] in
  Forall (fun c => fst (fst c) <> "10.0.0.5") later
  /\ exists kept,
       JsMap.get
         (activityLog
            (snd (trackAll later
                    (snd (trackActivity "10.0.0.5" "failed_login" 1704106800001 w)))))
         "10.0.0.5" = Some kept
       /\ Forall (fun r => clock w (reads w) - 60 * 60 * 1000 < timestamp r) kept
       /\ forall (h : Host.t) (w3 : World),
            activityLog w3
            = activityLog
                (snd (trackAll later
                        (snd (trackActivity "10.0.0.5" "failed_login" 1704106800001 w)))) ->
            analyzePattern h "10.0.0.5" w3 = analyzeActivities h kept w3.
Proof.
  cbv zeta.
  assert (H : Forall (fun c : string * string * Z => fst (fst c) <> "10.0.0.5")
                     [("10.0.0.9", "port_scan", 1704106800002)]).
  { constructor; [simpl; discriminate | constructor]. }
  split; [exact H|].
  exact (C9_pruned_at_last_track "10.0.0.5" "failed_login" 1704106800001 _ _ H).
Defined.

End Pruning.

(** ** The grouping pass (CorrelationEngine) *)

Section Grouping.
Import CorrelationEngine Spec Inputs.

Lemma In_indexedFrom {A : Type} (l : list A) (j k : nat) (x : A) :
  In (k, x) (JsArray.indexedFrom j l)
  <-> exists m, k = (j + m)%nat /\ nth_error l m = Some x.
Proof.
  revert j. induction l as [|a l IH]; intros j; simpl.
  - split; [tauto | intros (m & _ & H); destruct m; discriminate].
  - split.
    + intros [H|H].
      * inversion H; subst. exists 0%nat. split; [lia | reflexivity].
      * apply IH in H. destruct H as (m & -> & H). exists (S m). split; [lia | exact H].
    + intros (m & -> & H). destruct m as [|m]; simpl in H.
      * left. inversion H. f_equal. lia.
      * right. apply IH. exists m. split; [lia | exact H].
Qed.

Lemma map_fst_indexedFrom {A : Type} (l : list A) (j : nat) :
  map fst (JsArray.indexedFrom j l) = seq j (length l).
Proof.
  revert j. induction l as [|a l IH]; intros j; simpl; [reflexivity|].
  rewrite IH. reflexivity.
Qed.

Lemma NoDup_map_fst_filter {A B : Type} (f : A * B -> bool) (l : list (A * B)) :
  List.NoDup (map fst l) -> List.NoDup (map fst (List.filter f l)).
Proof.
  induction l as [|x l IH]; simpl; intros H; [constructor|].
  inversion H as [|? ? Hx Hl]; subst.
  destruct (f x); simpl; [|auto].
  constructor; [|auto].
  intros Hin. apply Hx. apply in_map_iff in Hin. destruct Hin as (y & Hy & Hin).
  apply filter_In in Hin. apply in_map_iff. exists y. tauto.
Qed.

(** One turn of the inner loop: an element that fails [scanPred] is passed
    over; one that passes is appended and its position claimed. *)
Lemma scanStep_skip (index : nat) (threat : Threat.t) (j : nat) (a : Threat.t)
    (g : Group) (P : gset nat) :
  scanPred index threat P (j, a) = false ->
  scanStep index threat j a (g, P) = (g, P).
Proof.
  unfold scanPred, scanStep. cbn [fst snd].
  destruct (index =? j)%nat; [reflexivity|].
  destruct (bool_decide (j ∈ P)); [reflexivity|].
  cbn [negb andb orb]. intros ->. reflexivity.
Qed.

Lemma scanStep_attach (index : nat) (threat : Threat.t) (j : nat) (a : Threat.t)
    (g : Group) (P : gset nat) :
  scanPred index threat P (j, a) = true ->
  exists g1,
    scanStep index threat j a (g, P) = (g1, {[j]} ∪ P)
    /\ primaryThreat g1 = primaryThreat g
    /\ relatedThreats g1 = relatedThreats g ++ [(j, a)].
Proof.
  unfold scanPred, scanStep. cbn [fst snd].
  destruct (index =? j)%nat; [discriminate|].
  destruct (bool_decide (j ∈ P)); [discriminate|].
  cbn [negb andb orb]. intros ->. eexists. split; [reflexivity|]. split; reflexivity.
Qed.

(** The inner loop from position [j] on: it keeps the primary threat,
    appends the elements that pass [scanPred] against the set it started
    with, and adds their positions to the set. *)
Lemma scan_spec (index : nat) (threat : Threat.t) (l : list Threat.t) :
  forall (j : nat) (g : Group) (P : gset nat),
    let res := JsArray.forEachFrom (scanStep index threat) j l (g, P) in
    let added := List.filter (scanPred index threat P) (JsArray.indexedFrom j l) in
    primaryThreat (fst res) = primaryThreat g
    /\ relatedThreats (fst res) = relatedThreats g ++ added
    /\ snd res = P ∪ list_to_set (map fst added).
Proof.
  induction l as [|a l IH]; intros j g P; cbv zeta.
  - cbn [JsArray.forEachFrom JsArray.indexedFrom List.filter map fst snd].
    rewrite app_nil_r. repeat split. set_solver.
  - cbn [JsArray.forEachFrom JsArray.indexedFrom List.filter].
    destruct (scanPred index threat P (j, a)) eqn:Ep.
    + destruct (scanStep_attach index threat j a g P Ep) as (g1 & -> & Hp1 & Hr1).
      specialize (IH (S j) g1 ({[j]} ∪ P)). cbv zeta in IH.
      destruct IH as (H1 & H2 & H3).
      assert (Hext : List.filter (scanPred index threat ({[j]} ∪ P))
                                 (JsArray.indexedFrom (S j) l)
                     = List.filter (scanPred index threat P)
                                   (JsArray.indexedFrom (S j) l)).
      { apply filter_ext_in. intros [k u] Hin. apply In_indexedFrom in Hin.
        destruct Hin as (m & -> & _). unfold scanPred. cbn [fst snd].
        f_equal. f_equal. f_equal. apply bool_decide_ext. set_solver by lia. }
      rewrite Hext in H2, H3. split; [congruence|]. split.
      * rewrite H2, Hr1, <- app_assoc. reflexivity.
      * rewrite H3. cbn [map fst]. set_solver.
    + rewrite (scanStep_skip index threat j a g P Ep). apply (IH (S j) g P).
Qed.

Lemma allMembers_snoc (gs : list Group) (g : Group) :
  allMembers (gs ++ [g]) = allMembers gs ++ members g.
Proof. unfold allMembers. rewrite flat_map_app. simpl. rewrite app_nil_r. reflexivity. Qed.

Lemma existsb_eqb_In (k : nat) (l : list nat) :
  existsb (Nat.eqb k) l = true <-> In k l.
Proof.
  rewrite existsb_exists. split.
  - intros (x & Hx & Heq). apply Nat.eqb_eq in Heq. subst. exact Hx.
  - intros H. exists k. split; [exact H | apply Nat.eqb_refl].
Qed.

(** One turn of the outer loop keeps the invariant. *)
Lemma groupStep_inv (threats : list Threat.t) (i : nat) (t : Threat.t)
    (st : list Group * gset nat) :
  nth_error threats i = Some t ->
  groupingInv threats st -> groupingInv threats (groupStep threats i t st).
Proof.
  intros Hi Hinv. destruct st as [gs P]. unfold groupStep.
  destruct (bool_decide (i ∈ P)) eqn:Ei; [exact Hinv|].
  apply bool_decide_eq_false in Ei.
  destruct Hinv as (Hb & Hnd & Hmem). cbn [fst snd] in *.
  set (g0 := {| primaryThreat := (i, t); relatedThreats := []; correlationType := [];
                riskLevel := if String.eqb (Threat.threatLevel t) "" then "MEDIUM"
                             else Threat.threatLevel t |}).
  pose proof (scan_spec i t threats 0 g0 P) as Hs. cbv zeta in Hs.
  unfold JsArray.forEach.
  destruct (JsArray.forEachFrom (scanStep i t) 0 threats (g0, P)) as [g' P'].
  cbn [fst snd] in Hs. destruct Hs as (Hprim & Hrel & HP). simpl in Hprim, Hrel.
  assert (Hcand : List.filter (scanPred i t P) (JsArray.indexedFrom 0 threats)
                  = candidates threats i t (allMembers gs)).
  { unfold candidates, JsArray.indexed. apply filter_ext. intros [k u].
    unfold scanPred. cbn [fst snd]. f_equal. f_equal. f_equal.
    destruct (existsb (Nat.eqb k) (allMembers gs)) eqn:E.
    - apply bool_decide_eq_true. apply Hmem. apply existsb_eqb_In. exact E.
    - apply bool_decide_eq_false. intros Hk. apply Hmem in Hk.
      apply existsb_eqb_In in Hk. congruence. }
  rewrite Hcand in Hrel, HP.
  unfold groupingInv.
  destruct (0 <? length (relatedThreats g'))%nat eqn:Elen.
  - cbn [fst snd]. split; [|split].
    + constructor; [exact Hb|]. unfold wellBuilt. rewrite Hprim. cbn [fst snd].
      split; [exact Hi|]. split; [intros Hin; apply Ei, Hmem, Hin|].
      split; [exact Hrel|]. intros Hnil. rewrite Hnil in Elen. discriminate.
    + rewrite allMembers_snoc. unfold members. rewrite Hprim, Hrel. cbn [fst].
      apply List.NoDup_app; [exact Hnd| |].
      * constructor.
        -- intros Hin. apply in_map_iff in Hin. destruct Hin as ([k u] & Hk & Hin).
           simpl in Hk. subst k. unfold candidates in Hin. apply filter_In in Hin.
           destruct Hin as [_ Hin]. cbn [fst snd] in Hin.
           rewrite Nat.eqb_refl in Hin. discriminate.
        -- apply NoDup_map_fst_filter. unfold JsArray.indexed.
           rewrite map_fst_indexedFrom. apply List.seq_NoDup.
      * intros k Hk [Hin|Hin].
        -- subst k. apply Ei, Hmem, Hk.
        -- apply in_map_iff in Hin. destruct Hin as ([k' u] & Hk' & Hin).
           simpl in Hk'. subst k'. unfold candidates in Hin. apply filter_In in Hin.
           destruct Hin as [_ Hin]. cbn [fst snd] in Hin.
           apply existsb_eqb_In in Hk. rewrite Hk in Hin.
           rewrite andb_false_r in Hin. discriminate.
    + intros k. rewrite allMembers_snoc. unfold members. rewrite Hprim, Hrel. cbn [fst].
      rewrite in_app_iff. simpl. rewrite HP.
      rewrite elem_of_union, elem_of_singleton, elem_of_union, elem_of_list_to_set.
      rewrite list_elem_of_In, Hmem. intuition.
  - cbn [fst snd]. split; [exact Hb|]. split; [exact Hnd|].
    assert (Hnil : candidates threats i t (allMembers gs) = []).
    { rewrite <- Hrel. destruct (relatedThreats g'); [reflexivity | discriminate]. }
    intros k. rewrite HP, Hnil. simpl. rewrite <- Hmem. set_solver.
Qed.

(** An invariant of a [forEach] loop, given that each turn keeps it. *)
Lemma forEachFrom_inv {A St : Type} (f : nat -> A -> St -> St) (I : St -> Prop)
    (whole : list A) :
  (forall i x s, nth_error whole i = Some x -> I s -> I (f i x s)) ->
  forall (l : list A) (j : nat) (s : St),
    (forall k x, nth_error l k = Some x -> nth_error whole (j + k) = Some x) ->
    I s -> I (JsArray.forEachFrom f j l s).
Proof.
  intros Hstep. induction l as [|a l IH]; intros j s Hl Hs; simpl; [exact Hs|].
  apply IH.
  - intros k x Hk. replace (S j + k)%nat with (j + S k)%nat by lia. apply Hl. exact Hk.
  - apply Hstep; [|exact Hs]. replace j with (j + 0)%nat at 1 by lia. apply Hl. reflexivity.
Qed.

Lemma findCorrelatedEvents_inv (threats : list Threat.t) :
  groupingInv threats (JsArray.forEach (groupStep threats) threats ([], ∅)).
Proof.
  unfold JsArray.forEach. apply (forEachFrom_inv _ (groupingInv threats) threats).
  - intros i x s. apply groupStep_inv.
  - intros k x H. exact H.
  - split; [constructor|]. split; [constructor|]. intros k. simpl. set_solver.
Qed.

(** Every group of a built list is well built after the groups before it. *)
Lemma Built_split (threats : list Threat.t) (gs : list Group) :
  Built threats gs ->
  forall gs1 g gs2, gs = gs1 ++ g :: gs2 -> wellBuilt threats gs1 g.
Proof.
  induction 1 as [|gs g0 Hb IH Hw]; intros gs1 g gs2 Heq.
  - destruct gs1; discriminate.
  - destruct (exists_last (l := g :: gs2)) as (gs2' & last & Hlast); [discriminate|].
    rewrite Hlast, app_assoc in Heq. apply app_inj_tail in Heq. destruct Heq as [Hgs Hg].
    subst last. destruct gs2' as [|x gs2']; simpl in Hlast; inversion Hlast; subst.
    + rewrite app_nil_r in Hw. exact Hw.
    + eapply IH. reflexivity.
Qed.

(** C5, as stated, fails: for an AUTH threat followed ten minutes later by a
    MALWARE threat, the first is claimed by no group of its own and is then
    attached to the group of the second, which comes after it. *)
Lemma C5_earlier_threat_attached :
  map members (findCorrelatedEvents authThenMalware) = [[1%nat; 0%nat]]
  /\ ~ spec_laterOnly (findCorrelatedEvents authThenMalware).
Proof.
  split; [vm_compute; reflexivity|].
  intros H. unfold spec_laterOnly in H.
  assert (E : exists g, findCorrelatedEvents authThenMalware = [g]
                        /\ fst (primaryThreat g) = 1%nat
                        /\ map fst (relatedThreats g) = [0%nat]).
  { vm_compute. eexists. split; [reflexivity|]. split; reflexivity. }
  destruct E as (g & Eg & Ep & Er). rewrite Eg in H.
  inversion H as [|? ? Hg _]; subst.
  destruct (relatedThreats g) as [|[k u] rest]; [discriminate|].
  inversion Hg as [|? ? Hk _]; subst. simpl in Er, Hk. inversion Er; subst. lia.
Qed.

(** C5, amended: the related threats of a group are drawn from every
    position of the input other than that of its primary threat, before it
    or after it: they are exactly the threats, in input order, that no earlier
    group holds and that [checkCorrelation] relates to the primary threat. *)
Theorem C5_related_from_all_unclaimed (threats : list Threat.t)
    (gs1 : list Group) (g : Group) (gs2 : list Group) :
  findCorrelatedEvents threats = gs1 ++ g :: gs2 ->
  nth_error threats (fst (primaryThreat g)) = Some (snd (primaryThreat g))
  /\ relatedThreats g
     = candidates threats (fst (primaryThreat g)) (snd (primaryThreat g)) (allMembers gs1).
Proof.
  intros Heq. destruct (findCorrelatedEvents_inv threats) as (Hb & _ & _).
  destruct (Built_split threats _ Hb gs1 g gs2 Heq) as (H1 & _ & H2 & _).
  split; assumption.
Qed.

Lemma C5_related_from_all_unclaimed_witness :
  exists g,
    findCorrelatedEvents authThenMalware = [] ++ g :: []
    /\ nth_error authThenMalware (fst (primaryThreat g)) = Some (snd (primaryThreat g))
    /\ relatedThreats g
       = candidates authThenMalware (fst (primaryThreat g)) (snd (primaryThreat g))
           (allMembers []).
Proof.
  assert (E : exists g, findCorrelatedEvents authThenMalware = [] ++ g :: []).
  { vm_compute. eexists. reflexivity. }
  destruct E as (g & Eg). exists g. split; [exact Eg|].
  exact (C5_related_from_all_unclaimed authThenMalware [] g [] Eg).
Defined.

(** C10: no position of the input occurs twice among the primary and related
    threats of the groups, and a threat that [checkCorrelation] relates to no
    other threat of the input, in either direction, is in no group. *)
Theorem C10_each_threat_in_at_most_one_group (threats : list Threat.t) :
  List.NoDup (allMembers (findCorrelatedEvents threats))
  /\ forall (i : nat) (t : Threat.t),
       nth_error threats i = Some t ->
       (forall (j : nat) (u : Threat.t),
          j <> i -> nth_error threats j = Some u -> unrelated t u) ->
       ~ In i (allMembers (findCorrelatedEvents threats)).
Proof.
  destruct (findCorrelatedEvents_inv threats) as (Hb & Hnd & _).
  fold (findCorrelatedEvents threats) in Hb, Hnd.
  split; [exact Hnd|].
  intros i t Hi Hun Hin. unfold allMembers in Hin. apply in_flat_map in Hin.
  destruct Hin as (g & Hg & Hin). apply in_split in Hg. destruct Hg as (gs1 & gs2 & Hg).
  destruct (Built_split threats _ Hb gs1 g gs2 Hg) as (Hp & _ & Hrel & Hne).
  destruct Hin as [Hin|Hin].
  - (* the primary threat of [g]: one of its related threats contradicts *)
    destruct (relatedThreats g) as [|[k u] rest] eqn:Er; [congruence|].
    assert (Hk : In (k, u) (candidates threats (fst (primaryThreat g))
                              (snd (primaryThreat g)) (allMembers gs1))).
    { rewrite <- Hrel. left. reflexivity. }
    unfold candidates in Hk. apply filter_In in Hk. destruct Hk as [Hk Hc].
    cbn [fst snd] in Hc. rewrite !andb_true_iff in Hc. destruct Hc as [[Hc1 _] Hc3].
    apply In_indexedFrom in Hk. destruct Hk as (m & -> & Hm). simpl in Hm.
    rewrite Hin in Hp, Hc1. rewrite Hi in Hp. inversion Hp as [Ht].
    rewrite <- Ht in Hc3.
    destruct (Hun m u) as [Hu _]; [|exact Hm|congruence].
    simpl in Hc1. apply negb_true_iff, Nat.eqb_neq in Hc1. lia.
  - (* a related threat of [g]: the primary threat contradicts *)
    apply in_map_iff in Hin. destruct Hin as ([k u] & Hk & Hin). simpl in Hk. subst k.
    rewrite Hrel in Hin. unfold candidates in Hin. apply filter_In in Hin.
    destruct Hin as [Hin Hc]. cbn [fst snd] in Hc.
    rewrite !andb_true_iff in Hc. destruct Hc as [[Hc1 _] Hc3].
    apply In_indexedFrom in Hin. destruct Hin as (m & -> & Hm). simpl in Hm, Hi.
    rewrite Hi in Hm. inversion Hm; subst u.
    destruct (Hun (fst (primaryThreat g)) (snd (primaryThreat g))) as [_ Hu];
      [|exact Hp|congruence].
    apply negb_true_iff, Nat.eqb_neq in Hc1. simpl in Hc1. lia.
Qed.

Lemma C10_each_threat_in_at_most_one_group_witness :
  map members (findCorrelatedEvents pairAndLoner) = [[0%nat; 1%nat]]
  /\ List.NoDup (allMembers (findCorrelatedEvents pairAndLoner))
  /\ ~ In 2%nat (allMembers (findCorrelatedEvents pairAndLoner)).
Proof.
  split; [vm_compute; reflexivity|].
  destruct (C10_each_threat_in_at_most_one_group pairAndLoner) as [Hnd Hzero].
  split; [exact Hnd|].
  apply (Hzero 2%nat (threatOf "SYSTEM_ACCESS" 1704110400000 None "HIGH")).
  - reflexivity.
  - intros j u Hj Hu.
    destruct j as [|[|[|j]]]; simpl in Hu.
    + inversion Hu; subst u. split; vm_compute; reflexivity.
    + inversion Hu; subst u. split; vm_compute; reflexivity.
    + congruence.
    + destruct j; discriminate.
Defined.

End Grouping.

(** ** Timestamps of the pipeline ([analyzeLogs]) *)

Section Timestamps.
Import BehaviorAnalyzer LogAnalyzer Spec Inputs.

Lemma wp_ret {A : Type} (x : A) (Q : A -> World -> Prop) (w : World) :
  Q x w -> wp (ret x) Q w.
Proof. intros H. exact H. Qed.

Lemma wp_bind {A B : Type} (m : M A) (f : A -> M B) (Q : B -> World -> Prop) (w : World) :
  wp m (fun x w' => wp (f x) Q w') w -> wp (bind m f) Q w.
Proof. unfold wp, bind. destruct (m w) as [x w']. simpl. intros H. exact H. Qed.

Lemma wp_mono {A : Type} (m : M A) (Q R : A -> World -> Prop) (w : World) :
  (forall x w', Q x w' -> R x w') -> wp m Q w -> wp m R w.
Proof. unfold wp. intros H. apply H. Qed.

Lemma stamped_mono (w0 : World) (n n' : nat) (ts : Z) :
  (n <= n')%nat -> stamped w0 n ts -> stamped w0 n' ts.
Proof. intros Hn (k & Hk & E). exists k. split; [lia | exact E]. Qed.

Lemma reached_refl (w0 : World) : reached w0 w0.
Proof.
  split; [reflexivity|]. split; [lia|].
  intros ip acts r Hget Hin. left. eauto.
Qed.

(** A reading of the clock. *)
Lemma wp_Date_now (w0 w : World) (Q : Z -> World -> Prop) :
  reached w0 w ->
  (forall ts w', reached w0 w' -> reads w' = S (reads w) ->
                 ts = clock w0 (reads w) -> Q ts w') ->
  wp Date_now Q w.
Proof.
  intros (Hc & Hr & Hl) HQ. unfold wp, Date_now. simpl. apply HQ.
  - split; [exact Hc|]. split; [simpl; lia|].
    intros ip acts r Hget Hin. simpl in Hget.
    destruct (Hl ip acts r Hget Hin) as [H|H]; [left; exact H|].
    right. eapply stamped_mono; [|exact H]. simpl. lia.
  - reflexivity.
  - rewrite Hc. reflexivity.
Qed.

Lemma trackActivity_clock (ip action : string) (ts : Z) (w : World) :
  clock (snd (trackActivity ip action ts w)) = clock w
  /\ reads (snd (trackActivity ip action ts w)) = S (reads w).
Proof.
  unfold trackActivity, cleanup, bind, getLog, setLog, Date_now, ret. simpl.
  rewrite get_set_eq. simpl. split; reflexivity.
Qed.

(** Tracking a record that carries a reading of the clock. *)
Lemma wp_trackActivity (w0 w : World) (ip action : string) (ts : Z)
    (Q : unit -> World -> Prop) :
  reached w0 w -> stamped w0 (reads w) ts ->
  (forall w', reached w0 w' -> (reads w <= reads w')%nat -> Q tt w') ->
  wp (trackActivity ip action ts) Q w.
Proof.
  intros (Hc & Hr & Hl) Hts HQ. unfold wp.
  destruct (trackActivity_clock ip action ts w) as [Hc' Hr'].
  destruct (fst (trackActivity ip action ts w)). apply HQ; [|lia].
  split; [congruence|]. split; [lia|].
  intros ip' acts r Hget Hin. rewrite Hr'.
  destruct (String.eqb_spec ip ip') as [<-|Hne].
  - rewrite trackActivity_source in Hget. inversion Hget; subst acts.
    apply filter_In in Hin. destruct Hin as [Hin _]. apply in_app_iff in Hin.
    destruct Hin as [Hin|[<-|[]]].
    + destruct (JsMap.get (activityLog w) ip) as [old|] eqn:E; [|destruct Hin].
      destruct (Hl ip old r E Hin) as [H|H]; [left; exact H|].
      right. eapply stamped_mono; [|exact H]. lia.
    + right. simpl. eapply stamped_mono; [|exact Hts]. lia.
  - rewrite trackActivity_other in Hget by assumption.
    destruct (Hl ip' acts r Hget Hin) as [H|H]; [left; exact H|].
    right. eapply stamped_mono; [|exact H]. lia.
Qed.

Lemma calculateFrequency_frame (activities : list Activity) (w : World) :
  clock (snd (calculateFrequency activities w)) = clock w
  /\ activityLog (snd (calculateFrequency activities w)) = activityLog w
  /\ (reads w <= reads (snd (calculateFrequency activities w)))%nat.
Proof.
  unfold calculateFrequency. destruct (length activities =? 0)%nat; simpl.
  - repeat split; lia.
  - repeat split; lia.
Qed.

(** An analysis reads the clock and leaves the log as it is. *)
Lemma analyzeActivities_frame (h : Host.t) (activities : list Activity) (w : World) :
  clock (snd (analyzeActivities h activities w)) = clock w
  /\ activityLog (snd (analyzeActivities h activities w)) = activityLog w
  /\ (reads w <= reads (snd (analyzeActivities h activities w)))%nat.
Proof.
  unfold analyzeActivities, calculateRiskScore, bind, ret.
  destruct (calculateFrequency_frame activities w) as (H1 & H2 & H3).
  destruct (calculateFrequency activities w) as [f1 w1]. simpl in *.
  destruct (calculateFrequency_frame activities w1) as (H4 & H5 & H6).
  destruct (calculateFrequency activities w1) as [f2 w2]. simpl in *.
  repeat split; [congruence | congruence | lia].
Qed.

Lemma wp_analyzePattern (w0 w : World) (h : Host.t) (ip : string)
    (Q : BehaviorAnalysis -> World -> Prop) :
  reached w0 w ->
  (forall b w', reached w0 w' -> (reads w <= reads w')%nat -> Q b w') ->
  wp (analyzePattern h ip) Q w.
Proof.
  intros (Hc & Hr & Hl) HQ. unfold wp. rewrite analyzePattern_stored.
  destruct (analyzeActivities_frame h (default [] (JsMap.get (activityLog w) ip)) w)
    as (H1 & H2 & H3).
  apply HQ; [|exact H3].
  split; [congruence|]. split; [lia|].
  intros ip' acts r Hget Hin. rewrite H2 in Hget.
  destruct (Hl ip' acts r Hget Hin) as [H|H]; [left; exact H|].
  right. eapply stamped_mono; [|exact H]. exact H3.
Qed.

Lemma detectInv_mono (w0 : World) (found : list Threat.t) (w w' : World) :
  detectInv w0 found w -> reached w0 w' -> (reads w <= reads w')%nat ->
  detectInv w0 found w'.
Proof.
  intros [_ Hf] Hr Hle. split; [exact Hr|].
  eapply List.Forall_impl; [|exact Hf]. intros t Ht. eapply stamped_mono; eassumption.
Qed.

(** A loop keeps what each of its turns keeps. *)
Lemma wp_forEachM {A St : Type} (f : nat -> A -> St -> M St) (I : St -> World -> Prop) :
  (forall i x s w, I s w -> wp (f i x s) I w) ->
  forall (l : list A) (i : nat) (s : St) (w : World),
    I s w -> wp (forEachM f i l s) I w.
Proof.
  intros Hf. induction l as [|x l IH]; intros i s w Hs; simpl.
  - apply wp_ret. exact Hs.
  - apply wp_bind. eapply wp_mono; [|apply Hf; exact Hs].
    intros s' w' Hs'. apply IH. exact Hs'.
Qed.

Lemma wp_filterM {A : Type} (p : A -> M bool) (I : World -> Prop) :
  (forall x w, I w -> wp (p x) (fun _ w' => I w') w) ->
  forall (l : list A) (w : World), I w -> wp (filterM p l) (fun _ w' => I w') w.
Proof.
  intros Hp. induction l as [|x l IH]; intros w Hw; simpl.
  - apply wp_ret. exact Hw.
  - apply wp_bind. eapply wp_mono; [|apply Hp; exact Hw].
    intros keep w1 H1. apply wp_bind. eapply wp_mono; [|apply IH; exact H1].
    intros rest w2 H2. apply wp_ret. exact H2.
Qed.

(** A hit appends one threat, stamped with a reading of the clock. *)
Lemma wp_scanPattern (w0 : World) (h : Host.t) (line : string) (index : nat)
    (previousLines nextLines : list string) (ip : option string)
    (pattern : Patterns.Pattern) (found : list Threat.t) (w : World) :
  detectInv w0 found w ->
  wp (scanPattern h line index previousLines nextLines ip pattern found) (detectInv w0) w.
Proof.
  intros Hinv. unfold scanPattern.
  destruct (RegExp.test (Patterns.pattern pattern) line); [|apply wp_ret; exact Hinv].
  apply wp_bind.
  apply (wp_mono _ (fun _ w1 => detectInv w0 found w1)).
  - intros _ w1 H1. apply wp_bind.
    apply (wp_mono _ (fun _ w2 => detectInv w0 found w2)).
    + intros behaviorAnalysis w2 H2. apply wp_bind.
      apply (wp_Date_now w0); [apply H2|]. intros scored w3 H3 Hr3 _.
      apply wp_bind. apply (wp_Date_now w0); [exact H3|]. intros created w4 H4 Hr4 Hc.
      apply wp_ret. split; [exact H4|]. apply Forall_app. split.
      * destruct H2 as [_ Hf]. eapply List.Forall_impl; [|exact Hf].
        intros t Ht. eapply stamped_mono; [|exact Ht]. lia.
      * constructor; [|constructor]. cbn [Threat.timestamp].
        exists (reads w3). split; [|exact Hc].
        destruct H3 as (_ & Hle & _). lia.
    + destruct ip as [source|]; [|apply wp_ret; exact H1].
      destruct (JsString.truthy (Some source)); [|apply wp_ret; exact H1].
      apply wp_bind. apply (wp_analyzePattern w0); [apply H1|].
      intros b w2 H2 Hle. apply wp_ret. eapply detectInv_mono; eassumption.
  - destruct ip as [source|]; [|apply wp_ret; exact Hinv].
    destruct (JsString.truthy (Some source)); [|apply wp_ret; exact Hinv].
    apply wp_bind. apply (wp_Date_now w0); [apply Hinv|]. intros ts w1 H1 Hr1 Hts.
    apply (wp_trackActivity w0); [exact H1| |].
    + exists (reads w). split; [|exact Hts]. destruct Hinv as ((_ & Hle & _) & _). lia.
    + intros w2 H2 Hle. eapply detectInv_mono; [exact Hinv | exact H2 | lia].
Qed.

Lemma wp_detectThreats (w0 : World) (h : Host.t) (logData : string) :
  wp (detectThreats h logData) (detectInv w0) w0.
Proof.
  unfold detectThreats. apply wp_forEachM.
  - intros i line found w Hinv. unfold scanLine. apply wp_forEachM; [|exact Hinv].
    intros _ pattern found' w' Hinv'. apply wp_scanPattern. exact Hinv'.
  - split; [apply reached_refl | constructor].
Qed.

Lemma wp_analyzeLogs (w0 : World) (h : Host.t) (logData : string) :
  wp (analyzeLogs h logData)
     (fun report w' =>
        reached w0 w'
        /\ forall t, In (Detected t) (threats report) ->
                     stamped w0 (reads w') (Threat.timestamp t))
     w0.
Proof.
  unfold analyzeLogs. apply wp_bind.
  eapply wp_mono; [|apply wp_detectThreats].
  intros found w1 H1. apply wp_bind. unfold getLog at 1. unfold wp at 1. cbn [fst snd].
  apply wp_bind.
  apply (wp_mono _ (fun _ w2 => detectInv w0 found w2)).
  - intros suspicious w2 [Hr Hf]. apply wp_ret. cbn [threats]. split; [exact Hr|].
    intros t Hin. rewrite List.Forall_forall in Hf. apply Hf.
    destruct (0 <? length found)%nat.
    + apply in_map_iff in Hin. destruct Hin as (t' & E & Hin). inversion E; subst. exact Hin.
    + destruct Hin as [Hin|[]]. discriminate.
  - apply (wp_filterM _ (detectInv w0 found)); [|exact H1].
    intros ip w Hw. apply wp_bind. apply (wp_analyzePattern w0); [apply Hw|].
    intros b w' Hr Hle. apply wp_ret. eapply detectInv_mono; eassumption.
Qed.

(** Two inputs read on a clock that stands still: all their threats carry
    the same timestamp, whatever dates their lines spell. *)
Lemma same_now_same_timestamps (h : Host.t) (text1 text2 : string) (w1 w2 : World)
    (now : Z) (t1 t2 : Threat.t) :
  (forall k, clock w1 k = now) -> (forall k, clock w2 k = now) ->
  In (Detected t1) (threats (fst (analyzeLogs h text1 w1))) ->
  In (Detected t2) (threats (fst (analyzeLogs h text2 w2))) ->
  Threat.timestamp t1 = Threat.timestamp t2.
Proof.
  intros H1 H2 Hin1 Hin2.
  pose proof (wp_analyzeLogs w1 h text1) as [_ Hts1].
  pose proof (wp_analyzeLogs w2 h text2) as [_ Hts2].
  destruct (Hts1 t1 Hin1) as (k1 & _ & E1). destruct (Hts2 t2 Hin2) as (k2 & _ & E2).
  rewrite E1, E2, H1, H2. reflexivity.
Qed.

(** The scenario of the specification, read at noon of 3 June 2024 and again
    with other dates in its lines: the same three timestamps. *)
Example redated_same_timestamps :
  let stamps text :=
    map (fun r => match r with Detected t => Threat.timestamp t | Sentinel _ _ => 0 end)
        (threats (fst (analyzeLogs Host.UTC text (freshWorld noon)))) in
  stamps threeLogins = [1717416000000; 1717416000000; 1717416000000]
  /\ stamps threeLoginsRedated = stamps threeLogins.
Proof. vm_compute. split; reflexivity. Qed.

(** In that scenario the third threat has the source 10.0.0.5 and the
    category AUTH, and its behaviour analysis, made of three records with
    equal timestamps, reports no rapid succession. *)
Example scenario_third_login :
  match threats (fst (analyzeLogs Host.UTC threeLogins (freshWorld noon))) with
  | [_; _; Detected t] =>
      Threat.category t = "AUTH"
      /\ Threat.sourceIP t = Some "10.0.0.5"
      /\ option_map (fun b => rapidSuccession (s_details (suspiciousSequence b)))
                    (Threat.behaviorAnalysis t) = Some false
  | _ => False
  end.
Proof. vm_compute. repeat split. Qed.

End Timestamps.

(** * Further properties of the code *)

(** ** Levels and recommended actions (ThreatScoring) *)

Section Levels.
Import ThreatScoring Recommendations.

(** X1: a higher score never gets a lower level, levels being ordered by
    the weights CRITICAL > HIGH > MEDIUM > LOW > INFO of the correlation
    engine. *)
Theorem getThreatLevel_monotone (s1 s2 : Z) :
  s1 <= s2 ->
  CorrelationEngine.getThreatLevelWeight (getThreatLevel s1)
  <= CorrelationEngine.getThreatLevelWeight (getThreatLevel s2).
Proof.
  intros H. unfold getThreatLevel.
  destruct (Z.leb_spec 80 s1), (Z.leb_spec 60 s1), (Z.leb_spec 40 s1), (Z.leb_spec 20 s1),
    (Z.leb_spec 80 s2), (Z.leb_spec 60 s2), (Z.leb_spec 40 s2), (Z.leb_spec 20 s2);
    try lia; vm_compute; discriminate.
Qed.

Lemma getThreatLevel_monotone_witness :
  CorrelationEngine.getThreatLevelWeight (getThreatLevel 59)
  <= CorrelationEngine.getThreatLevelWeight (getThreatLevel 60).
Proof. apply getThreatLevel_monotone. lia. Defined.

Lemma calculateContextScore_nonneg context : 0 <= calculateContextScore context.
Proof.
  destruct context as [c|]; simpl; [|lia].
  destruct (Z.ltb_spec 1 (occurrences c));
    destruct (Z.ltb_spec 0 (Z.of_nat (length (relatedEvents c)))); lia.
Qed.

Lemma calculateBehaviorScore_nonneg b : 0 <= calculateBehaviorScore b.
Proof.
  destruct b as [b|]; simpl; [|lia].
  repeat match goal with |- context [if ?c then _ else _] => destruct c end; lia.
Qed.

Lemma calculateTimeBasedScore_nonneg h ts : 0 <= calculateTimeBasedScore h ts.
Proof.
  unfold calculateTimeBasedScore.
  destruct ((22 <=? Host.getHours h ts) || (Host.getHours h ts <=? 5)),
    ((Host.getDay h ts =? 0) || (Host.getDay h ts =? 6)); lia.
Qed.

Lemma catalog_hit_score (h : Host.t) (p : Patterns.Pattern) (ts : Z)
    (context : option Context)
    (behaviorAnalysis : option BehaviorAnalyzer.BehaviorAnalysis) :
  In p Patterns.SUSPICIOUS_PATTERNS ->
  let score :=
    calculateThreatScore h
      {| hit_severity := Patterns.severity p; hit_category := Patterns.category p;
         hit_timestamp := ts |} context behaviorAnalysis in
  Z.min 100 (weightOf severityWeights (Patterns.severity p)
             + weightOf categoryWeights (Patterns.category p)) <= score
  /\ 40 <= score
  /\ In (getThreatLevel score) ["CRITICAL"; "HIGH"; "MEDIUM"].
Proof.
  intros Hin. cbv zeta.
  set (score := calculateThreatScore h _ context behaviorAnalysis).
  assert (Hlow : 40 <= weightOf severityWeights (Patterns.severity p)
                       + weightOf categoryWeights (Patterns.category p)).
  { simpl in Hin.
    repeat (destruct Hin as [Hin|Hin]; [subst p; vm_compute; discriminate|]).
    destruct Hin. }
  assert (Hs : Z.min 100 (weightOf severityWeights (Patterns.severity p)
                          + weightOf categoryWeights (Patterns.category p)) <= score).
  { unfold score, calculateThreatScore. cbn [hit_severity hit_category hit_timestamp].
    pose proof (calculateContextScore_nonneg context).
    pose proof (calculateBehaviorScore_nonneg behaviorAnalysis).
    pose proof (calculateTimeBasedScore_nonneg h ts).
    destruct behaviorAnalysis; lia. }
  split; [exact Hs|]. assert (H40 : 40 <= score) by lia. split; [exact H40|].
  unfold getThreatLevel.
  destruct (80 <=? score); [simpl; tauto|].
  destruct (60 <=? score); [simpl; tauto|].
  destruct (Z.leb_spec 40 score); [simpl; tauto | lia].
Qed.

(** X2: context, behaviour and time only add to a score.  A hit of a rule
    of the shipped catalog scores at least the sum of its severity and
    category weights (capped at 100), which is 40 at least: its level is
    MEDIUM, HIGH or CRITICAL, whatever the context, the behaviour of the
    source and the time. *)
Theorem catalog_hit_at_least_medium (h : Host.t) (p : Patterns.Pattern) (ts : Z)
    (context : option Context)
    (behaviorAnalysis : option BehaviorAnalyzer.BehaviorAnalysis) :
  In p Patterns.SUSPICIOUS_PATTERNS ->
  let score :=
    calculateThreatScore h
      {| hit_severity := Patterns.severity p; hit_category := Patterns.category p;
         hit_timestamp := ts |} context behaviorAnalysis in
  Z.min 100 (weightOf severityWeights (Patterns.severity p)
             + weightOf categoryWeights (Patterns.category p)) <= score
  /\ 40 <= score
  /\ In (getThreatLevel score) ["CRITICAL"; "HIGH"; "MEDIUM"].
Proof. apply catalog_hit_score. Qed.

Lemma catalog_hit_at_least_medium_witness :
  In (getThreatLevel
        (calculateThreatScore Host.UTC
           {| hit_severity := "MEDIUM"; hit_category := "SUSPICIOUS_ACCOUNT";
              hit_timestamp := 1717416000000 |} None None))
     ["CRITICAL"; "HIGH"; "MEDIUM"].
Proof.
  apply (catalog_hit_at_least_medium Host.UTC
           (nth 3 Patterns.SUSPICIOUS_PATTERNS Inputs.bruteForceRule) 1717416000000 None None).
  simpl. tauto.
Defined.

Lemma get_In_values {V : Type} (m : JsMap.t V) (k : string) (v : V) :
  JsMap.get m k = Some v -> In v (map snd m).
Proof.
  induction m as [|[k' v'] m IH]; simpl; [discriminate|].
  destruct (String.eqb k' k); [intros E; inversion E; tauto | intros E; right; auto].
Qed.

(** X3: [getRecommendedActions] marks the result immediate exactly for
    scores of 60 and more (levels CRITICAL and HIGH); the actions always
    begin with the base actions of the level, so there are two at least; for
    a category without a table of its own the result is the base set alone;
    and below 20 (level INFO, which has no base set) it is the LOW base set
    alone, for every category. *)
Theorem getRecommendedActions_shape (score : Z) (category : string) :
  let result := getRecommendedActions score category in
  let base := default baseLOW (JsMap.get baseActions (getThreatLevel score)) in
  immediate result = (60 <=? score)
  /\ (exists specific, actions result = actions base ++ specific)
  /\ (2 <= length (actions result))%nat
  /\ (JsMap.get categorySpecificActions category = None -> result = base)
  /\ (score < 20 -> result = baseLOW).
Proof.
  cbv zeta. unfold getRecommendedActions.
  set (level := getThreatLevel score).
  set (base := default baseLOW (JsMap.get baseActions level)).
  set (specific := if String.eqb category "" then [] else _).
  cbn [immediate actions].
  assert (Himm : immediate base = (60 <=? score) /\ (2 <= length (actions base))%nat).
  { unfold base, level, getThreatLevel.
    destruct (Z.leb_spec 80 score).
    { split; [simpl; symmetry; apply Z.leb_le; lia | simpl; lia]. }
    destruct (Z.leb_spec 60 score); [split; [reflexivity | simpl; lia]|].
    destruct (Z.leb_spec 40 score); [split; [reflexivity | simpl; lia]|].
    destruct (Z.leb_spec 20 score); split; try reflexivity; simpl; lia. }
  destruct Himm as [Himm Hlen].
  split; [exact Himm|]. split; [exists specific; reflexivity|].
  split; [rewrite length_app; lia|]. split.
  - intros Hnone. unfold specific. rewrite Hnone.
    destruct (String.eqb category ""); rewrite app_nil_r; destruct base; reflexivity.
  - intros Hlow. unfold specific, base, level, getThreatLevel.
    destruct (Z.leb_spec 80 score); [lia|]. destruct (Z.leb_spec 60 score); [lia|].
    destruct (Z.leb_spec 40 score); [lia|]. destruct (Z.leb_spec 20 score); [lia|].
    assert (Hget : forall perLevel,
               In perLevel (map snd categorySpecificActions) ->
               JsMap.get perLevel "INFO" = None).
    { intros perLevel Hp. simpl in Hp.
      repeat (destruct Hp as [Hp|Hp]; [subst perLevel; reflexivity|]). destruct Hp. }
    destruct (String.eqb category ""); [reflexivity|].
    destruct (JsMap.get categorySpecificActions category) as [perLevel|] eqn:E;
      [|reflexivity].
    rewrite Hget; [reflexivity|]. eapply get_In_values. exact E.
Qed.

Lemma getRecommendedActions_shape_witness :
  getRecommendedActions 85 "UNLISTED"
  = {| immediate := true;
       actions := ["Block source IP immediately"; "Alert security team";
                   "Initiate incident response"] |}
  /\ getRecommendedActions 5 "AUTH" = baseLOW.
Proof.
  destruct (getRecommendedActions_shape 85 "UNLISTED") as (_ & _ & _ & H & _).
  destruct (getRecommendedActions_shape 5 "AUTH") as (_ & _ & _ & _ & H').
  split; [rewrite H; reflexivity | apply H'; lia].
Defined.

End Levels.

(** ** Tracking and analysis of a source (BehaviorAnalyzer) *)

Section Behavior.
Import BehaviorAnalyzer Derived.

Lemma calculateFrequency_high (activities : list Activity) (w : World) :
  isHighFrequency (fst (calculateFrequency activities w)) = true ->
  (30 < length activities)%nat.
Proof.
  unfold calculateFrequency. destruct (length activities =? 0)%nat; simpl; [discriminate|].
  unfold maxAttemptsPerMinute. intros H. apply Z.ltb_lt in H.
  pose proof (filter_length_le
                (fun activity => clock w (reads w) - timestamp activity <=? 60000)
                activities). lia.
Qed.

Lemma calculateRiskScore_above_70 (h : Host.t)
    (activities : list Activity) (w : World) :
  70 < fst (calculateRiskScore h activities w) ->
  isHighFrequency (fst (calculateFrequency activities w)) = true
  /\ (30 < length activities)%nat.
Proof.
  intros H.
  assert (Hf : isHighFrequency (fst (calculateFrequency activities w)) = true).
  { unfold calculateRiskScore, bind, ret in H.
    destruct (calculateFrequency activities w) as [freq w']. cbn [fst snd] in *.
    destruct (isHighFrequency freq); [reflexivity|].
    destruct (t_suspicious _), (s_suspicious _); lia. }
  split; [exact Hf | eapply calculateFrequency_high; exact Hf].
Qed.

(** X4: a risk score above 70 is reached only with the high-frequency
    signal, that is with more than 30 records of the source in its list (and
    within the last minute); timing, sequence and volume alone give 70 at
    most. *)
Theorem riskScore_above_70_needs_high_frequency (h : Host.t)
    (activities : list Activity) (w : World) :
  70 < fst (calculateRiskScore h activities w) ->
  isHighFrequency (fst (calculateFrequency activities w)) = true
  /\ (30 < length activities)%nat.
Proof. apply calculateRiskScore_above_70. Qed.

Lemma riskScore_above_70_needs_high_frequency_witness :
  70 < fst (calculateRiskScore Host.UTC burst (LogAnalyzer.freshWorld Inputs.frozen))
  /\ isHighFrequency
       (fst (calculateFrequency burst (LogAnalyzer.freshWorld Inputs.frozen))) = true
  /\ (30 < length burst)%nat.
Proof.
  assert (H : 70 < fst (calculateRiskScore Host.UTC burst
                          (LogAnalyzer.freshWorld Inputs.frozen)))
    by (vm_compute; reflexivity).
  split; [exact H|].
  exact (riskScore_above_70_needs_high_frequency Host.UTC burst _ H).
Defined.

(** X5: for a source that was never tracked, or whose records are all
    gone, [analyzePattern] answers with rate 0, no flag and risk score 0, and
    it neither reads the clock nor changes the log. *)
Theorem analyzePattern_unknown_source (h : Host.t) (ip : string) (w : World) :
  default [] (JsMap.get (activityLog w) ip) = [] ->
  analyzePattern h ip w
  = ({| frequency := {| rate := 0; isHighFrequency := false |};
        unusualTiming := {| t_suspicious := false; t_regularPattern := None;
                            t_unusualTiming := None |};
        suspiciousSequence :=
          {| s_suspicious := false;
             s_details := {| failedLogins := false; rapidSuccession := false;
                             patternDetected := false |} |};
        riskScore := 0 |}, w).
Proof.
  intros H. unfold analyzePattern, bind, getLog. cbn [fst snd]. rewrite H. reflexivity.
Qed.

Lemma analyzePattern_unknown_source_witness :
  riskScore (fst (analyzePattern Host.UTC "203.0.113.7" Inputs.sparseWorld)) = 0
  /\ snd (analyzePattern Host.UTC "203.0.113.7" Inputs.sparseWorld) = Inputs.sparseWorld.
Proof.
  rewrite (analyzePattern_unknown_source Host.UTC "203.0.113.7" Inputs.sparseWorld);
    [split; reflexivity | reflexivity].
Defined.

(** X6: what one [trackActivity] call does to the log.  The list of the
    source becomes the records it had that are newer than one hour before the
    clock reading of the call, followed by the new record if that is itself
    newer; a record tracked with a timestamp an hour old or older is dropped
    by the very call that adds it.  The lists of the other sources stay as
    they are, and the clock is read once. *)
Theorem trackActivity_effect (ip action : string) (ts : Z) (w : World) :
  let now := clock w (reads w) in
  let fresh := fun r => now - 60 * 60 * 1000 <? timestamp r in
  let old := default [] (JsMap.get (activityLog w) ip) in
  let w' := snd (trackActivity ip action ts w) in
  JsMap.get (activityLog w') ip
  = Some (List.filter fresh old
          ++ (if now - 60 * 60 * 1000 <? ts
              then [{| action := action; timestamp := ts |}] else []))
  /\ (forall other, other <> ip ->
        JsMap.get (activityLog w') other = JsMap.get (activityLog w) other)
  /\ reads w' = S (reads w)
  /\ clock w' = clock w.
Proof.
  cbv zeta. split; [|split; [|split]].
  - rewrite trackActivity_source, List.filter_app. reflexivity.
  - intros other Hne. apply trackActivity_other. congruence.
  - apply trackActivity_clock.
  - apply trackActivity_clock.
Qed.




Lemma prefix_app (s t : string) : String.prefix s (s ++ t)%string = true.
Proof.
  induction s as [|c s IH]; simpl; [destruct t; reflexivity|].
  destruct (ascii_dec c c); [exact IH | congruence].
Qed.

Lemma includes_app_l (a s sub : string) :
  JsString.includes s sub = true -> JsString.includes (a ++ s)%string sub = true.
Proof.
  intros H. induction a as [|c a IH]; simpl; [exact H|].
  rewrite IH. apply orb_true_r.
Qed.

Lemma includes_prefix (s sub : string) :
  String.prefix sub s = true -> JsString.includes s sub = true.
Proof. intros H. destruct s; cbn [JsString.includes]; rewrite H; reflexivity. Qed.

Lemma includes_middle (a sub b : string) :
  JsString.includes (a ++ sub ++ b)%string sub = true.
Proof. apply includes_app_l, includes_prefix, prefix_app. Qed.

Lemma string_app_assoc (a b c : string) : ((a ++ b) ++ c = a ++ (b ++ c))%string.
Proof.
  induction a as [|x a IH]; [reflexivity|].
  change (String x ((a ++ b) ++ c) = String x (a ++ (b ++ c)))%string. f_equal. exact IH.
Qed.

Lemma string_app_nil_r (a : string) : (a ++ "")%string = a.
Proof.
  induction a as [|x a IH]; [reflexivity|].
  change (String x (a ++ "") = String x a)%string. f_equal. exact IH.
Qed.

Lemma join_cons (sep p : string) (ps : list string) :
  ps <> [] -> JsString.join sep (p :: ps) = (p ++ sep ++ JsString.join sep ps)%string.
Proof. destruct ps; [congruence | reflexivity]. Qed.

Lemma join_app_prefix (sep : string) (pat post : list string) :
  pat <> [] ->
  exists b, JsString.join sep (pat ++ post) = (JsString.join sep pat ++ b)%string.
Proof.
  induction pat as [|p pat IH]; intros Hne; [congruence|].
  destruct pat as [|p' pat].
  - destruct post as [|q post].
    + exists "". simpl. rewrite string_app_nil_r. reflexivity.
    + exists (sep ++ JsString.join sep (q :: post))%string. reflexivity.
  - destruct IH as (b & Hb); [discriminate|]. exists b.
    change ((p :: p' :: pat) ++ post) with (p :: ((p' :: pat) ++ post)).
    rewrite join_cons by discriminate. rewrite Hb.
    rewrite (join_cons sep p (p' :: pat)) by discriminate.
    rewrite !string_app_assoc. reflexivity.
Qed.

Lemma join_app_middle (sep : string) (pre pat post : list string) :
  pat <> [] ->
  exists a b,
    JsString.join sep (pre ++ pat ++ post) = (a ++ JsString.join sep pat ++ b)%string.
Proof.
  intros Hne. induction pre as [|x pre (a & b & IH)].
  - destruct (join_app_prefix sep pat post Hne) as (b & Hb). exists "", b. exact Hb.
  - exists (x ++ sep ++ a)%string, b.
    change ((x :: pre) ++ pat ++ post) with (x :: (pre ++ pat ++ post)).
    rewrite join_cons by (destruct pre, pat; simpl; congruence).
    rewrite IH, !string_app_assoc. reflexivity.
Qed.

(** X8: a source whose actions contain one of the two known sequences as
    consecutive actions is detected by [detectKnownPatterns]. *)
Theorem detectKnownPatterns_contiguous (activities : list Activity)
    (pre pattern post : list string) :
  In pattern knownPatterns ->
  map action activities = pre ++ pattern ++ post ->
  detectKnownPatterns activities = true.
Proof.
  intros Hin Hact. unfold detectKnownPatterns. apply existsb_exists.
  exists pattern. split; [exact Hin|]. unfold containsSequence. rewrite Hact.
  destruct (join_app_middle "," pre pattern post) as (a & b & ->).
  - destruct Hin as [<-|[<-|[]]]; discriminate.
  - apply includes_middle.
Qed.

Lemma detectKnownPatterns_contiguous_witness :
  detectKnownPatterns
    [ {| action := "unknown"; timestamp := 1 |};
      {| action := "failed_login"; timestamp := 2 |};
      {| action := "success_login"; timestamp := 3 |};
      {| action := "access_sensitive"; timestamp := 4 |} ] = true.
Proof.
  apply (detectKnownPatterns_contiguous _ ["unknown"]
           ["failed_login"; "success_login"; "access_sensitive"] []).
  - left. reflexivity.
  - reflexivity.
Defined.

Lemma occurs_app (c : ascii) (a b : string) :
  occurs c (a ++ b)%string = occurs c a || occurs c b.
Proof. induction a as [|x a IH]; simpl; [reflexivity|]. rewrite IH, orb_assoc. reflexivity. Qed.

Lemma prefix_occurs (c : ascii) (sub s : string) :
  String.prefix sub s = true -> occurs c sub = true -> occurs c s = true.
Proof.
  revert s. induction sub as [|x sub IH]; intros s Hp Ho; simpl in Ho; [discriminate|].
  destruct s as [|y s]; simpl in Hp; [discriminate|].
  destruct (ascii_dec x y) as [->|]; [|discriminate]. simpl.
  destruct (Ascii.eqb y c); [reflexivity|]. simpl in *. apply IH; assumption.
Qed.

Lemma includes_occurs (c : ascii) (s sub : string) :
  JsString.includes s sub = true -> occurs c sub = true -> occurs c s = true.
Proof.
  intros Hi Ho. induction s as [|y s IH]; cbn [JsString.includes] in Hi.
  - rewrite orb_false_r in Hi. eapply prefix_occurs; eassumption.
  - apply orb_true_iff in Hi. destruct Hi as [Hp|Hi].
    + eapply prefix_occurs; eassumption.
    + simpl. rewrite IH by exact Hi. apply orb_true_r.
Qed.

Lemma join_occurs (c : ascii) (labels : list string) :
  occurs c "," = false ->
  Forall (fun l => occurs c l = false) labels ->
  occurs c (JsString.join "," labels) = false.
Proof.
  intros Hc. induction 1 as [|l labels Hl _ IH]; [reflexivity|].
  destruct labels as [|l' labels]; [exact Hl|].
  rewrite join_cons by discriminate. rewrite !occurs_app, Hl, Hc, IH. reflexivity.
Qed.

(** X9: the actions that [extractAction] produces are [failed_login],
    [success_login], [port_scan] and [unknown]; on a list of such actions
    [detectKnownPatterns] never answers true, both known sequences needing an
    action ([access_sensitive], [vulnerability_scan], [exploit_attempt]) that
    is never produced. *)
Theorem detectKnownPatterns_never_on_extracted (activities : list Activity) :
  Forall (fun a => exists line category,
                     action a = LogAnalyzer.extractAction line category) activities ->
  detectKnownPatterns activities = false.
Proof.
  intros H.
  assert (Hv : occurs "v" (JsString.join "," (map action activities)) = false).
  { apply join_occurs; [reflexivity|]. apply Forall_map.
    eapply List.Forall_impl; [|exact H]. intros a (line & category & ->).
    unfold LogAnalyzer.extractAction.
    destruct (JsString.includes line "failed login"); [reflexivity|].
    destruct (JsString.includes line "successful login"); [reflexivity|].
    destruct (String.eqb category "RECONNAISSANCE"); reflexivity. }
  unfold detectKnownPatterns.
  destruct (existsb _ knownPatterns) eqn:E; [|reflexivity].
  apply existsb_exists in E. destruct E as (pattern & Hin & Hc).
  unfold containsSequence in Hc.
  assert (Ho : occurs "v" (JsString.join "," pattern) = true).
  { destruct Hin as [<-|[<-|[]]]; reflexivity. }
  rewrite (includes_occurs "v" _ _ Hc Ho) in Hv. discriminate.
Qed.

Lemma detectKnownPatterns_never_on_extracted_witness :
  detectKnownPatterns
    [ {| action := LogAnalyzer.extractAction "failed login for root" "AUTH"; timestamp := 1 |};
      {| action := LogAnalyzer.extractAction "successful login for root" "AUTH";
         timestamp := 2 |};
      {| action := LogAnalyzer.extractAction "port scan" "RECONNAISSANCE"; timestamp := 3 |} ]
  = false.
Proof.
  apply detectKnownPatterns_never_on_extracted.
  repeat constructor; eexists; eexists; reflexivity.
Defined.

End Behavior.

(** ** Correlation of two threats and the groups (CorrelationEngine) *)

Section Correlation.
Import CorrelationEngine Spec Derived.

Lemma window_at_least_5min (category : string) :
  300000 <= match correlationRules category with
            | Some r => if timeWindow r =? 0 then timeWindowMs else timeWindow r
            | None => timeWindowMs
            end.
Proof.
  unfold correlationRules.
  destruct (String.eqb category "AUTH"); [vm_compute; discriminate|].
  destruct (String.eqb category "RECONNAISSANCE"); [vm_compute; discriminate|].
  destruct (String.eqb category "INJECTION"); vm_compute; discriminate.
Qed.

Lemma sameOption_refl (ip : string) : sameOption (Some ip) (Some ip) = true.
Proof. simpl. apply String.eqb_refl. Qed.

(** X10: two threats at most five minutes apart, or with the same
    non-empty source address, are correlated by [checkCorrelation] in both
    directions, whatever their categories (no rule has a window shorter than
    five minutes). *)
Theorem checkCorrelation_close_or_same_source (t1 t2 : Threat.t) :
  Z.abs (Threat.timestamp t1 - Threat.timestamp t2) <= 300000
  \/ (exists ip, ip <> "" /\ Threat.sourceIP t1 = Some ip /\ Threat.sourceIP t2 = Some ip) ->
  isCorrelated (checkCorrelation t1 t2) = true
  /\ isCorrelated (checkCorrelation t2 t1) = true.
Proof.
  intros [Hclose|(ip & Hne & H1 & H2)]; unfold checkCorrelation; cbn [isCorrelated].
  - pose proof (window_at_least_5min (Threat.category t1)).
    pose proof (window_at_least_5min (Threat.category t2)).
    split; apply orb_true_iff; left; apply orb_true_iff; left; apply Z.leb_le; lia.
  - assert (Ht : JsString.truthy (Some ip) = true).
    { simpl. apply negb_true_iff. apply String.eqb_neq. exact Hne. }
    rewrite H1, H2, Ht, sameOption_refl.
    split; apply orb_true_iff; left; apply orb_true_iff; right; reflexivity.
Qed.

Lemma checkCorrelation_close_or_same_source_witness :
  isCorrelated (checkCorrelation
                  (Inputs.threatOf "AUTH" 1704103200000 (Some "10.0.0.5") "HIGH")
                  (Inputs.threatOf "MALWARE" 1704190000000 (Some "10.0.0.5") "HIGH")) = true
  /\ isCorrelated (checkCorrelation
                     (Inputs.threatOf "MALWARE" 1704190000000 (Some "10.0.0.5") "HIGH")
                     (Inputs.threatOf "AUTH" 1704103200000 (Some "10.0.0.5") "HIGH")) = true.
Proof.
  apply checkCorrelation_close_or_same_source. right. exists "10.0.0.5".
  split; [discriminate | split; reflexivity].
Defined.

(** Once every position from [j] on is claimed, the rest of the outer loop
    changes nothing. *)
Lemma groupStep_all_claimed (threats l : list Threat.t) :
  forall (j : nat) (st : list Group * gset nat),
    (forall k, (j <= k < j + length l)%nat -> k ∈ snd st) ->
    JsArray.forEachFrom (groupStep threats) j l st = st.
Proof.
  induction l as [|a l IH]; intros j st H; simpl; [reflexivity|].
  assert (Hj : groupStep threats j a st = st).
  { destruct st as [gs P]. unfold groupStep.
    rewrite bool_decide_eq_true_2; [reflexivity|]. apply H. simpl. lia. }
  rewrite Hj. apply IH. intros k Hk. apply H. simpl. lia.
Qed.

Lemma filter_all {A : Type} (f : A -> bool) (l : list A) :
  (forall x, In x l -> f x = true) -> List.filter f l = l.
Proof.
  induction l as [|x l IH]; intros H; simpl; [reflexivity|].
  rewrite (H x) by (left; reflexivity). f_equal. apply IH. intros y Hy. apply H. right. exact Hy.
Qed.

(** X11: when the first threat of the input is correlated with each of the
    others (as it is when all lie within five minutes of it, the case of
    the threats of one run), the grouping pass returns a single group: the
    first threat is its primary threat and all the others, in input order,
    are its related threats. *)
Theorem findCorrelatedEvents_single_group (t0 : Threat.t) (rest : list Threat.t) :
  rest <> [] ->
  Forall (fun u => isCorrelated (checkCorrelation t0 u) = true) rest ->
  exists g,
    findCorrelatedEvents (t0 :: rest) = [g]
    /\ primaryThreat g = (0%nat, t0)
    /\ relatedThreats g = JsArray.indexedFrom 1 rest.
Proof.
  intros Hne Hall. unfold findCorrelatedEvents, JsArray.forEach.
  cbn [JsArray.forEachFrom]. unfold groupStep at 2.
  rewrite bool_decide_eq_false_2 by set_solver.
  set (g0 := {| primaryThreat := (0%nat, t0); relatedThreats := []; correlationType := [];
                riskLevel := if String.eqb (Threat.threatLevel t0) "" then "MEDIUM"
                             else Threat.threatLevel t0 |}).
  pose proof (scan_spec 0 t0 (t0 :: rest) 0 g0 ∅) as Hs. cbv zeta in Hs.
  unfold JsArray.forEach.
  destruct (JsArray.forEachFrom (scanStep 0 t0) 0 (t0 :: rest) (g0, ∅)) as [g P].
  cbn [fst snd] in Hs. destruct Hs as (Hp & Hr & HP).
  assert (Hadd : List.filter (scanPred 0 t0 ∅) (JsArray.indexedFrom 0 (t0 :: rest))
                 = JsArray.indexedFrom 1 rest).
  { cbn [JsArray.indexedFrom List.filter]. unfold scanPred at 1. cbn [fst negb Nat.eqb andb].
    apply filter_all. intros [k u] Hin. apply In_indexedFrom in Hin.
    destruct Hin as (m & -> & Hm). unfold scanPred. cbn [fst snd].
    rewrite List.Forall_forall in Hall. rewrite (Hall u) by (eapply nth_error_In; exact Hm).
    rewrite bool_decide_eq_false_2 by set_solver. reflexivity. }
  rewrite Hadd in Hr, HP. simpl in Hr.
  assert (Hlen : (0 <? length (relatedThreats g))%nat = true).
  { rewrite Hr. destruct rest; [congruence | reflexivity]. }
  rewrite Hlen. rewrite groupStep_all_claimed.
  - exists g. repeat split; assumption.
  - intros k Hk. cbn [snd]. rewrite HP, map_fst_indexedFrom.
    apply elem_of_union_r, elem_of_union_r, elem_of_list_to_set, list_elem_of_In, in_seq. lia.
Qed.

Lemma findCorrelatedEvents_single_group_witness :
  exists g,
    findCorrelatedEvents quickRun = [g]
    /\ fst (primaryThreat g) = 0%nat
    /\ map fst (relatedThreats g) = [1%nat; 2%nat; 3%nat].
Proof.
  destruct (findCorrelatedEvents_single_group
              (Inputs.threatOf "MALWARE" 1704103200000 None "HIGH")
              (tl quickRun)) as (g & Hg & Hp & Hr).
  - discriminate.
  - repeat constructor.
  - exists g. split; [exact Hg|]. rewrite Hp, Hr. split; reflexivity.
Defined.

Lemma scanStep_risk (index : nat) (threat : Threat.t) (i : nat) (t : Threat.t)
    (j : nat) (a : Threat.t) (st : Group * gset nat) :
  (riskIsMaximum (fst st) /\ primaryThreat (fst st) = (i, t)) ->
  riskIsMaximum (fst (scanStep index threat j a st))
  /\ primaryThreat (fst (scanStep index threat j a st)) = (i, t).
Proof.
  destruct st as [g P]. cbn [fst]. intros [(H1 & H2 & H3) Hp]. unfold scanStep.
  destruct ((index =? j)%nat || bool_decide (j ∈ P)); [split; [repeat split|]; assumption|].
  destruct (isCorrelated (checkCorrelation threat a));
    [|split; [repeat split|]; assumption].
  cbn [fst]. split; [|exact Hp]. unfold riskIsMaximum in *.
  cbn [primaryThreat relatedThreats riskLevel] in *.
  destruct (Z.ltb_spec (getThreatLevelWeight (riskLevel g))
                       (getThreatLevelWeight (Threat.threatLevel a))) as [Hlt|Hge].
  - split; [lia|]. split.
    + apply Forall_app. split.
      * eapply List.Forall_impl; [|exact H2]. intros r Hr. simpl in *. lia.
      * constructor; [simpl; lia | constructor].
    + right. exists (j, a). split; [apply in_app_iff; right; left; reflexivity | reflexivity].
  - split; [exact H1|]. split.
    + apply Forall_app. split; [exact H2|]. constructor; [simpl; lia | constructor].
    + destruct H3 as [H3|(r & Hr & H3)]; [left; exact H3|].
      right. exists r. split; [apply in_app_iff; left; exact Hr | exact H3].
Qed.

Lemma groupStep_risk (threats : list Threat.t) (i : nat) (t : Threat.t)
    (st : list Group * gset nat) :
  Forall riskIsMaximum (fst st) -> Forall riskIsMaximum (fst (groupStep threats i t st)).
Proof.
  destruct st as [gs P]. cbn [fst]. intros H. unfold groupStep.
  destruct (bool_decide (i ∈ P)); [exact H|].
  set (g0 := {| primaryThreat := (i, t); relatedThreats := []; correlationType := [];
                riskLevel := if String.eqb (Threat.threatLevel t) "" then "MEDIUM"
                             else Threat.threatLevel t |}).
  assert (Hg : riskIsMaximum (fst (JsArray.forEach (scanStep i t) threats (g0, P)))
               /\ primaryThreat (fst (JsArray.forEach (scanStep i t) threats (g0, P)))
                  = (i, t)).
  { unfold JsArray.forEach.
    apply (forEachFrom_inv (scanStep i t)
             (fun st => riskIsMaximum (fst st) /\ primaryThreat (fst st) = (i, t)) threats).
    - intros k x s _. apply scanStep_risk.
    - intros k x Hk. exact Hk.
    - split; [|reflexivity]. unfold riskIsMaximum, g0, initialRisk. cbn.
      split; [lia|]. split; [constructor | left; reflexivity]. }
  destruct (JsArray.forEach (scanStep i t) threats (g0, P)) as [g P']. cbn [fst] in Hg.
  destruct (0 <? length (relatedThreats g))%nat; cbn [fst]; [|exact H].
  apply Forall_app. split; [exact H|]. constructor; [apply Hg | constructor].
Qed.

(** X12: for threats whose levels are plain keys (none is the name of a
    property that every object inherits, for which [weights[level]] would be
    a function and not a number), the risk level of every group that
    [findCorrelatedEvents] returns is the heaviest level, by
    [getThreatLevelWeight], among the level of its primary threat (MEDIUM if
    it has none) and the levels of its related threats, and it is the level
    of one of them. *)
Theorem group_riskLevel_is_maximum (threats : list Threat.t) :
  forallb (fun t => JsObject.plain (Threat.threatLevel t)) threats = true ->
  Forall riskIsMaximum (findCorrelatedEvents threats).
Proof.
  intros _. unfold findCorrelatedEvents, JsArray.forEach.
  apply (forEachFrom_inv (groupStep threats)
           (fun st => Forall riskIsMaximum (fst st)) threats).
  - intros i x s _. apply groupStep_risk.
  - intros k x H. exact H.
  - constructor.
Qed.

Lemma group_riskLevel_is_maximum_witness :
  length (findCorrelatedEvents quickRun) = 1%nat
  /\ Forall riskIsMaximum (findCorrelatedEvents quickRun).
Proof.
  split; [vm_compute; reflexivity|].
  apply (group_riskLevel_is_maximum quickRun). vm_compute. reflexivity.
Defined.

End Correlation.

(** ** The attack templates (CorrelationEngine) *)

Section Templates.
Import CorrelationEngine Derived.

Lemma includesString_In (l : list string) (c : string) :
  includesString l c = true <-> In c l.
Proof.
  unfold includesString. rewrite existsb_exists. split.
  - intros (x & Hx & E). apply String.eqb_eq in E. subst. exact Hx.
  - intros H. exists c. split; [exact H | apply String.eqb_refl].
Qed.

Lemma find_is_some {A : Type} (f : A -> bool) (l : list A) (x : A) :
  In x l -> f x = true -> exists y, List.find f l = Some y.
Proof.
  intros Hin Hf. destruct (List.find f l) as [y|] eqn:E; [eauto|].
  rewrite (find_none f l E x Hin) in Hf. discriminate.
Qed.

Lemma matchSequencePattern_complete (name first : string) (follow : list string)
    (window : Z) (threats : list Threat.t) :
  (exists a b, before a b threats /\ qualifies first follow window a b) ->
  exists m, matchSequencePattern name first follow window threats = Some m.
Proof.
  intros (a & b & (l1 & l2 & l3 & Hb) & Hcat & Hf & Hw). subst threats.
  induction l1 as [|x l1 IH].
  - simpl. destruct (l2 ++ b :: l3) as [|u next'] eqn:E; [destruct l2; discriminate|].
    rewrite <- E. rewrite Hcat, String.eqb_refl.
    destruct (find_is_some
                (fun threat =>
                   includesString follow (Threat.category threat)
                   && (Threat.timestamp threat - Threat.timestamp a <=? window))
                (l2 ++ b :: l3) b) as (y & Hy).
    + apply in_app_iff. right. left. reflexivity.
    + apply andb_true_iff. split; [apply includesString_In; exact Hf | apply Z.leb_le; exact Hw].
    + rewrite Hy. eauto.
  - destruct IH as (m & Hm). cbn [app].
    cbn [matchSequencePattern].
    destruct (l1 ++ a :: l2 ++ b :: l3) as [|u next'] eqn:E; [destruct l1; discriminate|].
    destruct (String.eqb (Threat.category x) first); [|eauto].
    destruct (List.find _ (u :: next')); eauto.
Qed.

Lemma matchSequencePattern_sound (name first : string) (follow : list string)
    (window : Z) (threats : list Threat.t) (m : AttackPattern) :
  matchSequencePattern name first follow window threats = Some m ->
  CorrelationEngine.name m = name /\ confidence m = "HIGH"
  /\ exists a b,
       CorrelationEngine.threats m = [a; b] /\ ap_timestamp m = Threat.timestamp a
       /\ before a b threats /\ qualifies first follow window a b.
Proof.
  revert m.
  induction threats as [|t next IH]; intros m Hm; simpl in Hm; [discriminate|].
  destruct next as [|u next']; [discriminate|].
  assert (Hrec : matchSequencePattern name first follow window (u :: next') = Some m ->
                 CorrelationEngine.name m = name /\ confidence m = "HIGH"
                 /\ exists a b,
                      CorrelationEngine.threats m = [a; b]
                      /\ ap_timestamp m = Threat.timestamp a
                      /\ before a b (t :: u :: next')
                      /\ qualifies first follow window a b).
  { intros H. destruct (IH m H) as (Hn & Hc & a & b & Ht & Hts & (l1 & l2 & l3 & Hb) & Hq).
    split; [exact Hn|]. split; [exact Hc|]. exists a, b. repeat split; try assumption;
      try apply Hq.
    exists (t :: l1), l2, l3. rewrite Hb. reflexivity. }
  destruct (String.eqb_spec (Threat.category t) first) as [Hcat|Hcat]; [|auto].
  destruct (List.find _ (u :: next')) as [b|] eqn:E; [|auto].
  inversion Hm; subst m. cbn. split; [reflexivity|]. split; [reflexivity|].
  apply find_some in E. destruct E as [Hin Hb].
  apply andb_true_iff in Hb. destruct Hb as [Hf Hw].
  apply includesString_In in Hf. apply Z.leb_le in Hw.
  exists t, b. split; [reflexivity|]. split; [reflexivity|]. split.
  + apply in_split in Hin. destruct Hin as (l2 & l3 & Hin).
    exists [], l2, l3. rewrite Hin. reflexivity.
  + repeat split; assumption.
Qed.

(** X13: [matchSequencePattern] reports a match exactly when the list has a
    threat of the first category followed, anywhere later in the list, by a
    threat of one of the follow-up categories at most the window after it.
    The match then carries such a pair, the timestamp of its first threat,
    and confidence HIGH. *)
Theorem matchSequencePattern_iff (name first : string) (follow : list string)
    (window : Z) (threats : list Threat.t) :
  (forall m,
     matchSequencePattern name first follow window threats = Some m ->
     CorrelationEngine.name m = name /\ confidence m = "HIGH"
     /\ exists a b,
          CorrelationEngine.threats m = [a; b] /\ ap_timestamp m = Threat.timestamp a
          /\ before a b threats /\ qualifies first follow window a b)
  /\ ((exists a b, before a b threats /\ qualifies first follow window a b) ->
      exists m, matchSequencePattern name first follow window threats = Some m).
Proof.
  split.
  - intros m. apply matchSequencePattern_sound.
  - apply matchSequencePattern_complete.
Qed.

Lemma matchSequencePattern_iff_witness :
  exists m,
    matchSequencePattern "Reconnaissance followed by Attack" "RECONNAISSANCE"
      ["INJECTION"; "XSS"; "AUTH"] 1800000
      [ Inputs.threatOf "RECONNAISSANCE" 1704103200000 None "HIGH";
        Inputs.threatOf "MALWARE" 1704103500000 None "HIGH";
        Inputs.threatOf "INJECTION" 1704104400000 None "HIGH" ] = Some m.
Proof.
  apply (proj2 (matchSequencePattern_iff _ _ _ _ _)).
  exists (Inputs.threatOf "RECONNAISSANCE" 1704103200000 None "HIGH"),
         (Inputs.threatOf "INJECTION" 1704104400000 None "HIGH").
  split.
  - exists [], [Inputs.threatOf "MALWARE" 1704103500000 None "HIGH"], []. reflexivity.
  - split; [reflexivity|]. split; [simpl; tauto | simpl; lia].
Defined.

Lemma takeWhile_prefix {A : Type} (p : A -> bool) (l : list A) :
  exists rest, l = JsArray.takeWhile p l ++ rest.
Proof.
  induction l as [|x l (rest & IH)]; simpl; [exists []; reflexivity|].
  destruct (p x); [exists rest; simpl; f_equal; exact IH | exists (x :: l); reflexivity].
Qed.

Lemma takeWhile_all {A : Type} (p : A -> bool) (l : list A) :
  Forall (fun x => p x = true) (JsArray.takeWhile p l).
Proof.
  induction l as [|x l IH]; simpl; [constructor|].
  destruct (p x) eqn:E; [constructor; assumption | constructor].
Qed.

Lemma findTimeWindows_runs (threats : list Threat.t) (windowSize : Z) :
  Forall (fun w =>
            exists first others l1 l2,
              w = first :: others /\ others <> []
              /\ threats = l1 ++ w ++ l2
              /\ Forall (fun u => Threat.timestamp u - Threat.timestamp first <= windowSize)
                        others)
         (findTimeWindows threats windowSize)
  /\ (length (findTimeWindows threats windowSize) <= length threats)%nat.
Proof.
  induction threats as [|t rest [IH IHlen]]; simpl; [split; [constructor | lia]|].
  assert (Hrest : Forall (fun w =>
            exists first others l1 l2,
              w = first :: others /\ others <> []
              /\ t :: rest = l1 ++ w ++ l2
              /\ Forall (fun u => Threat.timestamp u - Threat.timestamp first <= windowSize)
                        others)
         (findTimeWindows rest windowSize)).
  { eapply List.Forall_impl; [|exact IH].
    intros w (first & others & l1 & l2 & Hw & Hne & Hsplit & Hall).
    exists first, others, (t :: l1), l2. rewrite Hsplit. repeat split; assumption. }
  set (run := JsArray.takeWhile
                (fun u => Threat.timestamp u - Threat.timestamp t <=? windowSize) rest).
  destruct (Nat.ltb_spec 1 (S (length run))) as [Hlong|Hshort].
  - split; [|simpl; lia]. constructor; [|exact Hrest].
    destruct (takeWhile_prefix
                (fun u => Threat.timestamp u - Threat.timestamp t <=? windowSize) rest)
      as (l2 & Hl2).
    exists t, run, [], l2. split; [reflexivity|]. split.
    + intros E. rewrite E in Hlong. simpl in Hlong. lia.
    + split; [simpl; f_equal; exact Hl2|].
      eapply List.Forall_impl; [|apply takeWhile_all]. intros u Hu. simpl in Hu.
      apply Z.leb_le in Hu. exact Hu.
  - split; [exact Hrest | lia].
Qed.

(** X14: every window of [findTimeWindows] is a run of two or more
    consecutive threats of the list, each at most the window size after the
    first of the run; and there is at most one window per threat. *)
Theorem findTimeWindows_windows (threats : list Threat.t) (windowSize : Z) :
  Forall (fun w =>
            exists first others l1 l2,
              w = first :: others /\ others <> []
              /\ threats = l1 ++ w ++ l2
              /\ Forall (fun u => Threat.timestamp u - Threat.timestamp first <= windowSize)
                        others)
         (findTimeWindows threats windowSize)
  /\ (length (findTimeWindows threats windowSize) <= length threats)%nat.
Proof. apply findTimeWindows_runs. Qed.

Lemma insertSorted_perm {A : Type} (cmp : A -> A -> Z) (x : A) (l : list A) :
  Permutation (JsArray.insertSorted cmp x l) (x :: l).
Proof.
  induction l as [|y l IH]; simpl; [reflexivity|].
  destruct (cmp x y <=? 0); [reflexivity|].
  rewrite IH. apply perm_swap.
Qed.

(** The sorted array has the elements of the array. *)
Lemma sort_perm {A : Type} (cmp : A -> A -> Z) (l : list A) :
  Permutation (JsArray.sort cmp l) l.
Proof.
  induction l as [|x l IH]; simpl; [reflexivity|].
  unfold JsArray.sort in *. simpl. rewrite insertSorted_perm, IH. reflexivity.
Qed.

Lemma insertSorted_sorted {A : Type} (cmp : A -> A -> Z) (f : A -> Z) (x : A) (l : list A) :
  (forall a b, cmp a b = f a - f b) ->
  StronglySorted (fun a b => f a <= f b) l ->
  StronglySorted (fun a b => f a <= f b) (JsArray.insertSorted cmp x l).
Proof.
  intros Hcmp. induction 1 as [|y l Hs IH Hy]; simpl; [repeat constructor|].
  destruct (Z.leb_spec (cmp x y) 0) as [Hle|Hgt]; rewrite Hcmp in *.
  - constructor; [constructor; assumption|].
    constructor; [lia|]. eapply List.Forall_impl; [|exact Hy]. intros z Hz. simpl in Hz. lia.
  - constructor; [exact IH|].
    apply List.Forall_forall. intros z Hz.
    apply (Permutation_in _ (insertSorted_perm cmp x l)) in Hz.
    destruct Hz as [<-|Hz]; [lia|]. rewrite List.Forall_forall in Hy. apply Hy. exact Hz.
Qed.

(** A comparator that is a difference of keys sorts by the key. *)
Lemma sort_sorted {A : Type} (cmp : A -> A -> Z) (f : A -> Z) (l : list A) :
  (forall a b, cmp a b = f a - f b) ->
  StronglySorted (fun a b => f a <= f b) (JsArray.sort cmp l).
Proof.
  intros Hcmp. induction l as [|x l IH]; simpl; [constructor|].
  apply (insertSorted_sorted cmp f); assumption.
Qed.

Lemma StronglySorted_app_r {A : Type} (R : A -> A -> Prop) (l1 l2 : list A) :
  StronglySorted R (l1 ++ l2) -> StronglySorted R l2.
Proof.
  induction l1 as [|x l1 IH]; simpl; [auto|].
  intros H. inversion H; subst. auto.
Qed.

Lemma StronglySorted_app_l {A : Type} (R : A -> A -> Prop) (l1 l2 : list A) :
  StronglySorted R (l1 ++ l2) -> StronglySorted R l1.
Proof.
  induction l1 as [|x l1 IH]; simpl; [constructor|].
  intros H. inversion H as [|? ? Hs Hall]; subst. constructor; [auto|].
  apply Forall_app in Hall. apply Hall.
Qed.

Lemma StronglySorted_filter {A : Type} (R : A -> A -> Prop) (p : A -> bool) (l : list A) :
  StronglySorted R l -> StronglySorted R (List.filter p l).
Proof.
  induction 1 as [|x l Hs IH Hall]; simpl; [constructor|].
  destruct (p x); [|exact IH]. constructor; [exact IH|].
  apply List.Forall_forall. intros y Hy. apply filter_In in Hy.
  rewrite List.Forall_forall in Hall. apply Hall. apply Hy.
Qed.

(** The three templates are tried in order on the threats sorted by time. *)
Lemma identifyAttackPatterns_cases (threats : list Threat.t) (m : AttackPattern) :
  let sorted := JsArray.sort (fun a b => Threat.timestamp a - Threat.timestamp b) threats in
  In m (identifyAttackPatterns threats) ->
  matchSequencePattern "Reconnaissance followed by Attack" "RECONNAISSANCE"
    ["INJECTION"; "XSS"; "AUTH"] (30 * 60 * 1000) sorted = Some m
  \/ matchFrequencyPattern "Brute Force Attack" "AUTH" 5 (5 * 60 * 1000) sorted = Some m
  \/ matchDiversityPattern "Multi-Vector Attack" 3 (15 * 60 * 1000) sorted = Some m.
Proof.
  cbv zeta. unfold identifyAttackPatterns, knownPatterns. cbn [omap list_omap matchPattern].
  set (sorted := JsArray.sort _ threats).
  destruct (matchSequencePattern _ _ _ _ sorted) as [m1|];
    destruct (matchFrequencyPattern _ _ _ _ sorted) as [m2|];
    destruct (matchDiversityPattern _ _ _ sorted) as [m3|]; simpl; intros H;
    repeat (destruct H as [H|H]; [subst; tauto|]); destruct H.
Qed.

Lemma windowPattern_some (name confidence : string) (found : option (list Threat.t))
    (m : AttackPattern) :
  windowPattern name confidence found = Some m ->
  exists first others,
    found = Some (first :: others)
    /\ m = {| CorrelationEngine.name := name; threats := first :: others;
              ap_timestamp := Threat.timestamp first; confidence := confidence |}.
Proof.
  destruct found as [[|first others]|]; simpl; try discriminate.
  intros H. inversion H. eauto.
Qed.

(** A window found in a time-sorted list: its threats are among those of
    the list and none is earlier than its first or more than the window
    later. *)
Lemma sorted_window (sorted : list Threat.t) (window : Z) (w : list Threat.t) :
  StronglySorted (fun a b => Threat.timestamp a <= Threat.timestamp b) sorted ->
  In w (findTimeWindows sorted window) ->
  exists first others,
    w = first :: others /\ others <> []
    /\ Forall (fun u => In u sorted
                        /\ 0 <= Threat.timestamp u - Threat.timestamp first <= window) w.
Proof.
  intros Hs Hin. destruct (findTimeWindows_runs sorted window) as [Hruns _].
  rewrite List.Forall_forall in Hruns.
  destruct (Hruns w Hin) as (first & others & l1 & l2 & Hw & Hne & Hsplit & Hall).
  exists first, others. split; [exact Hw|]. split; [exact Hne|].
  assert (Hsw : StronglySorted (fun a b => Threat.timestamp a <= Threat.timestamp b) w).
  { rewrite Hsplit in Hs. apply StronglySorted_app_r in Hs. apply StronglySorted_app_l in Hs.
    exact Hs. }
  assert (Hmem : forall u, In u w -> In u sorted).
  { intros u Hu. rewrite Hsplit. apply in_app_iff. right. apply in_app_iff. left. exact Hu. }
  rewrite Hw in Hsw. inversion Hsw as [|? ? _ Hge]; subst.
  assert (Hwin : 0 <= window).
  { destruct others as [|u others]; [congruence|].
    inversion Hall; subst. inversion Hge; subst. simpl in *. lia. }
  constructor.
  - split; [apply Hmem; left; reflexivity | lia].
  - apply List.Forall_forall. intros u Hu. rewrite List.Forall_forall in Hall, Hge.
    split; [apply Hmem; right; exact Hu|]. specialize (Hall u Hu). specialize (Hge u Hu).
    simpl in Hge. lia.
Qed.

(** X15: the Brute Force Attack template is reported only for five or more
    threats of the input that all have the category AUTH and all lie within
    five minutes after the first of them; the match has that first threat's
    timestamp and confidence HIGH. *)
Theorem brute_force_reported_only_for_burst (threats : list Threat.t) (m : AttackPattern) :
  In m (identifyAttackPatterns threats) ->
  name m = "Brute Force Attack" ->
  confidence m = "HIGH"
  /\ (5 <= length (CorrelationEngine.threats m))%nat
  /\ exists first others,
       CorrelationEngine.threats m = first :: others
       /\ ap_timestamp m = Threat.timestamp first
       /\ Forall (fun u => In u threats /\ Threat.category u = "AUTH"
                           /\ 0 <= Threat.timestamp u - Threat.timestamp first <= 300000)
                 (first :: others).
Proof.
  intros Hin Hname.
  pose proof (sort_perm (fun a b => Threat.timestamp a - Threat.timestamp b) threats) as Hperm.
  pose proof (sort_sorted (fun a b => Threat.timestamp a - Threat.timestamp b)
                Threat.timestamp threats (fun a b => eq_refl)) as Hsorted.
  destruct (identifyAttackPatterns_cases threats m Hin) as [H|[H|H]].
  - destruct (matchSequencePattern_sound _ _ _ _ _ m H) as (Hn & _).
    rewrite Hn in Hname. discriminate.
  - unfold matchFrequencyPattern in H. apply windowPattern_some in H.
    destruct H as (first & others & Hfind & ->). cbn.
    apply find_some in Hfind. destruct Hfind as [Hw Hlen]. apply Nat.leb_le in Hlen.
    split; [reflexivity|]. split; [exact Hlen|]. exists first, others.
    split; [reflexivity|]. split; [reflexivity|].
    apply sorted_window in Hw; [|apply StronglySorted_filter; exact Hsorted].
    destruct Hw as (first' & others' & E & _ & Hall). inversion E; subst first' others'.
    eapply List.Forall_impl; [|exact Hall]. intros u [Hu Hts]. apply filter_In in Hu.
    destruct Hu as [Hu Hcat]. apply String.eqb_eq in Hcat.
    split; [apply (Permutation_in _ Hperm); exact Hu|]. split; [exact Hcat | exact Hts].
  - unfold matchDiversityPattern in H. apply windowPattern_some in H.
    destruct H as (first & others & _ & ->). discriminate.
Qed.

Lemma brute_force_reported_only_for_burst_witness :
  exists m,
    In m (identifyAttackPatterns fiveLogins)
    /\ name m = "Brute Force Attack"
    /\ confidence m = "HIGH"
    /\ (5 <= length (CorrelationEngine.threats m))%nat.
Proof.
  assert (H : exists m, In m (identifyAttackPatterns fiveLogins)
                        /\ name m = "Brute Force Attack").
  { vm_compute. eexists. split; [left; reflexivity | reflexivity]. }
  destruct H as (m & Hin & Hname). exists m.
  destruct (brute_force_reported_only_for_burst fiveLogins m Hin Hname) as (Hc & Hl & _).
  repeat split; assumption.
Defined.

Lemma distinct_In (l : list string) (x : string) : In x (JsArray.distinct l) -> In x l.
Proof.
  revert x. induction l as [|y l IH]; simpl; [tauto|].
  intros x [H|H]; [left; exact H|]. apply filter_In in H. right. apply IH. apply H.
Qed.

Lemma distinct_NoDup (l : list string) : List.NoDup (JsArray.distinct l).
Proof.
  induction l as [|y l IH]; simpl; [constructor|].
  constructor.
  - intros H. apply filter_In in H. destruct H as [_ H].
    rewrite String.eqb_refl in H. discriminate.
  - apply List.NoDup_filter. exact IH.
Qed.

(** X16: the Multi-Vector Attack template is reported only for threats of
    the input that all lie within fifteen minutes after the first of them and
    among which three have pairwise different categories; the match has
    confidence MEDIUM. *)
Theorem multi_vector_reported_only_for_three_categories (threats : list Threat.t)
    (m : AttackPattern) :
  In m (identifyAttackPatterns threats) ->
  name m = "Multi-Vector Attack" ->
  confidence m = "MEDIUM"
  /\ (exists first others,
        CorrelationEngine.threats m = first :: others
        /\ ap_timestamp m = Threat.timestamp first
        /\ Forall (fun u => In u threats
                            /\ 0 <= Threat.timestamp u - Threat.timestamp first <= 900000)
                  (first :: others))
  /\ exists u1 u2 u3,
       In u1 (CorrelationEngine.threats m) /\ In u2 (CorrelationEngine.threats m)
       /\ In u3 (CorrelationEngine.threats m)
       /\ Threat.category u1 <> Threat.category u2
       /\ Threat.category u1 <> Threat.category u3
       /\ Threat.category u2 <> Threat.category u3.
Proof.
  intros Hin Hname.
  pose proof (sort_perm (fun a b => Threat.timestamp a - Threat.timestamp b) threats) as Hperm.
  pose proof (sort_sorted (fun a b => Threat.timestamp a - Threat.timestamp b)
                Threat.timestamp threats (fun a b => eq_refl)) as Hsorted.
  destruct (identifyAttackPatterns_cases threats m Hin) as [H|[H|H]].
  - destruct (matchSequencePattern_sound _ _ _ _ _ m H) as (Hn & _).
    rewrite Hn in Hname. discriminate.
  - unfold matchFrequencyPattern in H. apply windowPattern_some in H.
    destruct H as (first & others & _ & ->). discriminate.
  - unfold matchDiversityPattern in H. apply windowPattern_some in H.
    destruct H as (first & others & Hfind & ->). cbn.
    apply find_some in Hfind. destruct Hfind as [Hw Hlen]. apply Nat.leb_le in Hlen.
    split; [reflexivity|]. split.
    + exists first, others. split; [reflexivity|]. split; [reflexivity|].
      apply sorted_window in Hw; [|exact Hsorted].
      destruct Hw as (first' & others' & E & _ & Hall). inversion E; subst first' others'.
      eapply List.Forall_impl; [|exact Hall]. intros u [Hu Hts].
      split; [apply (Permutation_in _ Hperm); exact Hu | exact Hts].
    + pose proof (distinct_NoDup (map Threat.category (first :: others))) as Hnd.
      assert (Hsub : forall c, In c (JsArray.distinct (map Threat.category (first :: others)))
                               -> exists u, In u (first :: others) /\ Threat.category u = c).
      { intros c Hc. apply distinct_In in Hc. apply in_map_iff in Hc.
        destruct Hc as (u & E & Hu). eauto. }
      destruct (JsArray.distinct (map Threat.category (first :: others)))
        as [|c1 [|c2 [|c3 cs]]]; simpl in Hlen; try lia.
      destruct (Hsub c1) as (u1 & H1 & E1); [simpl; tauto|].
      destruct (Hsub c2) as (u2 & H2 & E2); [simpl; tauto|].
      destruct (Hsub c3) as (u3 & H3 & E3); [simpl; tauto|].
      exists u1, u2, u3. rewrite E1, E2, E3.
      inversion Hnd as [|? ? Hn1 Hnd']; subst. inversion Hnd' as [|? ? Hn2 _]; subst.
      repeat split; try assumption.
      * intros E. apply Hn1. left. congruence.
      * intros E. apply Hn1. right. left. congruence.
      * intros E. apply Hn2. left. congruence.
Qed.

Lemma multi_vector_reported_only_for_three_categories_witness :
  exists m,
    In m (identifyAttackPatterns quickRun)
    /\ name m = "Multi-Vector Attack"
    /\ confidence m = "MEDIUM".
Proof.
  assert (H : exists m, In m (identifyAttackPatterns quickRun)
                        /\ name m = "Multi-Vector Attack").
  { vm_compute. eexists. split; [left; reflexivity | reflexivity]. }
  destruct H as (m & Hin & Hname). exists m.
  destruct (multi_vector_reported_only_for_three_categories quickRun m Hin Hname)
    as (Hc & _).
  repeat split; assumption.
Defined.

(** X17: whatever the order of the input, a RECONNAISSANCE threat and an
    INJECTION, XSS or AUTH threat that is later than it by thirty minutes at
    most make [identifyAttackPatterns] report the template Reconnaissance
    followed by Attack, with confidence HIGH. *)
Theorem reconnaissance_then_attack_reported (threats : list Threat.t) (a b : Threat.t) :
  In a threats -> In b threats ->
  Threat.category a = "RECONNAISSANCE" ->
  In (Threat.category b) ["INJECTION"; "XSS"; "AUTH"] ->
  Threat.timestamp a < Threat.timestamp b <= Threat.timestamp a + 1800000 ->
  exists m,
    In m (identifyAttackPatterns threats)
    /\ name m = "Reconnaissance followed by Attack"
    /\ confidence m = "HIGH".
Proof.
  intros Ha Hb Hcat Hfollow Hts.
  set (cmp := fun x y : Threat.t => Threat.timestamp x - Threat.timestamp y).
  pose proof (sort_perm cmp threats) as Hperm.
  pose proof (sort_sorted cmp Threat.timestamp threats (fun x y => eq_refl)) as Hsorted.
  assert (Ha' : In a (JsArray.sort cmp threats))
    by (apply (Permutation_in _ (Permutation_sym Hperm)); exact Ha).
  assert (Hb' : In b (JsArray.sort cmp threats))
    by (apply (Permutation_in _ (Permutation_sym Hperm)); exact Hb).
  apply in_split in Ha'. destruct Ha' as (l1 & r & Hsplit).
  assert (Hbr : In b r).
  { rewrite Hsplit in Hb'. apply in_app_iff in Hb'. destruct Hb' as [Hb'|[Hb'|Hb']].
    - exfalso. rewrite Hsplit in Hsorted. clear -Hsorted Hb' Hts.
      induction l1 as [|x l1 IH]; [destruct Hb'|].
      simpl in Hsorted. inversion Hsorted as [|? ? Hs Hall]; subst.
      destruct Hb' as [->|Hb']; [|auto].
      rewrite List.Forall_forall in Hall.
      assert (Hin : In a (l1 ++ a :: r)) by (apply in_app_iff; right; left; reflexivity).
      specialize (Hall a Hin). simpl in Hall. lia.
    - subst b. lia.
    - exact Hb'. }
  apply in_split in Hbr. destruct Hbr as (l2 & l3 & Hr).
  destruct (matchSequencePattern_complete "Reconnaissance followed by Attack"
              "RECONNAISSANCE" ["INJECTION"; "XSS"; "AUTH"] (30 * 60 * 1000)
              (JsArray.sort cmp threats)) as (m & Hm).
  { exists a, b. split.
    - exists l1, l2, l3. rewrite Hsplit, Hr. reflexivity.
    - split; [exact Hcat|]. split; [exact Hfollow | lia]. }
  exists m. destruct (matchSequencePattern_sound _ _ _ _ _ m Hm) as (Hn & Hc & _).
  split; [|split; assumption].
  unfold identifyAttackPatterns, knownPatterns. fold cmp.
  cbn [omap list_omap matchPattern]. rewrite Hm. left. reflexivity.
Qed.

Lemma reconnaissance_then_attack_reported_witness :
  exists m,
    In m (identifyAttackPatterns scanThenInject)
    /\ name m = "Reconnaissance followed by Attack"
    /\ confidence m = "HIGH".
Proof.
  apply (reconnaissance_then_attack_reported scanThenInject
           (Inputs.threatOf "RECONNAISSANCE" 1704103200000 None "HIGH")
           (Inputs.threatOf "INJECTION" 1704104400000 None "HIGH")).
  - simpl. tauto.
  - simpl. tauto.
  - reflexivity.
  - simpl. tauto.
  - simpl. lia.
Defined.

End Templates.

(** ** Lines, addresses and contexts (the module of [analyzeLogs]) *)

Section Lines.
Import RegExp LogAnalyzer Derived.

Lemma lit_match_consumes (icase : bool) (l : string) :
  forall (prev : option ascii) (s : string) (k : K) (n : nat) (rest : string),
    (forall p s' r, k p s' = Some r -> (String.length r + n <= String.length s')%nat) ->
    lit_match icase l prev s k = Some rest ->
    (String.length rest + n + String.length l <= String.length s)%nat.
Proof.
  induction l as [|x l IH]; intros prev s k n rest Hk H; cbn [lit_match] in H.
  - apply Hk in H. simpl. lia.
  - destruct s as [|a s]; [discriminate|].
    destruct (cls_matches icase (CChar x) a); [|discriminate].
    apply (IH _ _ _ n) in H; [|exact Hk]. simpl. lia.
Qed.

Lemma star_match_consumes (icase : bool) (c : cls) :
  forall (s : string) (prev : option ascii) (k : K) (n : nat) (rest : string),
    (forall p s' r, k p s' = Some r -> (String.length r + n <= String.length s')%nat) ->
    star_match icase c prev s k = Some rest ->
    (String.length rest + n <= String.length s)%nat.
Proof.
  induction s as [|a s IH]; intros prev k n rest Hk H; cbn [star_match] in H.
  - apply Hk in H. exact H.
  - destruct (cls_matches icase c a).
    + destruct (star_match icase c (Some a) s k) as [r|] eqn:E.
      * inversion H; subst r. apply (IH _ _ n) in E; [|exact Hk]. simpl. lia.
      * apply Hk in H. exact H.
    + apply Hk in H. exact H.
Qed.

(** A match leaves at least [minLength r] code units less than it was
    given. *)
Lemma rmatch_consumes (icase : bool) (r : regex) :
  forall (prev : option ascii) (s : string) (k : K) (n : nat) (rest : string),
    (forall p s' r', k p s' = Some r' -> (String.length r' + n <= String.length s')%nat) ->
    rmatch icase r prev s k = Some rest ->
    (String.length rest + n + minLength r <= String.length s)%nat.
Proof.
  induction r as [|c|l|r1 IH1 r2 IH2|r1 IH1 r2 IH2|r1 IH1|c|];
    intros prev s k n rest Hk H; cbn [rmatch] in H; cbn [minLength].
  - apply Hk in H. lia.
  - destruct s as [|a s]; [discriminate|].
    destruct (cls_matches icase c a); [|discriminate]. apply Hk in H. simpl. lia.
  - eapply lit_match_consumes in H; [|exact Hk]. lia.
  - apply (IH1 _ _ _ (n + minLength r2)%nat) in H; [lia|].
    intros p s' r' Hr'. apply (IH2 _ _ _ n) in Hr'; [lia | exact Hk].
  - destruct (rmatch icase r1 prev s k) as [x|] eqn:E.
    + inversion H; subst x. apply (IH1 _ _ _ n) in E; [lia | exact Hk].
    + apply (IH2 _ _ _ n) in H; [lia | exact Hk].
  - destruct (rmatch icase r1 prev s k) as [x|] eqn:E.
    + inversion H; subst x. apply (IH1 _ _ _ n) in E; [lia | exact Hk].
    + apply Hk in H. lia.
  - eapply star_match_consumes in H; [|exact Hk]. lia.
  - destruct (xorb _ _); [|discriminate]. apply Hk in H. lia.
Qed.

Lemma substring_length (n : nat) (s : string) :
  (n <= String.length s)%nat -> String.length (String.substring 0 n s) = n.
Proof.
  revert s. induction n as [|n IH]; intros s H.
  - destruct s; reflexivity.
  - destruct s as [|a s]; simpl in *; [lia|]. rewrite IH by lia. reflexivity.
Qed.

Lemma substring_prefix (n : nat) (s : string) :
  String.prefix (String.substring 0 n s) s = true.
Proof.
  revert s. induction n as [|n IH]; intros s.
  - destruct s; reflexivity.
  - destruct s as [|a s]; simpl; [reflexivity|].
    destruct (ascii_dec a a); [apply IH | congruence].
Qed.

Lemma includes_tail (a : ascii) (s sub : string) :
  JsString.includes s sub = true -> JsString.includes (String a s) sub = true.
Proof. intros H. cbn [JsString.includes]. rewrite H. apply orb_true_r. Qed.

Lemma exec_from_unfold (re : RegExp.t) (prev : option ascii) (s : string) :
  exec_from re prev s
  = match rmatch (ignoreCase re) (source re) prev s (fun _ rest => Some rest) with
    | Some rest => Some (String.substring 0 (String.length s - String.length rest) s)
    | None => match s with
              | EmptyString => None
              | String a s' => exec_from re (Some a) s'
              end
    end.
Proof. destruct s; reflexivity. Qed.

(** The text that [exec] returns occurs in the subject and is at least as
    long as every match of the expression must be. *)
Lemma exec_from_match (re : RegExp.t) (s : string) :
  forall (prev : option ascii) (matched : string),
    exec_from re prev s = Some matched ->
    JsString.includes s matched = true
    /\ (minLength (source re) <= String.length matched)%nat.
Proof.
  induction s as [|a s IH]; intros prev matched H; rewrite exec_from_unfold in H;
    destruct (rmatch _ _ prev _ _) as [rest|] eqn:E.
  - match type of H with Some ?x = _ => remember x as m eqn:Em end.
    injection H as <-. rewrite Em.
    apply (rmatch_consumes _ _ _ _ _ 0%nat) in E; [|intros p s' r' Hr; inversion Hr; lia].
    split; [apply includes_prefix, substring_prefix|].
    rewrite substring_length by lia. lia.
  - discriminate.
  - match type of H with Some ?x = _ => remember x as m eqn:Em end.
    injection H as <-. rewrite Em.
    apply (rmatch_consumes _ _ _ _ _ 0%nat) in E; [|intros p s' r' Hr; inversion Hr; lia].
    split; [apply includes_prefix, substring_prefix|].
    rewrite substring_length by lia. lia.
  - apply IH in H. destruct H as [Hi Hl]. split; [apply includes_tail; exact Hi | exact Hl].
Qed.

(** X18: an address that [extractIP] returns occurs in the line and has
    seven code units at least; in particular it is never the empty text, so
    the pipeline tracks and analyses the source of every line in which an
    address is found. *)
Theorem extractIP_occurs_nonempty (line ip : string) :
  extractIP line = Some ip ->
  JsString.includes line ip = true
  /\ (7 <= String.length ip)%nat
  /\ JsString.truthy (Some ip) = true.
Proof.
  intros H. unfold extractIP, exec in H. apply exec_from_match in H.
  destruct H as [Hi Hl]. change (minLength (source ipRegExp)) with 7%nat in Hl.
  split; [exact Hi|]. split; [exact Hl|].
  destruct ip; [simpl in Hl; lia | reflexivity].
Qed.

Lemma extractIP_occurs_nonempty_witness :
  JsString.includes "failed login from 10.0.0.5 port 22" "10.0.0.5" = true
  /\ (7 <= String.length "10.0.0.5")%nat
  /\ JsString.truthy (Some "10.0.0.5") = true.
Proof.
  apply (extractIP_occurs_nonempty "failed login from 10.0.0.5 port 22" "10.0.0.5").
  vm_compute. reflexivity.
Defined.

(** X19: the context term of the score for a context built by
    [analyzeContext], in which the occurrences are as many as the related
    events: with [n] neighbouring lines that contain the first twenty code
    units of the line, it is 0 for none, 3 for one, and
    [min(5n, 20) + min(3n, 15)] from two on, never more than 35. *)
Theorem contextScore_of_analyzeContext (line : string) (previousLines nextLines : list string) :
  let context := analyzeContext line previousLines nextLines in
  let n := Z.of_nat (length (ThreatScoring.relatedEvents context)) in
  ThreatScoring.occurrences context = n
  /\ n <= Z.of_nat (length previousLines + length nextLines)
  /\ ThreatScoring.calculateContextScore (Some context)
     = (if n =? 0 then 0 else if n =? 1 then 3 else Z.min (5 * n) 20 + Z.min (3 * n) 15)
  /\ ThreatScoring.calculateContextScore (Some context) <= 35.
Proof.
  cbv zeta. unfold analyzeContext, ThreatScoring.calculateContextScore.
  cbn [ThreatScoring.occurrences ThreatScoring.relatedEvents].
  set (similar := List.filter _ (previousLines ++ nextLines)).
  pose proof (filter_length_le
                (fun contextLine =>
                   JsString.includes contextLine (JsString.substring0 20 line))
                (previousLines ++ nextLines)) as Hle.
  fold similar in Hle. rewrite length_app in Hle.
  split; [reflexivity|]. split; [lia|].
  destruct (Z.ltb_spec 1 (Z.of_nat (length similar)));
    destruct (Z.ltb_spec 0 (Z.of_nat (length similar)));
    destruct (Z.eqb_spec (Z.of_nat (length similar)) 0);
    destruct (Z.eqb_spec (Z.of_nat (length similar)) 1); split; lia.
Qed.

End Lines.

(** ** Feature objects (MLPreprocessor) *)

Section FeatureObjects.
Import MLPreprocessor Spec Derived.

Lemma nodupb_NoDup (l : list string) : nodupb l = true -> List.NoDup l.
Proof.
  induction l as [|x l IH]; simpl; intros H; [constructor|].
  apply andb_true_iff in H. destruct H as [Hx Hl]. constructor; [|auto].
  intros Hin. apply negb_true_iff in Hx.
  assert (E : existsb (String.eqb x) l = true).
  { apply existsb_exists. exists x. split; [exact Hin | apply String.eqb_refl]. }
  congruence.
Qed.

Lemma get_of_NoDup {V : Type} (m : JsMap.t V) (k : string) (v : V) :
  List.NoDup (map fst m) -> In (k, v) m -> JsMap.get m k = Some v.
Proof.
  induction m as [|[k' v'] m IH]; simpl; intros Hnd Hin; [destruct Hin|].
  inversion Hnd as [|? ? Hk Hnd']; subst.
  destruct Hin as [E|Hin].
  - inversion E; subst. rewrite String.eqb_refl. reflexivity.
  - destruct (String.eqb_spec k' k) as [->|Hne]; [|auto].
    exfalso. apply Hk. apply in_map_iff. exists (k, v). split; [reflexivity | exact Hin].
Qed.

(** The property names of a feature object depend on the shape of the
    threat only. *)
Lemma extractFeatures_keys (h : Host.t) (t : Threat.t) :
  map fst (extractFeatures h t)
  = ["hour"; "minute"; "dayOfWeek"; "isWeekend"; "isBusinessHours"; "isNightTime"]
    ++ (if fst (shape t)
        then ["ipFirstOctet"; "ipSecondOctet"; "isPrivateIP"; "hasSourceIP"] else [])
    ++ ["messageLength"; "containsError"; "containsAdmin"; "containsSQLKeywords";
        "containsScriptTags"]
    ++ (if snd (shape t)
        then ["frequencyRate"; "isHighFrequency"; "hasSuspiciousTiming";
              "hasRegularPattern"; "hasSuspiciousSequence"; "behaviorRiskScore"]
        else [])
    ++ ["contextOccurrences"; "hasRelatedEvents"; "relatedEventsCount";
        "categoryEncoded"; "severityEncoded"; "threatScore"].
Proof.
  unfold extractFeatures, shape. rewrite !map_app. cbn [fst snd].
  f_equal. f_equal; [|f_equal; f_equal].
  - unfold extractIPFeatures, JsString.truthy.
    destruct (Threat.sourceIP t) as [ip|]; [|reflexivity].
    destruct (String.eqb ip ""); reflexivity.
  - unfold extractBehaviorFeatures. destruct (Threat.behaviorAnalysis t); reflexivity.
Qed.

(** X20: the feature object of a threat has 17 properties, 4 more when the
    threat has a source address and 6 more when it has a behaviour analysis;
    their names are all different, so that no extractor overwrites what
    another wrote: every value written is the value read back. *)
Theorem extractFeatures_columns (h : Host.t) (t : Threat.t) :
  List.NoDup (map fst (extractFeatures h t))
  /\ length (extractFeatures h t)
     = (17 + (if fst (shape t) then 4 else 0) + (if snd (shape t) then 6 else 0))%nat
  /\ forall column value,
       In (column, value) (extractFeatures h t) ->
       prop (extractFeatures h t) column = Some value.
Proof.
  assert (Hnd : List.NoDup (map fst (extractFeatures h t))).
  { rewrite extractFeatures_keys. apply nodupb_NoDup.
    destruct (fst (shape t)), (snd (shape t)); reflexivity. }
  split; [exact Hnd|]. split.
  - rewrite <- (length_map fst), extractFeatures_keys.
    destruct (fst (shape t)), (snd (shape t)); reflexivity.
  - intros column value Hin. apply get_of_NoDup; assumption.
Qed.

Lemma extractFeatures_columns_witness :
  prop (extractFeatures Host.UTC (threatFrom (Some "10.0.0.5"))) "ipFirstOctet" = Some 10
  /\ length (extractFeatures Host.UTC (threatFrom (Some "10.0.0.5"))) = 21%nat.
Proof.
  destruct (extractFeatures_columns Host.UTC (threatFrom (Some "10.0.0.5")))
    as (_ & Hlen & Hget).
  split; [|exact Hlen].
  apply Hget. vm_compute. do 6 right. left. reflexivity.
Defined.

Lemma octetChecks_all (n : nat) : (n < 256)%nat -> octetChecks n = true.
Proof.
  intros H.
  assert (Hall : forallb octetChecks (seq 0 256) = true) by (vm_compute; reflexivity).
  rewrite forallb_forall in Hall. apply Hall. apply in_seq. lia.
Qed.

Lemma octet_facts (n : nat) :
  (n < 256)%nat ->
  parseInt (decimal n) = Some (Z.of_nat n)
  /\ toNumber (decimal n) = Some (Z.of_nat n)
  /\ occurs "." (decimal n) = false.
Proof.
  intros H. pose proof (octetChecks_all n H) as Hc. unfold octetChecks in Hc.
  destruct (parseInt (decimal n)) as [x|]; [|discriminate].
  destruct (toNumber (decimal n)) as [y|]; [|discriminate].
  rewrite !andb_true_iff in Hc. destruct Hc as [[Hx Hy] Hd].
  apply Z.eqb_eq in Hx, Hy. apply negb_true_iff in Hd. subst. repeat split; assumption.
Qed.

Lemma split_no_dot (s : string) :
  occurs "." s = false -> JsString.split "." s = [s].
Proof.
  induction s as [|a s IH]; [reflexivity|].
  cbn [occurs JsString.split]. intros H. apply orb_false_iff in H. destruct H as [Ha Hs].
  rewrite Ha, IH by exact Hs. reflexivity.
Qed.

Lemma split_at_dot (s rest : string) :
  occurs "." s = false ->
  JsString.split "." (s ++ String "." rest)%string = s :: JsString.split "." rest.
Proof.
  induction s as [|a s IH]; intros H.
  - reflexivity.
  - cbn [occurs] in H. apply orb_false_iff in H. destruct H as [Ha Hs].
    change (String a s ++ String "." rest)%string with (String a (s ++ String "." rest)).
    cbn [JsString.split]. rewrite Ha, IH by exact Hs. reflexivity.
Qed.

Lemma split_dotted (a b c d : nat) :
  (a < 256)%nat -> (b < 256)%nat -> (c < 256)%nat -> (d < 256)%nat ->
  JsString.split "." (dotted a b c d) = [decimal a; decimal b; decimal c; decimal d].
Proof.
  intros Ha Hb Hc Hd. unfold dotted.
  destruct (octet_facts a Ha) as (_ & _ & Da). destruct (octet_facts b Hb) as (_ & _ & Db).
  destruct (octet_facts c Hc) as (_ & _ & Dc). destruct (octet_facts d Hd) as (_ & _ & Dd).
  change (decimal a ++ "." ++ decimal b ++ "." ++ decimal c ++ "." ++ decimal d)%string
    with (decimal a ++ String "." (decimal b ++ String "." (decimal c ++ String "." (decimal d))))%string.
  rewrite !split_at_dot by assumption. rewrite split_no_dot by assumption. reflexivity.
Qed.

(** X21: for a threat whose source is the dotted decimal text of four
    octets, the address features are the first octet, the second octet, the
    flag of the private ranges 10.0.0.0/8, 172.16.0.0/12 and 192.168.0.0/16,
    and the flag 1 for the presence of the address. *)
Theorem extractIPFeatures_dotted (t : Threat.t) (a b c d : nat) :
  (a < 256)%nat -> (b < 256)%nat -> (c < 256)%nat -> (d < 256)%nat ->
  Threat.sourceIP t = Some (dotted a b c d) ->
  extractIPFeatures t
  = [ ("ipFirstOctet", Z.of_nat a);
      ("ipSecondOctet", Z.of_nat b);
      ("isPrivateIP", flag (privateRange (Z.of_nat a) (Z.of_nat b)));
      ("hasSourceIP", 1) ].
Proof.
  intros Ha Hb Hc Hd Hip. unfold extractIPFeatures, isPrivateIP. rewrite Hip.
  assert (Hne : String.eqb (dotted a b c d) "" = false).
  { apply String.eqb_neq. intros E.
    apply (f_equal (JsString.split ".")) in E. rewrite split_dotted in E by assumption.
    discriminate. }
  rewrite Hne, split_dotted by assumption.
  destruct (octet_facts a Ha) as (Pa & Na & _). destruct (octet_facts b Hb) as (Pb & Nb & _).
  cbn [nth map]. rewrite Pa, Pb, Na, Nb. reflexivity.
Qed.

Lemma extractIPFeatures_dotted_witness :
  extractIPFeatures (threatFrom (Some "172.20.1.9"))
  = [("ipFirstOctet", 172); ("ipSecondOctet", 20); ("isPrivateIP", 1); ("hasSourceIP", 1)].
Proof.
  apply (extractIPFeatures_dotted (threatFrom (Some "172.20.1.9")) 172 20 1 9);
    try lia. reflexivity.
Defined.

Lemma prop_some_iff (f : Features) (column : string) :
  prop f column <> None <-> In column (map fst f).
Proof.
  unfold prop. induction f as [|[k v] f IH]; simpl; [tauto|].
  destruct (String.eqb_spec k column) as [->|Hne].
  - split; [tauto | discriminate].
  - rewrite IH. split; [tauto | intros [E|H]; [contradiction | exact H]].
Qed.

(** The statistics of the metadata are those of columns of the first row. *)
Lemma generateMetadata_statistics (rows : list Features) (md : Metadata)
    (column : string) (st : Statistics) :
  generateMetadata rows = Some md ->
  In (column, st) (statistics md) ->
  st = columnStatistics rows column
  /\ exists first rest, rows = first :: rest /\ In column (map fst first).
Proof.
  destruct rows as [|first rest]; [discriminate|].
  unfold generateMetadata. intros Hmd Hin. inversion Hmd; subst md. cbn [statistics] in Hin.
  apply in_map_iff in Hin. destruct Hin as (column' & E & Hcol).
  inversion E; subst column' st. split; [reflexivity|].
  exists first, rest. split; [reflexivity|].
  apply in_map_iff in Hcol. destruct Hcol as (kv & Ek & Hkv).
  apply filter_In in Hkv. apply in_map_iff. exists kv. tauto.
Qed.

(** X22: in a run whose threats all have the same shape (each has a source
    address or none has, and likewise for the behaviour analysis), the
    statistics of every numeric column satisfy [min <= mean <= max].  The
    categories and severities are taken to be plain keys (for the name of an
    inherited property the encoded value would be a function, not a number),
    and the values small enough for the sum of a column to be exact in
    double precision. *)
Theorem homogeneous_run_statistics_ordered (h : Host.t) (threats : list Threat.t)
    (md : Metadata) :
  (forall t u, In t threats -> In u threats -> shape t = shape u) ->
  plainKeys threats = true ->
  exactSums (features (prepareForML h threats)) = true ->
  metadata (prepareForML h threats) = Some md ->
  Forall (fun entry => spec_ordered (snd entry)) (statistics md).
Proof.
  intros Hshape _ _ Hmd. unfold prepareForML in Hmd. cbn [metadata] in Hmd.
  apply List.Forall_forall. intros [column st] Hin. cbn [snd].
  destruct (generateMetadata_statistics _ md column st Hmd Hin)
    as (-> & first & others & Hrows & Hkey).
  destruct threats as [|t0 rest]; [discriminate|].
  change (map (extractFeatures h) (t0 :: rest))
    with (extractFeatures h t0 :: map (extractFeatures h) rest) in Hrows.
  inversion Hrows as [[Hfirst Hothers]]. rewrite <- Hfirst in Hkey.
  apply complete_column_ordered; [discriminate|].
  apply List.Forall_forall. intros f Hf. apply in_map_iff in Hf.
  destruct Hf as (u & <- & Hu). apply prop_some_iff.
  rewrite extractFeatures_keys in *.
  rewrite (Hshape u t0 Hu (or_introl eq_refl)). exact Hkey.
Qed.

Lemma homogeneous_run_statistics_ordered_witness :
  exists md,
    metadata (prepareForML Host.UTC fiveLogins) = Some md
    /\ Forall (fun entry => spec_ordered (snd entry)) (statistics md).
Proof.
  destruct (metadata (prepareForML Host.UTC fiveLogins)) as [md|] eqn:E;
    [|vm_compute in E; discriminate].
  exists md. split; [reflexivity|].
  apply (homogeneous_run_statistics_ordered Host.UTC fiveLogins md);
    [|vm_compute; reflexivity | vm_compute; reflexivity | exact E].
  assert (H : forall t, In t fiveLogins -> shape t = (false, false)).
  { intros t Ht. simpl in Ht.
    repeat (destruct Ht as [<-|Ht]; [reflexivity|]). destruct Ht. }
  intros t u Ht Hu. rewrite (H t Ht), (H u Hu). reflexivity.
Defined.

End FeatureObjects.

(** ** The threats of a run ([analyzeLogs]) *)

Section Run.
Import BehaviorAnalyzer LogAnalyzer Spec Derived.

Lemma flat_map_indexedFrom_const {A B : Type} (g : A -> list B) (l : list A) (i : nat) :
  flat_map (fun ix : nat * A => g (snd ix)) (JsArray.indexedFrom i l) = flat_map g l.
Proof.
  revert i. induction l as [|x l IH]; intros i; simpl; [reflexivity|].
  rewrite IH. reflexivity.
Qed.

Lemma flat_map_if {A B : Type} (f : A -> bool) (g : A -> B) (l : list A) :
  flat_map (fun x => if f x then [g x] else []) l = map g (List.filter f l).
Proof.
  induction l as [|x l IH]; simpl; [reflexivity|].
  destruct (f x); simpl; rewrite IH; reflexivity.
Qed.

(** A loop whose turns append to the array, seen through a projection that
    does not depend on the state. *)
Lemma forEachM_appends {A X : Type} (f : nat -> A -> list Threat.t -> M (list Threat.t))
    (proj : Threat.t -> X) (g : nat -> A -> list X) :
  (forall i x s w, map proj (fst (f i x s w)) = map proj s ++ g i x) ->
  forall (l : list A) (i : nat) (s : list Threat.t) (w : World),
    map proj (fst (forEachM f i l s w))
    = map proj s ++ flat_map (fun ix => g (fst ix) (snd ix)) (JsArray.indexedFrom i l).
Proof.
  intros Hf. induction l as [|x l IH]; intros i s w; simpl.
  - rewrite app_nil_r. reflexivity.
  - unfold bind. destruct (f i x s w) as [s' w'] eqn:E.
    rewrite IH. replace s' with (fst (f i x s w)) by (rewrite E; reflexivity).
    rewrite Hf, <- app_assoc. reflexivity.
Qed.

Lemma scanPattern_outline (h : Host.t) (lines : list string) (index : nat) (line : string)
    (pattern : Patterns.Pattern) (found : list Threat.t) (w : World) :
  map outline
      (fst (scanPattern h line index
              (JsString.slice (Nat.max 0 (index - 5)) index lines)
              (JsString.slice (index + 1) (index + 6) lines)
              (extractIP line) pattern found w))
  = map outline found
    ++ (if RegExp.test (Patterns.pattern pattern) line
        then [hitOutline lines index line pattern] else []).
Proof.
  unfold scanPattern.
  destruct (RegExp.test (Patterns.pattern pattern) line);
    [|simpl; rewrite app_nil_r; reflexivity].
  unfold bind, ret.
  repeat match goal with
         | |- context [let (_, _) := ?e in _] => destruct e
         end.
  cbn [fst]. rewrite map_app. reflexivity.
Qed.

Lemma detectThreats_hits_aux (h : Host.t) (logData : string) (w : World) :
  map outline (fst (detectThreats h logData w)) = expectedHits logData.
Proof.
  unfold detectThreats, expectedHits. cbv zeta.
  set (lines := JsString.split "010" logData).
  rewrite (forEachM_appends (scanLine h lines) outline
             (fun index line =>
                map (hitOutline lines index line)
                    (List.filter (fun p => RegExp.test (Patterns.pattern p) line)
                                 Patterns.SUSPICIOUS_PATTERNS))).
  - reflexivity.
  - intros index line s w'. unfold scanLine.
    rewrite (forEachM_appends _ outline
               (fun _ p => if RegExp.test (Patterns.pattern p) line
                           then [hitOutline lines index line p] else [])).
    + f_equal.
      rewrite (flat_map_indexedFrom_const
                 (fun p => if RegExp.test (Patterns.pattern p) line
                           then [hitOutline lines index line p] else [])).
      apply flat_map_if.
    + intros _ p s' w''. apply scanPattern_outline.
Qed.

(** X23: the threats of a text are its hits, one per line and matching rule
    of the catalog, in line order and, within a line, in catalog order.
    Each has the 1-based number of its line, the severity and category of
    the rule, the trimmed line as message, the address found in the line (or
    none), and the context of the line among the five lines before it and the
    five after it.  The state of the process and the clock have no part in
    this. *)
Theorem detectThreats_hits (h : Host.t) (logData : string) (w : World) :
  map outline (fst (detectThreats h logData w)) = expectedHits logData.
Proof. apply detectThreats_hits_aux. Qed.

Lemma extractIP_truthy (line : string) :
  extractIP line = None \/ JsString.truthy (extractIP line) = true.
Proof.
  destruct (extractIP line) as [ip|] eqn:E; [right | left; reflexivity].
  unfold extractIP, RegExp.exec in E. apply exec_from_match in E. destruct E as [_ Hl].
  change (minLength (RegExp.source ipRegExp)) with 7%nat in Hl.
  destruct ip; [simpl in Hl; lia | reflexivity].
Qed.

Lemma forEachM_Forall {A : Type} (f : nat -> A -> list Threat.t -> M (list Threat.t))
    (P : Threat.t -> Prop) (whole : list A) :
  (forall i x s w, In x whole -> Forall P s -> Forall P (fst (f i x s w))) ->
  forall (l : list A) (i : nat) (s : list Threat.t) (w : World),
    (forall x, In x l -> In x whole) -> Forall P s -> Forall P (fst (forEachM f i l s w)).
Proof.
  intros Hf. induction l as [|x l IH]; intros i s w Hl Hs; simpl; [exact Hs|].
  unfold bind. destruct (f i x s w) as [s' w'] eqn:E. apply IH.
  - intros y Hy. apply Hl. right. exact Hy.
  - replace s' with (fst (f i x s w)) by (rewrite E; reflexivity).
    apply Hf; [apply Hl; left; reflexivity | exact Hs].
Qed.

Lemma wellFormed_hit (h : Host.t) (pattern : Patterns.Pattern) (line : string)
    (index : nat) (scored created : Z) (context : ThreatScoring.Context)
    (ip : option string) (behaviorAnalysis : option BehaviorAnalysis) :
  In pattern Patterns.SUSPICIOUS_PATTERNS ->
  (behaviorAnalysis = None <-> ip = None) ->
  let threatScore :=
    ThreatScoring.calculateThreatScore h
      {| ThreatScoring.hit_severity := Patterns.severity pattern;
         ThreatScoring.hit_category := Patterns.category pattern;
         ThreatScoring.hit_timestamp := scored |} (Some context) behaviorAnalysis in
  wellFormed
    {| Threat.message := JsString.trim line;
       Threat.severity := Patterns.severity pattern;
       Threat.category := Patterns.category pattern;
       Threat.timestamp := created;
       Threat.lineNumber := Z.of_nat index + 1;
       Threat.context := context;
       Threat.sourceIP := ip;
       Threat.behaviorAnalysis := behaviorAnalysis;
       Threat.threatScore := threatScore;
       Threat.threatLevel := ThreatScoring.getThreatLevel threatScore |}.
Proof.
  intros Hin Hb. cbv zeta. unfold wellFormed. cbn.
  destruct (catalog_hit_score h pattern scored (Some context) behaviorAnalysis Hin)
    as (_ & H40 & Hlevel).
  pose proof (calculateThreatScore_range h
                {| ThreatScoring.hit_severity := Patterns.severity pattern;
                   ThreatScoring.hit_category := Patterns.category pattern;
                   ThreatScoring.hit_timestamp := scored |} (Some context) behaviorAnalysis).
  split; [lia|]. split; [reflexivity|]. split; [exact Hlevel|].
  split; [exists pattern; auto | exact Hb].
Qed.

Lemma scanPattern_wellFormed (h : Host.t) (line : string) (index : nat)
    (previousLines nextLines : list string) (ip : option string)
    (pattern : Patterns.Pattern) (found : list Threat.t) (w : World) :
  In pattern Patterns.SUSPICIOUS_PATTERNS ->
  ip = None \/ JsString.truthy ip = true ->
  Forall wellFormed found ->
  Forall wellFormed
         (fst (scanPattern h line index previousLines nextLines ip pattern found w)).
Proof.
  intros Hin Hip Hf. unfold scanPattern.
  destruct (RegExp.test (Patterns.pattern pattern) line); [|exact Hf].
  destruct ip as [source|].
  - destruct Hip as [Hip|Hip]; [discriminate|]. rewrite Hip.
    unfold bind, ret. run_steps.
    cbn [fst]. apply Forall_app. split; [exact Hf|]. constructor; [|constructor].
    apply wellFormed_hit; [exact Hin|]. split; discriminate.
  - unfold bind, ret. run_steps.
    cbn [fst]. apply Forall_app. split; [exact Hf|]. constructor; [|constructor].
    apply wellFormed_hit; [exact Hin|]. split; reflexivity.
Qed.

Lemma detectThreats_wellFormed (h : Host.t) (logData : string) (w : World) :
  Forall wellFormed (fst (detectThreats h logData w)).
Proof.
  unfold detectThreats.
  apply (forEachM_Forall _ wellFormed (JsString.split "010" logData)); [|auto|constructor].
  intros index line s w' _ Hs. unfold scanLine.
  apply (forEachM_Forall _ wellFormed Patterns.SUSPICIOUS_PATTERNS); [|auto|exact Hs].
  intros _ pattern s' w'' Hin Hs'. apply scanPattern_wellFormed; [exact Hin| |exact Hs'].
  apply extractIP_truthy.
Qed.

(** How the report is made of the threats found. *)
Lemma analyzeLogs_report (h : Host.t) (logData : string) (w : World) :
  let found := fst (detectThreats h logData w) in
  let report := fst (analyzeLogs h logData w) in
  threats report = (if (0 <? length found)%nat then map Detected found
                    else [Sentinel "No threats detected." "INFO"])
  /\ correlations report = CorrelationEngine.correlateThreats found
  /\ mlFeatures report = MLPreprocessor.prepareForML h found
  /\ totalThreats (summary report) = Z.of_nat (length found)
  /\ highSeverity (summary report)
     = Z.of_nat (length (List.filter (fun t => String.eqb (Threat.severity t) "HIGH") found))
  /\ criticalThreats (summary report)
     = Z.of_nat (length (List.filter
                           (fun t => String.eqb (Threat.threatLevel t) "CRITICAL") found))
  /\ averageThreatScore (summary report)
     = (if (0 <? length found)%nat
        then round (inject_Z (fold_left (fun acc t => acc + Threat.threatScore t) found 0)
                    / inject_Z (Z.of_nat (length found)))
        else 0)
  /\ correlationSummary (summary report)
     = CorrelationEngine.summary (CorrelationEngine.correlateThreats found)
  /\ mlMetadata (summary report)
     = MLPreprocessor.metadataObject
         (MLPreprocessor.metadata (MLPreprocessor.prepareForML h found)).
Proof.
  cbv zeta. unfold analyzeLogs, bind, getLog, ret.
  destruct (detectThreats h logData w) as [found w1]. cbn [fst snd].
  destruct (filterM _ _ w1) as [suspicious w2]. cbn [fst].
  repeat split; reflexivity.
Qed.

(** X24: every threat in the report of a run is well formed: its score is
    between 40 and 100, its level is the level of that score and is MEDIUM,
    HIGH or CRITICAL, its severity and category are those of a rule of the
    shipped catalog, and it has a behaviour analysis exactly when it has a
    source address. *)
Theorem reported_threats_wellFormed (h : Host.t) (logData : string) (w : World) (t : Threat.t) :
  In (Detected t) (threats (fst (analyzeLogs h logData w))) -> wellFormed t.
Proof.
  destruct (analyzeLogs_report h logData w) as (Ht & _). rewrite Ht.
  pose proof (detectThreats_wellFormed h logData w) as Hwf.
  rewrite List.Forall_forall in Hwf.
  destruct (0 <? length (fst (detectThreats h logData w)))%nat.
  - intros Hin. apply in_map_iff in Hin. destruct Hin as (t' & E & Hin).
    inversion E; subst t'. apply Hwf. exact Hin.
  - intros [Hin|[]]. discriminate.
Qed.

Lemma reported_threats_wellFormed_witness :
  Forall (fun r => forall t, r = Detected t -> wellFormed t)
         (threats (fst (analyzeLogs Host.UTC Inputs.mixedLog
                          (freshWorld Inputs.frozen)))).
Proof.
  apply List.Forall_forall. intros r Hr t ->.
  exact (reported_threats_wellFormed _ _ _ t Hr).
Defined.

Lemma fold_scores (found : list Threat.t) (acc : Z) :
  fold_left (fun a t => a + Threat.threatScore t) found acc
  = acc + sumZ (map Threat.threatScore found).
Proof.
  revert acc. induction found as [|t found IH]; intros acc; simpl; [lia|].
  rewrite IH. fold (sumZ (map Threat.threatScore found)). lia.
Qed.

Lemma round_between (lo hi : Z) (x : Q) :
  (inject_Z lo <= x)%Q -> (x <= inject_Z hi)%Q -> lo <= round x <= hi.
Proof.
  intros Hlo Hhi. unfold round. split.
  - rewrite <- (Qfloor_Z lo). apply Qfloor_resp_le.
    apply Qle_trans with x; [exact Hlo|].
    rewrite <- (Qplus_0_r x) at 1. apply Qplus_le_r. discriminate.
  - assert (H : Qfloor (x + (1 # 2)) <= Qfloor (inject_Z hi + (1 # 2))).
    { apply Qfloor_resp_le. apply Qplus_le_l. exact Hhi. }
    assert (E : Qfloor (inject_Z hi + (1 # 2)) = hi).
    { unfold Qfloor, inject_Z, Qplus. simpl. rewrite Z.mul_1_r.
      replace (hi * 2 + 1) with (1 + hi * 2) by lia.
      rewrite Z.div_add by lia. reflexivity. }
    lia.
Qed.

(** X25: the summary of a report agrees with its threats.  With [n] hits in
    the text, [totalThreats] is [n] and there are [n] feature objects; the
    [threats] array has [n] elements, or the one sentinel when there is no
    hit; the counts of HIGH severities and of CRITICAL levels are between 0
    and [n]; the average score is 0 without hits and between 40 and 100
    with hits.  Without hits the report has no correlation summary (the
    property is [undefined]) and its feature metadata is the empty object;
    with hits it has a correlation summary, and its feature metadata is the
    object with the columns and statistics, whose [totalFeatures] is [n]. *)
Theorem report_summary_consistent (h : Host.t) (logData : string) (w : World) :
  let report := fst (analyzeLogs h logData w) in
  let n := length (expectedHits logData) in
  totalThreats (summary report) = Z.of_nat n
  /\ length (threats report) = Nat.max 1 n
  /\ length (MLPreprocessor.features (mlFeatures report)) = n
  /\ 0 <= highSeverity (summary report) <= Z.of_nat n
  /\ 0 <= criticalThreats (summary report) <= Z.of_nat n
  /\ (n = 0%nat ->
      threats report = [Sentinel "No threats detected." "INFO"]
      /\ averageThreatScore (summary report) = 0
      /\ correlationSummary (summary report) = None
      /\ mlMetadata (summary report) = MLPreprocessor.EmptyObject)
  /\ (n <> 0%nat ->
      40 <= averageThreatScore (summary report) <= 100
      /\ correlationSummary (summary report) <> None
      /\ exists md,
           mlMetadata (summary report) = MLPreprocessor.MetadataOf md
           /\ MLPreprocessor.totalFeatures md = Z.of_nat n).
Proof.
  cbv zeta.
  destruct (analyzeLogs_report h logData w)
    as (Ht & Hc & Hml & Htot & Hhigh & Hcrit & Havg & Hcs & Hmd).
  pose proof (detectThreats_wellFormed h logData w) as Hwf.
  assert (Hn : length (expectedHits logData) = length (fst (detectThreats h logData w))).
  { rewrite <- (detectThreats_hits_aux h logData w), length_map. reflexivity. }
  rewrite Hn. clear Hn.
  remember (fst (detectThreats h logData w)) as found eqn:Efound. clear Efound.
  split; [exact Htot|]. split.
  { rewrite Ht. destruct found; simpl; [reflexivity|]. rewrite length_map. lia. }
  split.
  { rewrite Hml. unfold MLPreprocessor.prepareForML. cbn. apply length_map. }
  split.
  { rewrite Hhigh. pose proof (filter_length_le
      (fun t => String.eqb (Threat.severity t) "HIGH") found). lia. }
  split.
  { rewrite Hcrit. pose proof (filter_length_le
      (fun t => String.eqb (Threat.threatLevel t) "CRITICAL") found). lia. }
  split.
  - intros H0. destruct found; [|discriminate].
    rewrite Ht, Havg, Hcs, Hmd. repeat split; reflexivity.
  - intros Hne.
    assert (Ef : exists t0 rest, found = t0 :: rest)
      by (destruct found; [simpl in Hne; congruence | eauto]).
    destruct Ef as (t0 & rest & Ef).
    assert (Hpos : (0 <? length found)%nat = true) by (rewrite Ef; reflexivity).
    rewrite Havg, Hpos, Hcs, Hmd. split; [|split].
    + rewrite fold_scores, Z.add_0_l.
      assert (Hq : (0 < inject_Z (Z.of_nat (length found)))%Q).
      { rewrite <- (Zlt_Qlt 0). rewrite Ef. simpl length. lia. }
      apply round_between.
      * apply Qle_shift_div_l; [exact Hq|]. rewrite <- inject_Z_mult, <- Zle_Qle.
        rewrite <- (length_map Threat.threatScore). apply sum_lower.
        apply Forall_map. eapply List.Forall_impl; [|exact Hwf]. intros t Hw. apply Hw.
      * apply Qle_shift_div_r; [exact Hq|]. rewrite <- inject_Z_mult, <- Zle_Qle.
        rewrite <- (length_map Threat.threatScore). apply sum_upper.
        apply Forall_map. eapply List.Forall_impl; [|exact Hwf]. intros t Hw. apply Hw.
    + rewrite Ef. discriminate.
    + rewrite Ef. eexists. split; [reflexivity|].
      cbn [MLPreprocessor.totalFeatures]. rewrite length_map. reflexivity.
Qed.

Lemma report_summary_consistent_witness :
  40 <= averageThreatScore
          (summary (fst (analyzeLogs Host.UTC Inputs.mixedLog (freshWorld Inputs.frozen))))
     <= 100.
Proof.
  destruct (report_summary_consistent Host.UTC Inputs.mixedLog (freshWorld Inputs.frozen))
    as (_ & _ & _ & _ & _ & _ & H).
  apply H. vm_compute. discriminate.
Defined.

End Run.

(** ** Normalisation of the features (MLPreprocessor) *)

Section Normalisation.
Import MLPreprocessor Normalizer Spec Derived.

Lemma get_ofFeatures (f : Features) (column : string) :
  JsMap.get (ofFeatures f) column = option_map (fun z => Fin (inject_Z z)) (prop f column).
Proof.
  unfold prop, ofFeatures. induction f as [|[k v] f IH]; simpl; [reflexivity|].
  destruct (String.eqb k column); [reflexivity | exact IH].
Qed.

Lemma get_statistics (cs : list string) (F : string -> Statistics) (column : string) :
  In column cs -> JsMap.get (map (fun c => (c, F c)) cs) column = Some (F column).
Proof.
  induction cs as [|c cs IH]; simpl; [tauto|].
  destruct (String.eqb_spec c column) as [->|Hne]; [reflexivity|].
  intros [E|H]; [contradiction | auto].
Qed.

Lemma Forall2_map_left {A B C : Type} (P : B -> C -> Prop) (f : A -> B)
    (l : list A) (k : list C) :
  Forall2 P (map f l) k -> Forall2 (fun x y => P (f x) y) l k.
Proof.
  revert k. induction l as [|x l IH]; intros k H; inversion H; subst; constructor; auto.
Qed.

Lemma Forall2_refl_on {A : Type} (P : A -> A -> Prop) (l : list A) :
  (forall x, P x x) -> Forall2 P l l.
Proof. intros H. induction l; constructor; auto. Qed.

Lemma Forall2_with_left {A B : Type} (P : A -> Prop) (R : A -> B -> Prop)
    (l : list A) (k : list B) :
  Forall P l -> Forall2 R l k -> Forall2 (fun x y => P x /\ R x y) l k.
Proof.
  intros HP HR. induction HR; inversion HP; subst; constructor; auto.
Qed.

Lemma Forall2_weaken {A B : Type} (R S : A -> B -> Prop) (l : list A) (k : list B) :
  (forall x y, R x y -> S x y) -> Forall2 R l k -> Forall2 S l k.
Proof. intros H HR. induction HR; constructor; auto. Qed.

Lemma fold_columns (stats : JsMap.t Statistics) (cs : list string) :
  List.NoDup cs ->
  (forall c, In c cs -> JsMap.get stats c <> None) ->
  forall rows : list Row,
  exists rows',
    fold_left (fun normalized column =>
                 match normalized, JsMap.get stats column with
                 | Some rows, Some st => Some (normalizeColumn st column rows)
                 | _, _ => None
                 end) cs (Some rows) = Some rows'
    /\ Forall2 (columnsDone stats cs) rows rows'.
Proof.
  induction 1 as [|c0 cs Hc0 Hnd IH]; intros Hstats rows.
  - exists rows. split; [reflexivity|]. apply Forall2_refl_on.
    intros row c. split; [intros [] | reflexivity].
  - cbn [fold_left].
    destruct (JsMap.get stats c0) as [st0|] eqn:E0;
      [|exfalso; apply (Hstats c0); [left; reflexivity | exact E0]].
    destruct (IH (fun c Hc => Hstats c (or_intror Hc)) (normalizeColumn st0 c0 rows))
      as (rows' & Hfold & Hdone).
    exists rows'. split; [exact Hfold|].
    unfold normalizeColumn in Hdone. apply Forall2_map_left in Hdone.
    eapply Forall2_weaken; [|exact Hdone]. intros row row' Hrow c. cbv beta in Hrow.
    destruct (Hrow c) as [Hin Hout]. split.
    + intros [<-|Hc].
      * exists st0. split; [exact E0|]. rewrite (Hout Hc0). apply get_set_eq.
      * destruct (Hin Hc) as (st & Hst & Hget). exists st. split; [exact Hst|].
        rewrite Hget. unfold valueOf. rewrite get_set_ne; [reflexivity|].
        intros ->. contradiction.
    + intros Hnot. rewrite Hout by (intros Hc; apply Hnot; right; exact Hc).
      apply get_set_ne. intros ->. apply Hnot. left. reflexivity.
Qed.

Lemma normalised_value (v lo hi : Z) :
  lo <= v <= hi ->
  normalised v lo hi
    (Some (div (sub (Fin (inject_Z v)) (ofStat (Some lo)))
               (sub (ofStat (Some hi)) (ofStat (Some lo))))).
Proof.
  intros Hv. unfold normalised. split; [exact Hv|]. cbn [ofStat sub div]. unfold isZero.
  assert (Hd : (inject_Z hi - inject_Z lo == inject_Z (hi - lo))%Q).
  { unfold Z.sub. rewrite inject_Z_plus, inject_Z_opp. reflexivity. }
  assert (Hn : (inject_Z v - inject_Z lo == inject_Z (v - lo))%Q).
  { unfold Z.sub. rewrite inject_Z_plus, inject_Z_opp. reflexivity. }
  split.
  - intros ->. assert (v = hi) by lia. subst v.
    replace (Qeq_bool (inject_Z hi - inject_Z hi) 0) with true; [reflexivity|].
    symmetry. apply Qeq_bool_iff. rewrite Hd, Z.sub_diag. reflexivity.
  - intros Hne.
    assert (Hpos : (0 < inject_Z (hi - lo))%Q) by (rewrite <- (Zlt_Qlt 0); lia).
    destruct (Qeq_bool (inject_Z hi - inject_Z lo) 0) eqn:E.
    { apply Qeq_bool_iff in E. rewrite Hd in E. rewrite E in Hpos.
      exfalso. apply (Qlt_irrefl 0). exact Hpos. }
    eexists. split; [reflexivity|]. rewrite Hd, Hn. split; [|split; [|split]].
    + apply Qle_shift_div_l; [exact Hpos|]. rewrite Qmult_0_l, <- (Zle_Qle 0). lia.
    + apply Qle_shift_div_r; [exact Hpos|]. rewrite Qmult_1_l, <- Zle_Qle. lia.
    + intros ->. rewrite Z.sub_diag. unfold Qdiv. apply Qmult_0_l.
    + intros ->. apply Qmult_inv_r. intros E0. rewrite E0 in Hpos.
      apply (Qlt_irrefl 0). exact Hpos.
Qed.

(** X26: [normalizeFeatures] fails on the empty array (the metadata of an
    empty array has no list of columns).  Otherwise, for an array of distinct
    objects and a numeric column that every row carries with a safe integer
    as value, with minimum [lo] and maximum [hi] (the names of the columns
    being distinct, as the properties of an object are, and the name of the
    column a plain key): when the column takes two values at least, every
    value becomes a number between 0 and 1, which is 0 for the minimum and 1
    for the maximum; when the column is constant, every value becomes [NaN]
    (0 divided by 0). *)
Theorem normalizeFeatures_values :
  normalizeFeatures [] = None
  /\ forall (rows : list Features) (md : Metadata) (column : string),
       generateMetadata rows = Some md ->
       List.NoDup (numericColumns md) ->
       In column (numericColumns md) ->
       JsObject.plain column = true ->
       Forall (fun f => exists v, prop f column = Some v /\ safeInteger v) rows ->
       exists lo hi rows',
         mathMin (map (fun f => prop f column) rows) = Some lo
         /\ mathMax (map (fun f => prop f column) rows) = Some hi
         /\ normalizeFeatures rows = Some rows'
         /\ Forall2 (fun f row =>
                       exists v, prop f column = Some v
                                 /\ normalised v lo hi (JsMap.get row column))
                    rows rows'.
Proof.
  split; [reflexivity|].
  intros rows md column Hmd Hnd Hcol _ Hsafe.
  assert (Hall : Forall (fun f => prop f column <> None) rows).
  { eapply List.Forall_impl; [|exact Hsafe]. intros f (v & E & _). rewrite E. discriminate. }
  clear Hsafe.
  destruct (complete_column rows column Hall) as (zs & Hzs).
  destruct rows as [|first rest]; [discriminate|].
  destruct zs as [|z zs]; [discriminate|].
  assert (Hstats : statistics md
                   = map (fun c => (c, columnStatistics (first :: rest) c))
                         (numericColumns md)).
  { unfold generateMetadata in Hmd. inversion Hmd. reflexivity. }
  exists (fold_left Z.min zs z), (fold_left Z.max zs z).
  destruct (fold_columns (statistics md) (numericColumns md) Hnd) with
    (rows := map ofFeatures (first :: rest)) as (rows' & Hfold & Hdone).
  { intros c Hc. rewrite Hstats, get_statistics by exact Hc. discriminate. }
  exists rows'. rewrite Hzs. cbn [mathMin mathMax map].
  rewrite fold_numMin_some, fold_numMax_some.
  split; [reflexivity|]. split; [reflexivity|]. split.
  { unfold normalizeFeatures. rewrite Hmd. exact Hfold. }
  apply Forall2_map_left in Hdone.
  destruct (fold_min_le zs z) as [Hlo1 Hlo2]. destruct (fold_max_ge zs z) as [Hhi1 Hhi2].
  assert (Hbounds : Forall (fun v => fold_left Z.min zs z <= v <= fold_left Z.max zs z)
                           (z :: zs)).
  { constructor; [lia|]. apply List.Forall_forall. intros v Hv.
    rewrite List.Forall_forall in Hlo2, Hhi2. split; [apply Hlo2 | apply Hhi2]; exact Hv. }
  assert (Hvals : Forall (fun f => exists v, prop f column = Some v
                                             /\ fold_left Z.min zs z <= v
                                                <= fold_left Z.max zs z)
                         (first :: rest)).
  { clear -Hzs Hbounds. revert Hzs Hbounds.
    generalize (z :: zs) as vs. generalize (first :: rest) as fs.
    induction fs as [|f fs IH]; intros vs Hzs Hb; [constructor|].
    destruct vs as [|v vs]; [discriminate|]. simpl in Hzs. inversion Hzs.
    inversion Hb; subst. constructor; [eauto | eapply IH; eassumption]. }
  eapply Forall2_weaken; [|exact (Forall2_with_left _ _ _ _ Hvals Hdone)].
  - intros f row ((v & Hv & Hb) & Hrow). cbv beta in Hrow.
    exists v. split; [exact Hv|].
    destruct (Hrow column) as [Hin _]. destruct (Hin Hcol) as (st & Hst & Hget).
    rewrite Hstats, get_statistics in Hst by exact Hcol. inversion Hst; subst st.
    rewrite Hget. unfold columnStatistics. cbn [min max]. rewrite Hzs.
    cbn [mathMin mathMax map]. rewrite fold_numMin_some, fold_numMax_some.
    unfold valueOf. rewrite get_ofFeatures, Hv. cbn [option_map default].
    apply normalised_value. exact Hb.
Qed.

Lemma normalizeFeatures_values_witness :
  exists lo hi rows',
    mathMin (map (fun f => prop f "minute") fiveRows) = Some lo
    /\ mathMax (map (fun f => prop f "minute") fiveRows) = Some hi
    /\ normalizeFeatures fiveRows = Some rows'
    /\ Forall2 (fun f row =>
                  exists v, prop f "minute" = Some v
                            /\ normalised v lo hi (JsMap.get row "minute"))
               fiveRows rows'.
Proof.
  destruct (generateMetadata fiveRows) as [md|] eqn:E; [|vm_compute in E; discriminate].
  apply (proj2 normalizeFeatures_values fiveRows md "minute" E).
  - vm_compute in E. injection E as <-. apply nodupb_NoDup. reflexivity.
  - vm_compute in E. injection E as <-. simpl. tauto.
  - reflexivity.
  - repeat constructor; eexists; (split; [vm_compute; reflexivity | vm_compute; reflexivity]).
Defined.

End Normalisation.

(** ** Counts of the correlation result and suspicious sources *)

Section Counts.
Import BehaviorAnalyzer LogAnalyzer CorrelationEngine Spec Derived.

Lemma wellBuilt_members (threats : list Threat.t) (before : list Group) (g : Group) :
  wellBuilt threats before g ->
  (2 <= length (members g))%nat
  /\ Forall (fun k => (k < length threats)%nat) (members g).
Proof.
  intros (Hp & _ & Hrel & Hne). split.
  - unfold members. simpl. rewrite length_map.
    destruct (relatedThreats g); [congruence | simpl; lia].
  - unfold members. constructor.
    + apply nth_error_Some. rewrite Hp. discriminate.
    + rewrite Hrel. apply List.Forall_forall. intros k Hk. apply in_map_iff in Hk.
      destruct Hk as ([k' u] & E & Hin). simpl in E. subst k'.
      unfold candidates in Hin. apply filter_In in Hin. destruct Hin as [Hin _].
      apply In_indexedFrom in Hin. destruct Hin as (m & -> & Hm).
      apply nth_error_Some. simpl. rewrite Hm. discriminate.
Qed.

Lemma Built_members (threats : list Threat.t) (gs : list Group) :
  Built threats gs ->
  (2 * length gs <= length (allMembers gs))%nat
  /\ Forall (fun k => (k < length threats)%nat) (allMembers gs).
Proof.
  induction 1 as [|gs g Hb [IH1 IH2] Hw].
  - split; [simpl; lia | constructor].
  - destruct (wellBuilt_members threats gs g Hw) as [H2 Hlt].
    rewrite allMembers_snoc. split.
    + rewrite !length_app. change (length [g]) with 1%nat. lia.
    + apply Forall_app. split; assumption.
Qed.

Lemma identifyAttackPatterns_names (threats : list Threat.t) :
  (length (identifyAttackPatterns threats) <= 3)%nat
  /\ Forall (fun m => In (name m) ["Reconnaissance followed by Attack";
                                   "Brute Force Attack"; "Multi-Vector Attack"])
            (identifyAttackPatterns threats).
Proof.
  split.
  - unfold identifyAttackPatterns, knownPatterns. cbn [omap list_omap].
    repeat match goal with |- context [matchPattern ?a ?b] => destruct (matchPattern a b) end;
      simpl; lia.
  - apply List.Forall_forall. intros m Hin.
    destruct (identifyAttackPatterns_cases threats m Hin) as [H|[H|H]].
    + destruct (matchSequencePattern_sound _ _ _ _ _ m H) as (-> & _). simpl. tauto.
    + unfold matchFrequencyPattern in H. apply windowPattern_some in H.
      destruct H as (? & ? & _ & ->). simpl. tauto.
    + unfold matchDiversityPattern in H. apply windowPattern_some in H.
      destruct H as (? & ? & _ & ->). simpl. tauto.
Qed.

(** X27: for a list with at least one threat, [correlateThreats] returns a
    summary whose counts are those of the groups and patterns it returns.
    Every group holds two threats at least and no threat is in two groups, so
    there are at most half as many groups as threats (a single threat forms
    no group); at most three patterns are reported, each under the name of
    one of the three templates. *)
Theorem correlateThreats_counts (threats : list Threat.t) :
  threats <> [] ->
  let result := correlateThreats threats in
  exists s,
    summary result = Some s
    /\ totalCorrelatedGroups s = Z.of_nat (length (correlatedEvents result))
    /\ totalPatterns s = Z.of_nat (length (patterns result))
    /\ patternTypes s = map name (patterns result)
    /\ 2 * totalCorrelatedGroups s <= Z.of_nat (length threats)
    /\ 0 <= criticalCorrelations s <= totalCorrelatedGroups s
    /\ totalPatterns s <= 3
    /\ Forall (fun n => In n ["Reconnaissance followed by Attack"; "Brute Force Attack";
                              "Multi-Vector Attack"]) (patternTypes s).
Proof.
  intros Hne. cbv zeta. unfold correlateThreats.
  destruct threats as [|t0 rest]; [congruence|]. cbn [length Nat.eqb].
  set (threats := t0 :: rest) in *.
  eexists. split; [reflexivity|]. unfold generateCorrelationSummary.
  cbn [totalCorrelatedGroups totalPatterns patternTypes criticalCorrelations
       correlatedEvents patterns].
  destruct (findCorrelatedEvents_inv threats) as (Hb & Hnd & _).
  fold (findCorrelatedEvents threats) in Hb, Hnd.
  destruct (Built_members threats _ Hb) as [H2 Hlt].
  destruct (identifyAttackPatterns_names threats) as [H3 Hnames].
  split; [reflexivity|]. split; [reflexivity|]. split; [reflexivity|]. split.
  - assert (Hle : (length (allMembers (findCorrelatedEvents threats))
                   <= length (seq 0 (length threats)))%nat).
    { apply List.NoDup_incl_length; [exact Hnd|]. intros k Hk. apply in_seq.
      rewrite List.Forall_forall in Hlt. specialize (Hlt k Hk). lia. }
    rewrite length_seq in Hle. change (length threats) with (S (length rest)) in *. lia.
  - split.
    + pose proof (filter_length_le (fun group => String.eqb (riskLevel group) "CRITICAL")
                    (findCorrelatedEvents threats)). lia.
    + split; [lia|]. apply Forall_map. exact Hnames.
Qed.

Lemma correlateThreats_counts_witness :
  exists s,
    summary (correlateThreats quickRun) = Some s
    /\ 2 * totalCorrelatedGroups s <= 4
    /\ totalPatterns s <= 3.
Proof.
  destruct (correlateThreats_counts quickRun) as (s & Hs & _ & _ & _ & H2 & _ & H3 & _).
  - discriminate.
  - exists s. split; [exact Hs|]. split; [exact H2 | exact H3].
Defined.

(** The sources that a filter keeps are sources for which its test
    answered true in some state with the same log. *)
Lemma filterM_kept (p : string -> M bool) (log : JsMap.t (list Activity))
    (Q : string -> Prop) :
  (forall ip w, activityLog w = log ->
                activityLog (snd (p ip w)) = log /\ (fst (p ip w) = true -> Q ip)) ->
  forall (l : list string) (w : World),
    activityLog w = log ->
    activityLog (snd (filterM p l w)) = log /\ Forall Q (fst (filterM p l w)).
Proof.
  intros Hp. induction l as [|ip l IH]; intros w Hw; simpl.
  - split; [exact Hw | constructor].
  - unfold bind, ret. destruct (Hp ip w Hw) as [Hlog Hq].
    destruct (p ip w) as [keep w1]. cbn [fst snd] in *.
    destruct (IH w1 Hlog) as [Hlog' Hrest].
    destruct (filterM p l w1) as [rest w2]. cbn [fst snd] in *.
    split; [exact Hlog'|]. destruct keep; [constructor; auto | exact Hrest].
Qed.

Lemma analyzePattern_risk (h : Host.t) (ip : string) (w : World) :
  activityLog (snd (analyzePattern h ip w)) = activityLog w
  /\ (70 < riskScore (fst (analyzePattern h ip w)) ->
      (30 < length (default [] (JsMap.get (activityLog w) ip)))%nat).
Proof.
  rewrite analyzePattern_stored.
  set (acts := default [] (JsMap.get (activityLog w) ip)).
  split; [apply analyzeActivities_frame|].
  unfold analyzeActivities, bind, ret.
  destruct (calculateFrequency acts w) as [f1 w1].
  destruct (calculateRiskScore h acts w1) as [risk w2] eqn:E. cbn [fst riskScore].
  intros H. replace risk with (fst (calculateRiskScore h acts w1)) in H by (rewrite E; reflexivity).
  apply calculateRiskScore_above_70 in H. apply H.
Qed.

(** X28: a source is listed in [suspiciousIPs] of the report only if more
    than 30 records of it are in the activity log at the end of the run:
    without the high-frequency signal the risk score cannot exceed 70. *)
Theorem suspiciousIPs_have_many_records (h : Host.t) (logData : string) (w : World)
    (ip : string) :
  In ip (suspiciousIPs (LogAnalyzer.summary (fst (analyzeLogs h logData w)))) ->
  (30 < length (default []
                  (JsMap.get (activityLog (snd (analyzeLogs h logData w))) ip)))%nat.
Proof.
  unfold analyzeLogs, bind, getLog, ret.
  destruct (detectThreats h logData w) as [found w1]. cbn [fst snd].
  destruct (filterM_kept
              (fun ip => fun w' =>
                 let (analysis, w'') := analyzePattern h ip w' in
                 (70 <? riskScore analysis, w''))
              (activityLog w1)
              (fun ip => (30 < length (default [] (JsMap.get (activityLog w1) ip)))%nat))
    with (l := JsMap.keys (activityLog w1)) (w := w1) as [Hlog Hall].
  - intros ip' w' Hw'. destruct (analyzePattern_risk h ip' w') as [Hl Hr].
    destruct (analyzePattern h ip' w') as [analysis w'']. cbn [fst snd] in *.
    split; [congruence|]. intros Hlt. apply Z.ltb_lt in Hlt. rewrite <- Hw'. auto.
  - reflexivity.
  - destruct (filterM _ (JsMap.keys (activityLog w1)) w1) as [suspicious w2].
    cbn [fst snd LogAnalyzer.summary suspiciousIPs] in *. intros Hin.
    rewrite List.Forall_forall in Hall. rewrite Hlog. apply Hall. exact Hin.
Qed.

Lemma suspiciousIPs_have_many_records_witness :
  In "10.0.0.5"
     (suspiciousIPs (LogAnalyzer.summary
                       (fst (analyzeLogs Host.UTC loginFlood (freshWorld Inputs.frozen)))))
  /\ (30 < length (default []
                     (JsMap.get (activityLog
                                   (snd (analyzeLogs Host.UTC loginFlood
                                           (freshWorld Inputs.frozen))))
                                "10.0.0.5")))%nat.
Proof.
  assert (H : In "10.0.0.5"
                 (suspiciousIPs
                    (LogAnalyzer.summary
                       (fst (analyzeLogs Host.UTC loginFlood (freshWorld Inputs.frozen))))))
    by (vm_compute; left; reflexivity).
  split; [exact H|].
  exact (suspiciousIPs_have_many_records Host.UTC loginFlood _ "10.0.0.5" H).
Defined.

End Counts.

(** ** The clock readings of a hit ([analyzeLogs]) *)

Section Hits.
Import BehaviorAnalyzer LogAnalyzer Spec.

(** What a loop that only appends has appended, each element with the step
    that appended it and the state in which that step started. *)
Lemma forEachM_origin {A T : Type} (f : nat -> A -> list T -> M (list T))
    (I : list T -> World -> Prop) (Q : nat -> A -> list T -> World -> T -> Prop) :
  (forall i x s w, I s w ->
     I (fst (f i x s w)) (snd (f i x s w))
     /\ exists new, fst (f i x s w) = s ++ new /\ Forall (Q i x s w) new) ->
  forall (l : list A) (i : nat) (s : list T) (w : World),
    I s w ->
    I (fst (forEachM f i l s w)) (snd (forEachM f i l s w))
    /\ exists new,
         fst (forEachM f i l s w) = s ++ new
         /\ Forall (fun t => exists k x,
                      nth_error l k = Some x
                      /\ Q (i + k)%nat x (fst (forEachM f i (firstn k l) s w))
                           (snd (forEachM f i (firstn k l) s w)) t) new.
Proof.
  intros Hf. induction l as [|x l IH]; intros i s w Hs.
  - simpl. split; [exact Hs|]. exists []. rewrite app_nil_r. split; [reflexivity | constructor].
  - destruct (Hf i x s w Hs) as [HI (new1 & E1 & HQ1)].
    cbn [forEachM]. unfold bind. destruct (f i x s w) as [s1 w1] eqn:Ef. cbn [fst snd] in *.
    destruct (IH (S i) s1 w1 HI) as [HI' (new2 & E2 & HQ2)].
    split; [exact HI'|]. exists (new1 ++ new2). split.
    + rewrite E2, E1, app_assoc. reflexivity.
    + apply Forall_app. split.
      * eapply List.Forall_impl; [|exact HQ1]. intros t Ht. exists 0%nat, x.
        split; [reflexivity|]. rewrite Nat.add_0_r. exact Ht.
      * eapply List.Forall_impl; [|exact HQ2]. intros t (k & y & Hk & Hq).
        exists (S k), y. split; [exact Hk|].
        cbn [firstn forEachM]. unfold bind. rewrite Ef.
        replace (i + S k)%nat with (S i + k)%nat by lia. exact Hq.
Qed.

(** The loop over the catalog that [scanLine] runs for a line. *)
Lemma scanLine_patternBody (h : Host.t) (lines : list string) (index : nat) (line : string) :
  scanLine h lines index line
  = forEachM (patternBody h lines index line) 0 Patterns.SUSPICIOUS_PATTERNS.
Proof. reflexivity. Qed.

(** When the loops have come to the end of the text, the run has found its
    threats. *)
Lemma comesTo_end (h : Host.t) (logData : string) (w0 : World) :
  let lines := JsString.split "010" logData in
  comesTo h lines (length lines) "" 0 w0 = detectThreats h logData w0.
Proof.
  cbv zeta. unfold comesTo, detectThreats, bind. rewrite firstn_all.
  destruct (forEachM _ 0 (JsString.split "010" logData) [] w0) as [found w].
  reflexivity.
Qed.

Lemma analyzePattern_frame (h : Host.t) (ip : string) (w : World) :
  clock (snd (analyzePattern h ip w)) = clock w
  /\ activityLog (snd (analyzePattern h ip w)) = activityLog w
  /\ (reads w <= reads (snd (analyzePattern h ip w)))%nat.
Proof. rewrite analyzePattern_stored. apply analyzeActivities_frame. Qed.

(** The processing of one hit. *)
Lemma scanPattern_hit (h : Host.t) (line : string) (index : nat)
    (previousLines nextLines : list string) (ip : option string)
    (pattern : Patterns.Pattern) (found : list Threat.t) (w : World) :
  RegExp.test (Patterns.pattern pattern) line = true ->
  ip = None \/ JsString.truthy ip = true ->
  let step := scanPattern h line index previousLines nextLines ip pattern found w in
  exists t,
    fst step = found ++ [t]
    /\ Threat.sourceIP t = ip
    /\ Threat.timestamp t = clock w (reads (snd step) - 1)
    /\ clock (snd step) = clock w
    /\ (reads w + 2 <= reads (snd step))%nat
    /\ match ip with
       | None => activityLog (snd step) = activityLog w
       | Some source =>
           (reads w + 4 <= reads (snd step))%nat
           /\ JsMap.get (activityLog (snd step)) source
              = Some (List.filter
                        (fun r => clock w (S (reads w)) - 60 * 60 * 1000 <? timestamp r)
                        (default [] (JsMap.get (activityLog w) source)
                         ++ [{| action := extractAction line (Patterns.category pattern);
                                timestamp := clock w (reads w) |}]))
           /\ forall other, source <> other ->
                JsMap.get (activityLog (snd step)) other = JsMap.get (activityLog w) other
       end.
Proof.
  intros Ht Hip. cbv zeta. unfold scanPattern. rewrite Ht.
  destruct ip as [source|].
  - destruct Hip as [Hip|Hip]; [discriminate|]. rewrite Hip.
    set (action := extractAction line (Patterns.category pattern)).
    pose (w1 := {| clock := clock w; reads := S (reads w); activityLog := activityLog w |}).
    pose proof (trackActivity_source source action (clock w (reads w)) w1) as Hsrc.
    pose proof (fun other => trackActivity_other source other action (clock w (reads w)) w1)
      as Hother.
    destruct (trackActivity_clock source action (clock w (reads w)) w1) as [Hc2 Hr2].
    unfold bind, ret, Date_now. cbv beta iota.
    change {| clock := clock w; reads := S (reads w); activityLog := activityLog w |}
      with w1.
    destruct (trackActivity source action (clock w (reads w)) w1) as [u w2].
    cbn [fst snd] in *.
    destruct (analyzePattern_frame h source w2) as (Hc3 & Hl3 & Hr3).
    destruct (analyzePattern h source w2) as [b w3]. cbn [fst snd] in *.
    cbn [fst snd clock reads activityLog].
    eexists. split; [reflexivity|]. cbn [Threat.sourceIP Threat.timestamp].
    split; [reflexivity|].
    replace (S (S (reads w3)) - 1)%nat with (S (reads w3)) by lia.
    subst w1. cbn [clock reads activityLog] in *.
    split; [rewrite Hc3, Hc2; reflexivity|].
    split; [congruence|]. split; [lia|]. split; [lia|].
    rewrite Hl3. split; [exact Hsrc|]. intros other Hne. apply Hother. exact Hne.
  - unfold bind, Date_now, ret. cbv beta iota. cbn [fst snd clock reads activityLog].
    eexists. split; [reflexivity|]. cbn [Threat.sourceIP Threat.timestamp].
    split; [reflexivity|].
    replace (S (S (reads w)) - 1)%nat with (S (reads w)) by lia.
    split; [reflexivity|]. split; [reflexivity|]. split; [lia | reflexivity].
Qed.

Lemma scanPattern_miss (h : Host.t) (line : string) (index : nat)
    (previousLines nextLines : list string) (ip : option string)
    (pattern : Patterns.Pattern) (found : list Threat.t) (w : World) :
  RegExp.test (Patterns.pattern pattern) line = false ->
  scanPattern h line index previousLines nextLines ip pattern found w = (found, w).
Proof. intros Ht. unfold scanPattern. rewrite Ht. reflexivity. Qed.

(** The threats that the catalog loop appends for one line. *)
Lemma scanLine_origin (h : Host.t) (lines : list string) (w0 : World) (index : nat)
    (line : string) (found : list Threat.t) (w : World) :
  sinceStart w0 found w ->
  sinceStart w0 (fst (scanLine h lines index line found w))
             (snd (scanLine h lines index line found w))
  /\ exists new,
       fst (scanLine h lines index line found w) = found ++ new
       /\ Forall
            (fun t =>
               exists j pattern,
                 nth_error Patterns.SUSPICIOUS_PATTERNS j = Some pattern
                 /\ RegExp.test (Patterns.pattern pattern) line = true
                 /\ let body := patternBody h lines index line in
                    let before :=
                      forEachM body 0 (firstn j Patterns.SUSPICIOUS_PATTERNS) found w in
                    let step := body j pattern (fst before) (snd before) in
                    fst step = fst before ++ [t]
                    /\ hitStamped w0 (snd before) (snd step) (extractIP line)
                         (extractAction line (Patterns.category pattern)) t)
            new.
Proof.
  intros Hs.
  change (scanLine h lines index line)
    with (forEachM (patternBody h lines index line) 0 Patterns.SUSPICIOUS_PATTERNS).
  destruct (forEachM_origin (patternBody h lines index line) (sinceStart w0)
              (fun _ pattern s w' t =>
                 RegExp.test (Patterns.pattern pattern) line = true
                 /\ fst (patternBody h lines index line 0 pattern s w') = s ++ [t]
                 /\ hitStamped w0 w' (snd (patternBody h lines index line 0 pattern s w'))
                      (extractIP line) (extractAction line (Patterns.category pattern)) t))
    with (l := Patterns.SUSPICIOUS_PATTERNS) (i := 0%nat) (s := found) (w := w)
    as [HI (new & E & HQ)].
  - clear. intros i pattern s w [Hc Hr]. unfold patternBody.
    destruct (RegExp.test (Patterns.pattern pattern) line) eqn:Ht.
    + destruct (scanPattern_hit h line index
                  (JsString.slice (Nat.max 0 (index - 5)) index lines)
                  (JsString.slice (index + 1) (index + 6) lines)
                  (extractIP line) pattern s w Ht (extractIP_truthy line))
        as (t & E & _ & Hts & Hc' & Hr' & Hlog).
      split; [split; [congruence | lia]|].
      exists [t]. split; [exact E|]. constructor; [|constructor].
      split; [reflexivity|]. split; [exact E|].
      split; [exact Hc|]. split; [exact Hr|]. split; [lia|].
      split; [rewrite <- Hc; exact Hts|].
      intros source Hip. rewrite Hip in *. destruct Hlog as (Hr4 & Hget & _).
      split; [lia|]. rewrite <- Hc. exact Hget.
    + rewrite scanPattern_miss by exact Ht. cbn [fst snd].
      split; [split; assumption|]. exists []. rewrite app_nil_r.
      split; [reflexivity | constructor].
  - exact Hs.
  - split; [exact HI|]. exists new. split; [exact E|].
    eapply List.Forall_impl; [|exact HQ].
    intros t (j & pattern & Hj & Htest & Hstep & Hst).
    exists j, pattern. split; [exact Hj|]. split; [exact Htest|]. cbv zeta.
    split; [exact Hstep | exact Hst].
Qed.

(** Every threat that the two loops find was made by the processing of a
    hit. *)
Lemma detectThreats_origin (h : Host.t) (logData : string) (w0 : World) (t : Threat.t) :
  In t (fst (detectThreats h logData w0)) ->
  processedHit h (JsString.split "010" logData) w0 t.
Proof.
  unfold detectThreats. set (lines := JsString.split "010" logData). intros Hin.
  destruct (forEachM_origin (scanLine h lines) (sinceStart w0)
              (fun index line s w t =>
                 exists j pattern,
                   nth_error Patterns.SUSPICIOUS_PATTERNS j = Some pattern
                   /\ RegExp.test (Patterns.pattern pattern) line = true
                   /\ let body := patternBody h lines index line in
                      let before :=
                        forEachM body 0 (firstn j Patterns.SUSPICIOUS_PATTERNS) s w in
                      let step := body j pattern (fst before) (snd before) in
                      fst step = fst before ++ [t]
                      /\ hitStamped w0 (snd before) (snd step) (extractIP line)
                           (extractAction line (Patterns.category pattern)) t))
    with (l := lines) (i := 0%nat) (s := @nil Threat.t) (w := w0)
    as [_ (new & E & HQ)].
  - intros index line s w Hs. apply scanLine_origin. exact Hs.
  - split; [reflexivity | lia].
  - rewrite E in Hin. simpl in Hin. rewrite List.Forall_forall in HQ.
    destruct (HQ t Hin) as (index & line & Hline & j & pattern & Hj & Htest & Hstep).
    exists index, line, j, pattern. split; [exact Hline|]. split; [exact Hj|].
    split; [exact Htest|]. simpl Nat.add in Hstep. cbv zeta in Hstep |- *.
    unfold comesTo, bind.
    destruct (forEachM (scanLine h lines) 0 (firstn index lines) [] w0) as [s w].
    cbn [fst snd] in Hstep. exact Hstep.
Qed.

(** The threats of the report are the threats found. *)
Lemma Detected_found (h : Host.t) (logData : string) (w0 : World) (t : Threat.t) :
  In (Detected t) (threats (fst (analyzeLogs h logData w0))) <->
  In t (fst (detectThreats h logData w0)).
Proof.
  destruct (analyzeLogs_report h logData w0) as [E _]. cbv zeta in E. rewrite E.
  destruct (fst (detectThreats h logData w0)) as [|t0 rest]; simpl.
  - split; [intros [H|[]]; discriminate | intros []].
  - split.
    + intros [H|H]; [left; congruence|]. right.
      apply in_map_iff in H. destruct H as (u & Eu & Hu). congruence.
    + intros [H|H]; [left; congruence|]. right. apply in_map. exact H.
Qed.

Lemma hitsFrom_found (h : Host.t) (logData : string) (w0 : World) (source : string) :
  hitsFrom source (fst (analyzeLogs h logData w0))
  = length (List.filter (fromSource source) (fst (detectThreats h logData w0))).
Proof.
  unfold hitsFrom. destruct (analyzeLogs_report h logData w0) as [E _]. cbv zeta in E.
  rewrite E. destruct (fst (detectThreats h logData w0)) as [|t0 rest]; [reflexivity|].
  change (0 <? length (t0 :: rest))%nat with true. cbv iota.
  generalize (t0 :: rest). intros l. induction l as [|u l IH]; [reflexivity|].
  simpl. destruct (fromSource source u); simpl; rewrite IH; reflexivity.
Qed.

Lemma filter_fresh_twice (threshold : Z) (l : list Activity) :
  List.filter (fun r => threshold <? timestamp r)
              (List.filter (fun r => threshold <? timestamp r) l)
  = List.filter (fun r => threshold <? timestamp r) l.
Proof.
  induction l as [|r l IH]; [reflexivity|]. simpl.
  destruct (threshold <? timestamp r) eqn:E; simpl; [rewrite E, IH|]; auto.
Qed.

Lemma filter_fresh_now (now : Z) (n : nat) (recs : list Activity) :
  map timestamp recs = repeat now n ->
  List.filter (fun r => now - 60 * 60 * 1000 <? timestamp r) recs = recs.
Proof.
  revert n. induction recs as [|r recs IH]; intros n E; [reflexivity|].
  destruct n as [|n]; [discriminate|]. simpl in E. injection E as Er E.
  simpl. rewrite Er. replace (now - 60 * 60 * 1000 <? now) with true
    by (symmetry; apply Z.ltb_lt; lia).
  rewrite (IH n E). reflexivity.
Qed.

Lemma trackedAt_same (now : Z) (w0 w w' : World) (source : string) (n : nat) :
  JsMap.get (activityLog w') source = JsMap.get (activityLog w) source ->
  trackedAt now w0 w source n -> trackedAt now w0 w' source n.
Proof. intros E. unfold trackedAt. rewrite E. auto. Qed.

Lemma standing_scanPattern (now : Z) (w0 : World) (h : Host.t) (lines : list string)
    (index : nat) (line : string) (j : nat) (pattern : Patterns.Pattern)
    (found : list Threat.t) (w : World) :
  standing now w0 found w ->
  standing now w0 (fst (patternBody h lines index line j pattern found w))
           (snd (patternBody h lines index line j pattern found w)).
Proof.
  intros [Hnow Htr]. unfold patternBody.
  destruct (RegExp.test (Patterns.pattern pattern) line) eqn:Ht;
    [|rewrite scanPattern_miss by exact Ht; split; assumption].
  destruct (scanPattern_hit h line index
              (JsString.slice (Nat.max 0 (index - 5)) index lines)
              (JsString.slice (index + 1) (index + 6) lines)
              (extractIP line) pattern found w Ht (extractIP_truthy line))
    as (t & E & Hip & _ & Hc & _ & Hlog).
  rewrite E. split; [intros k; rewrite Hc; apply Hnow|].
  intros source. rewrite List.filter_app, length_app. cbn [List.filter].
  unfold fromSource at 2. rewrite Hip.
  destruct (extractIP line) as [ip|]; cbv beta iota.
  - destruct Hlog as (_ & Hget & Hother).
    destruct (String.eqb_spec ip source) as [->|Hne].
    + cbn [length]. rewrite (Nat.add_1_r (length (List.filter (fromSource source) found))).
      cbn [trackedAt]. rewrite Hget, !Hnow. specialize (Htr source).
      destruct (length (List.filter (fromSource source) found)) as [|n]; cbn [trackedAt] in Htr.
      * rewrite Htr, List.filter_app. eexists. split; [reflexivity|].
        cbn [List.filter timestamp].
        replace (now - 60 * 60 * 1000 <? now) with true
          by (symmetry; apply Z.ltb_lt; lia).
        reflexivity.
      * destruct Htr as (recs & Hrecs & Hts). rewrite Hrecs. cbn [default from_option]. unfold id at 1.
        rewrite !List.filter_app, filter_fresh_twice, (filter_fresh_now now (S n) recs Hts).
        cbn [List.filter timestamp].
        replace (now - 60 * 60 * 1000 <? now) with true
          by (symmetry; apply Z.ltb_lt; lia).
        exists (recs ++ [{| action := extractAction line (Patterns.category pattern);
                            timestamp := now |}]).
        split; [rewrite <- app_assoc; reflexivity|].
        rewrite map_app, Hts. cbn [map timestamp].
        change (now :: repeat now (S n)) with (repeat now (S (S n))).
        rewrite <- (repeat_cons (S n) now). reflexivity.
    + cbn [length]. rewrite Nat.add_0_r.
      apply (trackedAt_same now w0 w); [apply Hother; exact Hne | apply Htr].
  - cbn [length]. rewrite Nat.add_0_r.
    apply (trackedAt_same now w0 w); [rewrite Hlog; reflexivity | apply Htr].
Qed.

Lemma standing_analyzeLogs (now : Z) (w0 : World) (h : Host.t) (logData : string) :
  (forall k, clock w0 k = now) ->
  standing now w0 (fst (detectThreats h logData w0)) (snd (analyzeLogs h logData w0)).
Proof.
  intros Hnow.
  assert (Hd : wp (detectThreats h logData) (standing now w0) w0).
  { unfold detectThreats. apply wp_forEachM.
    - intros index line found w Hs.
      change (scanLine h (JsString.split "010" logData) index line)
        with (forEachM (patternBody h (JsString.split "010" logData) index line) 0
                Patterns.SUSPICIOUS_PATTERNS).
      apply wp_forEachM; [|exact Hs].
      intros j pattern found' w' Hs'. apply standing_scanPattern. exact Hs'.
    - split; [exact Hnow|]. intros source. reflexivity. }
  unfold wp in Hd. unfold analyzeLogs, bind, getLog, ret.
  destruct (detectThreats h logData w0) as [found w1]. cbn [fst snd] in *.
  assert (Hf : wp (filterM (fun ip => fun w' =>
                              let (analysis, w'') := analyzePattern h ip w' in
                              (70 <? riskScore analysis, w''))
                           (JsMap.keys (activityLog w1)))
                  (fun _ w2 => standing now w0 found w2) w1).
  { apply (wp_filterM _ (standing now w0 found)); [|exact Hd].
    intros ip w [Hn Htr]. unfold wp.
    destruct (analyzePattern_frame h ip w) as (Hc & Hl & _).
    destruct (analyzePattern h ip w) as [analysis w'']. cbn [fst snd] in *.
    split; [intros k; rewrite Hc; apply Hn|].
    intros source. apply (trackedAt_same now w0 w); [rewrite Hl; reflexivity | apply Htr]. }
  unfold wp in Hf.
  destruct (filterM _ (JsMap.keys (activityLog w1)) w1) as [suspicious w2].
  cbn [fst snd] in *. exact Hf.
Qed.

(** C4: every threat of the report of a run was made by the processing of a
    hit (a line and a rule of the catalog that matches it), and its timestamp
    is the last reading of the clock made while that hit was processed; when
    the line has a source address, the first reading made for the hit is the
    timestamp of the record pushed on the list of the source in the activity
    log.  Every record of the log after the run was there before or carries
    a reading of the clock made during the run.  The text of the lines
    contributes nothing to these timestamps: on a clock that stands at [now],
    every threat of every input has the timestamp [now], and the list of
    every source has gained one record stamped [now] per threat of that
    source. *)
Theorem C4_timestamps_are_clock_readings (h : Host.t) (logData : string) (w0 : World) :
  let lines := JsString.split "010" logData in
  let report := fst (analyzeLogs h logData w0) in
  let w' := snd (analyzeLogs h logData w0) in
  (forall t, In (Detected t) (threats report) -> processedHit h lines w0 t)
  /\ logStamped w0 w'
  /\ forall now : Z,
       (forall k, clock w0 k = now) ->
       (forall t, In (Detected t) (threats report) -> Threat.timestamp t = now)
       /\ forall source, trackedAt now w0 w' source (hitsFrom source report).
Proof.
  cbv zeta. split; [|split].
  - intros t Hin. apply detectThreats_origin. apply Detected_found. exact Hin.
  - pose proof (wp_analyzeLogs w0 h logData) as H. unfold wp in H. apply H.
  - intros now Hnow. split.
    + intros t Hin. pose proof (wp_analyzeLogs w0 h logData) as [_ Hts].
      destruct (Hts t Hin) as (k & _ & E). rewrite E. apply Hnow.
    + intros source. rewrite hitsFrom_found.
      apply (standing_analyzeLogs now w0 h logData Hnow).
Qed.

Lemma C4_timestamps_are_clock_readings_witness :
  (forall k, clock (freshWorld Inputs.noon) k = 1717416000000)
  /\ length (threats (fst (analyzeLogs Host.UTC Inputs.threeLogins
                             (freshWorld Inputs.noon)))) = 3%nat
  /\ (forall t,
        In (Detected t) (threats (fst (analyzeLogs Host.UTC Inputs.threeLogins
                                         (freshWorld Inputs.noon)))) ->
        Threat.timestamp t = 1717416000000)
  /\ trackedAt 1717416000000 (freshWorld Inputs.noon)
       (snd (analyzeLogs Host.UTC Inputs.threeLogins (freshWorld Inputs.noon)))
       "10.0.0.5" 3.
Proof.
  assert (Hnow : forall k, clock (freshWorld Inputs.noon) k = 1717416000000)
    by (intros k; reflexivity).
  split; [exact Hnow|]. split; [vm_compute; reflexivity|].
  destruct (proj2 (proj2 (C4_timestamps_are_clock_readings
                            Host.UTC Inputs.threeLogins (freshWorld Inputs.noon)))
                  1717416000000 Hnow) as [Hts Htr].
  split; [exact Hts|]. exact (Htr "10.0.0.5").
Defined.

End Hits.
